(** * The block optimizer of blocksnet: a shallow embedding and its properties

    The development follows [blocksnet/method/block_optimizer.py].  Numbers
    that Python holds as floats or ints are rationals here ([Q]); a step
    whose Python value would be [inf] or [nan] is the outcome [NonFinite].
    Python dictionaries are insertion-ordered association lists, pandas
    frames are labelled sparse tables, and exceptions are the [Raise]
    outcomes of a small error monad. *)

From Stdlib Require Import List ZArith QArith Qminmax Qround String Bool Lia Lqa.
Import ListNotations.

Set Implicit Arguments.

(** ** Python outcomes *)

Inductive PyError : Type :=
| KeyError
| ZeroDivisionError
| AttributeError
| TypeError
| ValueError
| NonFinite.

Inductive result (A : Type) : Type :=
| Ok (a : A)
| Raise (e : PyError).

Arguments Ok {A} a.
Arguments Raise {A} e.

Definition bind {A B : Type} (m : result A) (k : A -> result B) : result B :=
  match m with
  | Ok a => k a
  | Raise e => Raise e
  end.

Notation "x <- m ;; k" := (bind m (fun x => k))
  (at level 61, m at next level, right associativity).
Notation "' pat <- m ;; k" := (bind m (fun x => match x with pat => k end))
  (at level 61, pat pattern, m at next level, right associativity).

Definition or_raise {A : Type} (e : PyError) (o : option A) : result A :=
  match o with
  | Some a => Ok a
  | None => Raise e
  end.

Fixpoint mapM {A B : Type} (f : A -> result B) (l : list A) : result (list B) :=
  match l with
  | [] => Ok []
  | a :: r => b <- f a ;; bs <- mapM f r ;; Ok (b :: bs)
  end.

(** ** Rational helpers *)

Definition Qltb (x y : Q) : bool := negb (Qle_bool y x).
Definition Qzerob (x : Q) : bool := Qeq_bool x 0.

(** Python's [max(x, y)]: the first argument unless the second is larger. *)
Definition py_max (x y : Q) : Q := if Qltb x y then y else x.

Definition Qsum (l : list Q) : Q := fold_right Qplus 0%Q l.

(** ** Python dictionaries

    A dictionary is the list of its items in insertion order; where a key
    occurs twice the first binding is the dictionary's. *)

Section Dict.
Variables K V : Type.
Variable K_eq_dec : forall x y : K, {x = y} + {x <> y}.

Definition Dict : Type := list (K * V).

Fixpoint dict_get (k : K) (d : Dict) : option V :=
  match d with
  | [] => None
  | (k', v) :: r => if K_eq_dec k k' then Some v else dict_get k r
  end.

(** [d[k] = v]: overwrite in place, or append. *)
Fixpoint dict_set (k : K) (v : V) (d : Dict) : Dict :=
  match d with
  | [] => [(k, v)]
  | (k', v') :: r =>
      if K_eq_dec k k' then (k', v) :: r else (k', v') :: dict_set k v r
  end.

Definition remove_key (k : K) (l : list K) : list K :=
  filter (fun k' => if K_eq_dec k' k then false else true) l.

(** Every element once, in order of first occurrence. *)
Fixpoint dedup (l : list K) : list K :=
  match l with
  | [] => []
  | k :: r => k :: remove_key k (dedup r)
  end.

(** [for k in d]: every key once, in order of first insertion. *)
Definition dict_keys (d : Dict) : list K := dedup (map fst d).

(** [d.items()] *)
Definition dict_items (d : Dict) : list (K * V) :=
  flat_map (fun k => match dict_get k d with
                     | Some v => [(k, v)]
                     | None => []
                     end) (dict_keys d).

Definition mem (k : K) (l : list K) : bool :=
  if in_dec K_eq_dec k l then true else false.

End Dict.

Arguments dict_get {K V} K_eq_dec k d.
Arguments dict_set {K V} K_eq_dec k v d.
Arguments dict_keys {K V} K_eq_dec d.
Arguments dict_items {K V} K_eq_dec d.
Arguments dedup {K} K_eq_dec l.
Arguments mem {K} K_eq_dec k l.

Set Warnings "-notation-for-abbreviation".
Notation zget := (dict_get Z.eq_dec).
Notation zset := (dict_set Z.eq_dec).
Notation zkeys := (dict_keys Z.eq_dec).
Notation sget := (dict_get string_dec).
Notation sset := (dict_set string_dec).
Notation skeys := (dict_keys string_dec).

(** ** The city model (external collaborators, as the optimizer reads them) *)

(** Modelled from the spec: the enumeration [LandUse]
    ([blocksnet.models.land_use]) is declared outside the optimizer; its
    members are the land-use categories the indicator table below is keyed
    by. *)
Inductive LandUse : Type :=
| RESIDENTIAL
| BUSINESS
| RECREATION
| SPECIAL
| INDUSTRIAL
| AGRICULTURE
| TRANSPORT.

Definition LandUse_eqb (a b : LandUse) : bool :=
  match a, b with
  | RESIDENTIAL, RESIDENTIAL | BUSINESS, BUSINESS | RECREATION, RECREATION
  | SPECIAL, SPECIAL | INDUSTRIAL, INDUSTRIAL | AGRICULTURE, AGRICULTURE
  | TRANSPORT, TRANSPORT => true
  | _, _ => false
  end.

Record Indicator : Type := mkIndicator {
  FSI_min : Q;
  FSI_max : Q;
  site_coverage_min : Q;
  site_coverage_max : Q
}.

Definition LAND_USE_INDICATORS (lu : LandUse) : Indicator :=
  match lu with
  | RESIDENTIAL => mkIndicator (1#2) 3 (1#5) (4#5)
  | BUSINESS => mkIndicator 1 3 0 (4#5)
  | RECREATION => mkIndicator (1#20) (1#5) 0 (3#10)
  | SPECIAL => mkIndicator (1#20) (1#5) (1#20) (3#20)
  | INDUSTRIAL => mkIndicator (3#10) (3#2) (1#5) (4#5)
  | AGRICULTURE => mkIndicator (1#10) (1#5) 0 (3#5)
  | TRANSPORT => mkIndicator (1#5) 1 0 (4#5)
  end.

(** Modelled from the spec: a brick, declared outside the optimizer, is a
    discrete buildable unit of one service category with the capacity it
    provides and the area it consumes. *)
Module Brick.
Record t : Type := mk { capacity : Q; area : Q }.
End Brick.

(** Modelled from the spec: a service type, declared outside the optimizer,
    has a name, a demand rate per 1000 inhabitants ([demand]), an
    accessibility threshold, a method turning a population into a demand
    ([calculate_in_need]) and a catalog of bricks. *)
Module ServiceType.
Record t : Type := mk {
  name : string;
  demand : Q;
  accessibility : Q;
  calculate_in_need : Q -> Q;
  bricks : list Brick.t
}.
End ServiceType.

(** Modelled from the spec: an installed service instance, declared outside
    the optimizer, as its [to_dict()] shows it: a category and a capacity. *)
Module Service.
Record t : Type := mk { service_type : string; capacity : Q }.
End Service.

(** Modelled from the spec: a block, declared outside the optimizer, has a
    site area, a land-use category, a current population and the list of
    its installed service instances. *)
Module Block.
Record t : Type := mk {
  site_area : Q;
  land_use : LandUse;
  population : Q;
  all_services : list Service.t
}.
End Block.

(** Modelled from the spec: a row of the tabular view of all blocks,
    [city_model.get_blocks_gdf(False)], which is built outside the
    optimizer: the frame is indexed by block id (unique) and has a
    population column and a [capacity_<name>] column for every service
    type of the city. *)
Module GdfRow.
Record t : Type := mk {
  id : Z;
  population : Q;
  capacity : string -> Q
}.
End GdfRow.

(** Modelled from the spec: a row of the table the accessibility provider
    [Accessibility(...).calculate(block)] returns, keyed by block id with
    the two cost columns. *)
Module AccRow.
Record t : Type := mk {
  id : Z;
  accessibility_to : Q;
  accessibility_from : Q
}.
End AccRow.

(** Modelled from the spec: what the optimizer consumes of the city model
    and of the accessibility provider, both declared outside it: lookup of
    a block by id, the service types of a land use, the blocks table and
    the accessibility table of a block. *)
Record CityModel : Type := mkCityModel {
  blocks : Dict Z Block.t;
  get_land_use_service_types : LandUse -> list ServiceType.t;
  get_blocks_gdf : list GdfRow.t;
  accessibility_calculate : Z -> list AccRow.t
}.

(** ** The optimizer's state *)

Record Constants : Type := mkConstants {
  demand_local : Q;
  capacity_local : Q
}.

(** A row of a bricks frame ([get_bricks_df]); the frame's index is the
    position of the row. *)
Module BrickRow.
Record t : Type := mk { service_type : string; capacity : Q; area : Q }.
End BrickRow.

Record BlockOptimizer : Type := mkBlockOptimizer {
  city_model : CityModel;
  BLOCKS_LANUSE_DICT : Dict Z LandUse;
  ORIG_SERVICE_TYPES : Dict Z (list ServiceType.t);
  NEW_SERVICE_TYPES : Dict Z (list ServiceType.t);
  FREE_AREA : Dict Z Q;
  BRICKS : Dict Z (list BrickRow.t);
  CONSTANTS : Dict Z (Dict string Constants * Q);
  SCENARIO : Dict string Q;
  MAX_FACILITIES : option Z
}.

Definition calculate_free_area (self : BlockOptimizer) (selected_block_id : Z)
  : result Q :=
  selected_block <- or_raise KeyError (zget selected_block_id (blocks (city_model self))) ;;
  let land_use_coef := (8#10)%Q in
  Ok (Block.site_area selected_block * land_use_coef)%Q.

(** ** The demand/capacity estimator ([get_capacity_demand]) *)

(** [gdf.loc[i]] *)
Definition gdf_loc (gdf : list GdfRow.t) (i : Z) : option GdfRow.t :=
  find (fun r => Z.eqb (GdfRow.id r) i) gdf.

(** [gdf.loc[i, "population"] = v] *)
Definition gdf_set_population (gdf : list GdfRow.t) (i : Z) (v : Q)
  : list GdfRow.t :=
  map (fun r => if Z.eqb (GdfRow.id r) i
                then GdfRow.mk (GdfRow.id r) v (GdfRow.capacity r)
                else r) gdf.

(** The rows of the accessibility table within reach of [serv], and their
    [id] column. *)
Definition within_reach (serv : ServiceType.t) (r : AccRow.t) : bool :=
  Qle_bool (AccRow.accessibility_to r) (ServiceType.accessibility serv)
  || Qle_bool (AccRow.accessibility_from r) (ServiceType.accessibility serv).

Definition catchment_ids (acc_gdf : list AccRow.t) (serv : ServiceType.t)
  : list Z :=
  map AccRow.id (filter (within_reach serv) acc_gdf).

(** The loop state: the constants collected so far, the least margin seen
    ([None] is the initial [float("inf")]) and the service it belongs to. *)
Record EstimatorState : Type := mkEstimatorState {
  constants_acc : Dict string Constants;
  min_capacity_left : option Q;
  min_service : option ServiceType.t
}.

Definition capacity_left_of (gdf : list GdfRow.t) (own : GdfRow.t)
  (serv : ServiceType.t) : Q :=
  let demand_global :=
    Qsum (map (fun r => ServiceType.calculate_in_need serv (GdfRow.population r)) gdf) in
  let capacity_global :=
    (Qsum (map (fun r => GdfRow.capacity r (ServiceType.name serv)) gdf)
     - GdfRow.capacity own (ServiceType.name serv))%Q in
  (capacity_global - demand_global)%Q.

Definition estimator_step (gdf : list GdfRow.t) (selected_block_gdf : GdfRow.t)
  (acc_gdf : list AccRow.t) (st : EstimatorState) (serv : ServiceType.t)
  : result EstimatorState :=
  let idxs := catchment_ids acc_gdf serv in
  context_gdf <- mapM (fun i => or_raise KeyError (gdf_loc gdf i)) idxs ;;
  let demand_local :=
    Qsum (map (fun r => ServiceType.calculate_in_need serv (GdfRow.population r))
              context_gdf) in
  let capacity_local :=
    (Qsum (map (fun r => GdfRow.capacity r (ServiceType.name serv)) context_gdf)
     - GdfRow.capacity selected_block_gdf (ServiceType.name serv))%Q in
  let capacity_left := capacity_left_of gdf selected_block_gdf serv in
  let smaller :=
    match min_capacity_left st with
    | None => true
    | Some m => Qltb capacity_left m
    end in
  Ok (mkEstimatorState
        (sset (ServiceType.name serv) (mkConstants demand_local capacity_local)
              (constants_acc st))
        (if smaller then Some capacity_left else min_capacity_left st)
        (if smaller then Some serv else min_service st)).

Fixpoint estimator_loop (gdf : list GdfRow.t) (selected_block_gdf : GdfRow.t)
  (acc_gdf : list AccRow.t) (st : EstimatorState) (servs : list ServiceType.t)
  : result EstimatorState :=
  match servs with
  | [] => Ok st
  | serv :: rest =>
      st' <- estimator_step gdf selected_block_gdf acc_gdf st serv ;;
      estimator_loop gdf selected_block_gdf acc_gdf st' rest
  end.

Section Estimator.
(** The order in which Python enumerates
    [set(NEW_SERVICE_TYPES[b]) | set(ORIG_SERVICE_TYPES[b])]; it depends on
    hashes and is left open. *)
Variable set_union : list ServiceType.t -> list ServiceType.t -> list ServiceType.t.

Definition get_capacity_demand (self : BlockOptimizer) (selected_block_id : Z)
  : result (Dict string Constants * Q) :=
  let gdf := get_blocks_gdf (city_model self) in
  selected_block_gdf <- or_raise KeyError (gdf_loc gdf selected_block_id) ;;
  let gdf := gdf_set_population gdf selected_block_id 0 in
  _ <- or_raise KeyError (zget selected_block_id (blocks (city_model self))) ;;
  let acc_gdf := accessibility_calculate (city_model self) selected_block_id in
  new <- or_raise KeyError (zget selected_block_id (NEW_SERVICE_TYPES self)) ;;
  orig <- or_raise KeyError (zget selected_block_id (ORIG_SERVICE_TYPES self)) ;;
  st <- estimator_loop gdf selected_block_gdf acc_gdf
          (mkEstimatorState [] None None) (set_union new orig) ;;
  match min_capacity_left st, min_service st with
  | Some m, Some serv =>
      if Qzerob (ServiceType.demand serv) then Raise NonFinite
      else Ok (constants_acc st, py_max (m / ServiceType.demand serv * 1000) 0)
  | _, _ => Raise AttributeError
  end.
End Estimator.

(** ** The facility catalog adapter ([get_bricks_df]) *)

Definition get_bricks_df (service_types : list ServiceType.t) : list BrickRow.t :=
  flat_map (fun serv =>
              map (fun brick =>
                     BrickRow.mk (ServiceType.name serv)
                                 (Brick.capacity brick) (Brick.area brick))
                  (ServiceType.bricks serv))
           service_types.

(** ** Linear programs, as pulp builds them *)

(** The variables are [LpVariable.dicts(f"{key}", index, ...)], named
    [f"{key}_{idx}"], and [LpVariable(f"{key}_population", ...)]. *)
Inductive LpVar : Type :=
| BrickVar (key : Z) (idx : nat)
| PopulationVar (key : Z).

Definition LpVar_eq_dec (a b : LpVar) : {a = b} + {a <> b}.
Proof. decide equality; [apply Nat.eq_dec | apply Z.eq_dec | apply Z.eq_dec]. Defined.

Inductive LpCategory : Type := LpContinuous | LpInteger.

Record LpVariable : Type := mkLpVariable {
  lowBound : option Q;
  upBound : option Q;
  cat : LpCategory
}.

(** An affine expression: its monomials and its constant.  pulp keeps the
    monomials in a dictionary keyed by variable. *)
Record LpAffineExpression : Type := mkExpr {
  terms : list (LpVar * Q);
  constant : Q
}.

Definition expr_var (v : LpVar) : LpAffineExpression := mkExpr [(v, 1%Q)] 0.
Definition expr_const (c : Q) : LpAffineExpression := mkExpr [] c.

Definition expr_add (a b : LpAffineExpression) : LpAffineExpression :=
  mkExpr (terms a ++ terms b) (constant a + constant b).

Definition expr_sub (a b : LpAffineExpression) : LpAffineExpression :=
  mkExpr (terms a ++ map (fun t => (fst t, - snd t)%Q) (terms b))
         (constant a - constant b).

(** [e * q] and [q * e]: pulp returns the empty expression when [q] is 0. *)
Definition expr_scale (q : Q) (e : LpAffineExpression) : LpAffineExpression :=
  if Qzerob q then expr_const 0
  else mkExpr (map (fun t => (fst t, q * snd t)%Q) (terms e)) (q * constant e).

(** [e / q] for [q] not 0. *)
Definition expr_div (e : LpAffineExpression) (q : Q) : LpAffineExpression :=
  mkExpr (map (fun t => (fst t, snd t / q)%Q) (terms e)) (constant e / q).

(** [lpSum(l)], and Python's [sum(l)] of a non-empty [l]. *)
Definition lpSum (l : list LpAffineExpression) : LpAffineExpression :=
  fold_left expr_add l (expr_const 0).

Definition assignment : Type := LpVar -> Q.

Definition value (x : assignment) (e : LpAffineExpression) : Q :=
  (Qsum (map (fun t => snd t * x (fst t)) (terms e)) + constant e)%Q.

Inductive LpSense : Type := LpConstraintLE | LpConstraintGE.

(** pulp numbers the constraints [_C1], [_C2], ...; here each carries the
    statement of [generate_lp_problem] that added it and the block and
    service it was added for. *)
Inductive ConstraintName : Type :=
| GapConstraint (key : Z) (serv : string)
| SlackConstraint (key : Z) (serv : string)
| FsiMaxConstraint (key : Z)
| FsiMinConstraint (key : Z)
| SiteAreaConstraint (key : Z).

Record LpConstraint : Type := mkLpConstraint {
  cname : ConstraintName;
  lhs : LpAffineExpression;
  sense : LpSense;
  rhs : Q
}.

Record LpProblem : Type := mkLpProblem {
  objective : LpAffineExpression;
  constraints : list LpConstraint;
  variables : list (LpVar * LpVariable)
}.

Definition satisfies (x : assignment) (c : LpConstraint) : Prop :=
  match sense c with
  | LpConstraintLE => (value x (lhs c) <= rhs c)%Q
  | LpConstraintGE => (rhs c <= value x (lhs c))%Q
  end.

Definition is_integer (q : Q) : Prop := exists z : Z, (q == inject_Z z)%Q.

Definition within_bounds (x : assignment) (d : LpVar * LpVariable) : Prop :=
  (forall l, lowBound (snd d) = Some l -> (l <= x (fst d))%Q)
  /\ (forall u, upBound (snd d) = Some u -> (x (fst d) <= u)%Q)
  /\ (cat (snd d) = LpInteger -> is_integer (x (fst d))).

(** What an assignment the engine reports as a solution satisfies. *)
Definition feasible (prob : LpProblem) (x : assignment) : Prop :=
  Forall (satisfies x) (constraints prob)
  /\ Forall (within_bounds x) (variables prob).

(** ** The constraint model builder ([generate_lp_problem]) *)

Definition indexed {A : Type} (l : list A) : list (nat * A) :=
  combine (seq 0 (List.length l)) l.

Definition scenario_coef_sum (self : BlockOptimizer) (new : list ServiceType.t) : Q :=
  if Nat.eqb (List.length (SCENARIO self)) 0 then 0%Q
  else
    let servs := map ServiceType.name new in
    let intersecting_keys :=
      filter (fun k => existsb (String.eqb k) servs) (skeys (SCENARIO self)) in
    Qsum (map (fun k => match sget k (SCENARIO self) with
                        | Some w => w
                        | None => 0%Q
                        end) intersecting_keys).

Definition fit_function_of (key : Z) (bricks_df : list BrickRow.t) (serv : string)
  : LpAffineExpression :=
  let service_bricks_idxs :=
    filter (fun ib => String.eqb (BrickRow.service_type (snd ib)) serv)
           (indexed bricks_df) in
  lpSum (map (fun ib => expr_scale (BrickRow.capacity (snd ib))
                                   (expr_var (BrickVar key (fst ib))))
             service_bricks_idxs).

Definition demand_from_new_population_of (key : Z) (serv : ServiceType.t)
  : LpAffineExpression :=
  expr_div (expr_scale (ServiceType.demand serv) (expr_var (PopulationVar key))) 1000.

(** What one pass of the inner loop adds: objective components and
    constraints. *)
Definition service_section (self : BlockOptimizer) (key : Z) (lu : LandUse)
  (bricks_df : list BrickRow.t) (constants : Dict string Constants)
  (default_weight : Q) (serv : ServiceType.t)
  : result (list LpAffineExpression * list LpConstraint) :=
  (* [bricks_df.service_type]: a frame built from no rows has no columns *)
  _ <- (match bricks_df with [] => Raise AttributeError | _ => Ok tt end) ;;
  c <- or_raise KeyError (sget (ServiceType.name serv) constants) ;;
  let demand_local := demand_local c in
  let capacity_local := capacity_local c in
  let fit_function := fit_function_of key bricks_df (ServiceType.name serv) in
  let demand_from_new_population := demand_from_new_population_of key serv in
  let C_i := expr_add fit_function (expr_const capacity_local) in
  let D_i := expr_add (expr_const demand_local) demand_from_new_population in
  let service_weight :=
    match sget (ServiceType.name serv) (SCENARIO self) with
    | Some w => w
    | None => default_weight
    end in
  let deficit := Qltb 0 demand_local && Qltb capacity_local demand_local in
  let surplus := Qltb demand_local capacity_local && LandUse_eqb lu RESIDENTIAL in
  Ok ((if deficit then [expr_scale service_weight (expr_sub C_i D_i)] else []),
      (if deficit
       then [mkLpConstraint (GapConstraint key (ServiceType.name serv))
               fit_function LpConstraintLE (demand_local - capacity_local)]
       else [])
      ++ (if surplus
          then [mkLpConstraint (SlackConstraint key (ServiceType.name serv))
                  demand_from_new_population LpConstraintLE
                  (capacity_local - demand_local)]
          else [])).

Record BlockSection : Type := mkBlockSection {
  sec_components : list LpAffineExpression;
  sec_constraints : list LpConstraint;
  sec_variables : list (LpVar * LpVariable)
}.

Definition built_area_expr (key : Z) (bricks_df : list BrickRow.t)
  : LpAffineExpression :=
  lpSum (map (fun ib => expr_scale (BrickRow.area (snd ib))
                                   (expr_var (BrickVar key (fst ib))))
             (indexed bricks_df)).

Definition fsi_expr (key : Z) (bricks_df : list BrickRow.t) (block_area : Q)
  : LpAffineExpression :=
  lpSum (map (fun ib => expr_div (expr_scale (BrickRow.area (snd ib))
                                             (expr_var (BrickVar key (fst ib))))
                                 block_area)
             (indexed bricks_df)).

(** One pass of the outer loop, lines 159 to 207. *)
Definition block_section (self : BlockOptimizer) (key : Z) : result BlockSection :=
  lu <- or_raise KeyError (zget key (BLOCKS_LANUSE_DICT self)) ;;
  new <- or_raise KeyError (zget key (NEW_SERVICE_TYPES self)) ;;
  let scenario_coef_sum := scenario_coef_sum self new in
  _ <- (match new with [] => Raise ZeroDivisionError | _ => Ok tt end) ;;
  let default_weight := ((1 - scenario_coef_sum) / inject_Z (Z.of_nat (List.length new)))%Q in
  bricks_df <- or_raise KeyError (zget key (BRICKS self)) ;;
  cm <- or_raise KeyError (zget key (CONSTANTS self)) ;;
  let constants := fst cm in
  let service_counts :=
    map (fun ib => (BrickVar key (fst ib),
                    mkLpVariable (Some 0%Q) (option_map inject_Z (MAX_FACILITIES self))
                                 LpInteger))
        (indexed bricks_df) in
  let population := (PopulationVar key, mkLpVariable (Some 0%Q) None LpInteger) in
  per_serv <- mapM (service_section self key lu bricks_df constants default_weight) new ;;
  block <- or_raise KeyError (zget key (blocks (city_model self))) ;;
  let block_area := Block.site_area block in
  let indicators := LAND_USE_INDICATORS lu in
  (* the frame is not empty here: the division below is evaluated *)
  _ <- (if Qzerob block_area then Raise NonFinite else Ok tt) ;;
  Ok (mkBlockSection
        (flat_map fst per_serv)
        (flat_map snd per_serv
         ++ [mkLpConstraint (FsiMaxConstraint key) (fsi_expr key bricks_df block_area)
               LpConstraintLE (FSI_max indicators);
             mkLpConstraint (FsiMinConstraint key) (fsi_expr key bricks_df block_area)
               LpConstraintGE (FSI_min indicators);
             mkLpConstraint (SiteAreaConstraint key) (built_area_expr key bricks_df)
               LpConstraintLE block_area])
        (service_counts ++ [population])).

Definition generate_lp_problem (self : BlockOptimizer) : result LpProblem :=
  secs <- mapM (block_section self) (zkeys (BLOCKS_LANUSE_DICT self)) ;;
  let lp_sum_components := flat_map sec_components secs in
  Ok (mkLpProblem (lpSum lp_sum_components)
                  (flat_map sec_constraints secs)
                  (flat_map sec_variables secs)).

(** ** Update tables (pandas frames of deltas)

    A frame is its row labels, its column labels and its cells that are not
    NaN.  The order of the labels is kept as the operations below produce it,
    but nothing is claimed about it: frames are compared with [same_frame]. *)

Record DataFrame : Type := mkDataFrame {
  df_index : list Z;
  df_columns : list string;
  df_cells : Dict (Z * string) Q
}.

Definition cell_eq_dec (a b : Z * string) : {a = b} + {a <> b}.
Proof. decide equality; [apply string_dec | apply Z.eq_dec]. Defined.

Arguments cell_eq_dec : simpl never.

(** [df.at[r, c]], [None] standing for NaN or an absent label. *)
Definition df_at (df : DataFrame) (r : Z) (c : string) : option Q :=
  if mem Z.eq_dec r (df_index df) && mem string_dec c (df_columns df)
  then dict_get cell_eq_dec (r, c) (df_cells df)
  else None.

Definition same_frame (a b : DataFrame) : Prop :=
  (forall r, In r (df_index a) <-> In r (df_index b))
  /\ (forall c, In c (df_columns a) <-> In c (df_columns b))
  /\ (forall r c, df_at a r c = df_at b r c).

(** [pd.DataFrame.from_dict(update, orient="index")] of a dictionary of
    dictionaries: a row whose dictionary is empty leaves no trace. *)
Definition from_dict_index (update : Dict Z (Dict string Q)) : DataFrame :=
  let rows := dict_items Z.eq_dec update in
  mkDataFrame
    (map fst (filter (fun row => match snd row with [] => false | _ => true end) rows))
    (dedup string_dec (flat_map (fun row => skeys (snd row)) rows))
    (flat_map (fun row => map (fun cv => ((fst row, fst cv), snd cv))
                              (dict_items string_dec (snd row))) rows).

(** The cells of a frame given by a function of the labels. *)
Definition table_cells (f : Z -> string -> option Q) (index : list Z)
  (columns : list string) : Dict (Z * string) Q :=
  flat_map (fun r => flat_map (fun c => match f r c with
                                        | Some v => [((r, c), v)]
                                        | None => []
                                        end) columns) index.

(** [df.fillna(0)] *)
Definition fillna0 (df : DataFrame) : DataFrame :=
  mkDataFrame (df_index df) (df_columns df)
    (table_cells (fun r c => Some (match df_at df r c with
                                   | Some v => v
                                   | None => 0%Q
                                   end))
                 (df_index df) (df_columns df)).

(** [a.combine_first(b)]: the labels of both, a cell of [a] where it is not
    NaN and the cell of [b] otherwise. *)
Definition combine_first (a b : DataFrame) : DataFrame :=
  let index := df_index a ++ filter (fun r => negb (mem Z.eq_dec r (df_index a))) (df_index b) in
  let columns :=
    df_columns a ++ filter (fun c => negb (mem string_dec c (df_columns a))) (df_columns b) in
  mkDataFrame index columns
    (table_cells (fun r c => match df_at a r c with
                             | Some v => Some v
                             | None => df_at b r c
                             end) index columns).

(** [pd.concat(dfs, ignore_index=True)] *)
Definition concat_ignore_index (dfs : list DataFrame) : result DataFrame :=
  match dfs with
  | [] => Raise ValueError
  | _ =>
      let rows := flat_map (fun df => map (fun r => (df, r)) (df_index df)) dfs in
      let numbered := combine (map Z.of_nat (seq 0 (List.length rows))) rows in
      let columns := dedup string_dec (flat_map df_columns dfs) in
      Ok (mkDataFrame (map fst numbered) columns
            (flat_map (fun ir =>
               flat_map (fun c => match df_at (fst (snd ir)) (snd (snd ir)) c with
                                  | Some v => [((fst ir, c), v)]
                                  | None => []
                                  end) columns) numbered))
  end.

(** ** The demolition delta builder ([get_deleting_update_df]) *)

Definition deleting_service_capacities (selected_block : Block.t)
  (delete_population : bool) : Dict string Q :=
  let service_capacities :=
    fold_left (fun d serv => sset (Service.service_type serv) (- Service.capacity serv)%Q d)
              (Block.all_services selected_block) [] in
  if delete_population
  then sset "population"%string (- Block.population selected_block)%Q service_capacities
  else service_capacities.

Definition get_deleting_update_df (self : BlockOptimizer) (selected_block_id : Z)
  (delete_population : bool) : result DataFrame :=
  selected_block <- or_raise KeyError (zget selected_block_id (blocks (city_model self))) ;;
  let service_capacities := deleting_service_capacities selected_block delete_population in
  let update := [(selected_block_id, service_capacities)] in
  Ok (from_dict_index update).

(** The merge of [get_provision_diff], lines 357 to 359; the provision engine
    that consumes it is external. *)
Definition get_provision_diff_update_df (self : BlockOptimizer) (SELECTED_BLOCK : Z)
  (optimal_update_df : DataFrame) : result DataFrame :=
  deleting_update_df <- get_deleting_update_df self SELECTED_BLOCK true ;;
  Ok (combine_first optimal_update_df deleting_update_df).

(** ** The solution decoder ([get_optimal_update_df]) *)

(** [var.value()] after the solve; [None] is Python's [None]. *)
Definition solution : Type := LpVar -> option Q.

(** [prob.variables()]: the variables of the objective and of the
    constraints, as the builder put them there.  pulp sorts them by name;
    the decoder does not depend on the order. *)
Definition prob_variables (prob : LpProblem) : list LpVar :=
  dedup LpVar_eq_dec
    (map fst (terms (objective prob))
     ++ flat_map (fun c => map fst (terms (lhs c))) (constraints prob)).

(** [e.value()]: [None] as soon as a variable has no value. *)
Fixpoint terms_value (sol : solution) (s : Q) (ts : list (LpVar * Q)) : option Q :=
  match ts with
  | [] => Some s
  | (v, x) :: rest =>
      match sol v with
      | None => None
      | Some varValue => terms_value sol (s + varValue * x)%Q rest
      end
  end.

Definition expr_value (sol : solution) (e : LpAffineExpression) : option Q :=
  terms_value sol (constant e) (terms e).

Fixpoint list_set {A : Type} (i : nat) (a : A) (l : list A) : option (list A) :=
  match l, i with
  | [], _ => None
  | _ :: r, O => Some (a :: r)
  | b :: r, S j => option_map (cons b) (list_set j a r)
  end.

Record DecoderState : Type := mkDecoderState {
  counts : Dict Z (list Q);
  populations : Dict Z (option Q)
}.

(** One pass of the loop over the variables, lines 116 to 128. *)
Definition decode_variable (sol : solution) (st : DecoderState) (var : LpVar)
  : result DecoderState :=
  let service_count := sol var in
  match var with
  | PopulationVar block_idx =>
      Ok (mkDecoderState (counts st) (zset block_idx service_count (populations st)))
  | BrickVar block_idx idx =>
      row <- or_raise KeyError (zget block_idx (counts st)) ;;
      v <- or_raise TypeError service_count ;;
      row' <- or_raise KeyError (list_set idx v row) ;;
      Ok (mkDecoderState (zset block_idx row' (counts st)) (populations st))
  end.

Fixpoint decode_variables (sol : solution) (st : DecoderState) (vars : list LpVar)
  : result DecoderState :=
  match vars with
  | [] => Ok st
  | var :: rest => st' <- decode_variable sol st var ;; decode_variables sol st' rest
  end.

(** A row of the itemized breakdown [bricks_to_build_df[key]]. *)
Record BuildRow : Type := mkBuildRow {
  build_idx : nat;
  build_brick : BrickRow.t;
  service_counts : Q;
  demand_in_need : Q
}.

(** [groupby("service_type").sum()["capacity_agg"].to_dict()] over the rows
    to build, [capacity_agg] being capacity times solved count. *)
Definition sum_capacity_agg (rows : list (nat * (BrickRow.t * Q))) : Dict string Q :=
  fold_left (fun d r =>
               let name := BrickRow.service_type (fst (snd r)) in
               let agg := (BrickRow.capacity (fst (snd r)) * snd (snd r))%Q in
               sset name (match sget name d with
                          | Some s => (s + agg)%Q
                          | None => agg
                          end) d)
            rows [].

(** One pass of the loop over the blocks, lines 133 to 148. *)
Definition decode_block (self : BlockOptimizer) (vars : list LpVar)
  (st : DecoderState) (key : Z) : result (Dict string Q * list BuildRow) :=
  count <- or_raise KeyError (zget key (counts st)) ;;
  bricks_df <- or_raise KeyError (zget key (BRICKS self)) ;;
  let bricks_to_build :=
    filter (fun r => negb (Qzerob (snd (snd r)))) (indexed (combine bricks_df count)) in
  cm <- or_raise KeyError (zget key (CONSTANTS self)) ;;
  rows <- mapM (fun r =>
                  c <- or_raise KeyError
                         (sget (BrickRow.service_type (fst (snd r))) (fst cm)) ;;
                  Ok (mkBuildRow (fst r) (fst (snd r)) (snd (snd r))
                                 (demand_local c - capacity_local c)))
               bricks_to_build ;;
  (* the column [capacity_agg] exists once a brick variable of the block was read *)
  _ <- (if existsb (fun var => match var with
                               | BrickVar b _ => Z.eqb b key
                               | PopulationVar _ => false
                               end) vars
        then Ok tt else Raise KeyError) ;;
  let service_capacities := sum_capacity_agg bricks_to_build in
  population <- match zget key (populations st) with
                | None => Ok 0%Q
                | Some p => or_raise TypeError p
                end ;;
  Ok (if Qltb 0 population
      then sset "population"%string population service_capacities
      else service_capacities,
      rows).

Fixpoint decode_blocks (self : BlockOptimizer) (vars : list LpVar) (st : DecoderState)
  (keys : list Z) : result (Dict Z (Dict string Q) * Dict Z (list BuildRow)) :=
  match keys with
  | [] => Ok ([], [])
  | key :: rest =>
      ub <- decode_block self vars st key ;;
      r <- decode_blocks self vars st rest ;;
      Ok ((key, fst ub) :: fst r, (key, snd ub) :: snd r)
  end.

Definition get_optimal_update_df (self : BlockOptimizer) (prob : LpProblem)
  (sol : solution) : result (DataFrame * Dict Z (list BuildRow) * option Q) :=
  let vars := prob_variables prob in
  let counts0 := map (fun kv => (fst kv, map (fun _ => 0%Q) (snd kv)))
                     (dict_items Z.eq_dec (BRICKS self)) in
  st <- decode_variables sol (mkDecoderState counts0 []) vars ;;
  ub <- decode_blocks self vars st (zkeys (BLOCKS_LANUSE_DICT self)) ;;
  let update_df := from_dict_index (fst ub) in
  Ok (update_df, snd ub, expr_value sol (objective prob)).

(** ** The pipeline ([calculate]) *)

(** [LpStatus], the engine's verdict, and the strings pulp prints for it. *)
Inductive LpStatusCode : Type :=
| LpStatusNotSolved
| LpStatusOptimal
| LpStatusInfeasible
| LpStatusUnbounded
| LpStatusUndefined.

Definition LpStatus (s : LpStatusCode) : string :=
  match s with
  | LpStatusNotSolved => "Not Solved"
  | LpStatusOptimal => "Optimal"
  | LpStatusInfeasible => "Infeasible"
  | LpStatusUnbounded => "Unbounded"
  | LpStatusUndefined => "Undefined"
  end.

(** What [calculate] does that an observer sees: what it prints and which
    stage of the pipeline it enters. *)
Inductive Stage : Type :=
| StageBuild
| StageSolve
| StageDecode
| StageDemolition.

Inductive Event : Type :=
| Printed (s : string)
| Entered (stage : Stage).

(** Outcomes together with the events so far. *)
Definition traced (A : Type) : Type := (list Event * result A)%type.

Definition tbind {A B : Type} (m : traced A) (k : A -> traced B) : traced B :=
  match m with
  | (l, Ok a) => let (l', r) := k a in (l ++ l', r)
  | (l, Raise e) => (l, Raise e)
  end.

Definition lift {A : Type} (r : result A) : traced A := ([], r).
Definition emit (e : Event) : traced unit := ([e], Ok tt).

Notation "x <~ m ;; k" := (tbind m (fun x => k))
  (at level 61, m at next level, right associativity).

Record Bundle : Type := mkBundle {
  optimal_update_df : DataFrame;
  bricks_to_build_df : Dict Z (list BuildRow);
  deleting_df : DataFrame;
  provision : option Q
}.

Section Calculate.
Variable set_union : list ServiceType.t -> list ServiceType.t -> list ServiceType.t.
(** [prob.solve(PULP_CBC_CMD(msg=False))]: the engine is opaque. *)
Variable solve : LpProblem -> LpStatusCode * solution.

(** One pass of the preparation loop, lines 378 to 385. *)
Definition prepare_block (self : BlockOptimizer) (key : Z) : result BlockOptimizer :=
  block <- or_raise KeyError (zget key (blocks (city_model self))) ;;
  lu <- or_raise KeyError (zget key (BLOCKS_LANUSE_DICT self)) ;;
  let orig_landuse := Block.land_use block in
  let orig_service_types := get_land_use_service_types (city_model self) orig_landuse in
  let new_service_types := get_land_use_service_types (city_model self) lu in
  let self1 :=
    mkBlockOptimizer (city_model self) (BLOCKS_LANUSE_DICT self)
      (zset key orig_service_types (ORIG_SERVICE_TYPES self))
      (zset key new_service_types (NEW_SERVICE_TYPES self))
      (FREE_AREA self) (BRICKS self) (CONSTANTS self) (SCENARIO self)
      (MAX_FACILITIES self) in
  free_area <- calculate_free_area self1 key ;;
  cd <- get_capacity_demand set_union self1 key ;;
  Ok (mkBlockOptimizer (city_model self1) (BLOCKS_LANUSE_DICT self1)
        (ORIG_SERVICE_TYPES self1) (NEW_SERVICE_TYPES self1)
        (zset key free_area (FREE_AREA self1))
        (zset key (get_bricks_df new_service_types) (BRICKS self1))
        (zset key cd (CONSTANTS self1)) (SCENARIO self1) (MAX_FACILITIES self1)).

Fixpoint prepare_blocks (self : BlockOptimizer) (keys : list Z) : result BlockOptimizer :=
  match keys with
  | [] => Ok self
  | key :: rest => self' <- prepare_block self key ;; prepare_blocks self' rest
  end.

Definition prepare (city : CityModel) (blocks_landuse_dict : Dict Z LandUse)
  (scenario : Dict string Q) (max_facilities : option Z) : result BlockOptimizer :=
  prepare_blocks
    (mkBlockOptimizer city blocks_landuse_dict [] [] [] [] [] scenario max_facilities)
    (zkeys blocks_landuse_dict).

Definition calculate (city : CityModel) (blocks_landuse_dict : Dict Z LandUse)
  (scenario : Dict string Q) (max_facilities : option Z) : traced Bundle :=
  self <~ lift (prepare city blocks_landuse_dict scenario max_facilities) ;;
  _ <~ emit (Entered StageBuild) ;;
  prob <~ lift (generate_lp_problem self) ;;
  _ <~ emit (Entered StageSolve) ;;
  let (status, sol) := solve prob in
  _ <~ emit (Printed (LpStatus status)) ;;
  _ <~ emit (Entered StageDecode) ;;
  decoded <~ lift (get_optimal_update_df self prob sol) ;;
  _ <~ emit (Entered StageDemolition) ;;
  dfs <~ lift (mapM (fun key => get_deleting_update_df self key true)
                    (zkeys (BLOCKS_LANUSE_DICT self))) ;;
  combined_df <~ lift (concat_ignore_index dfs) ;;
  (nil, Ok (mkBundle (fillna0 (fst (fst decoded))) (snd (fst decoded))
                     (fillna0 combined_df) (snd decoded))).
End Calculate.

(** * Specifications

    The notions the properties below are stated with. *)

(** ** The estimator *)

Module EstimatorSpec.

(** The blocks within reach of the selected block for a service type:
    the cost to the block or the cost from it is at most the threshold. *)
Definition in_catchment (acc_gdf : list AccRow.t) (serv : ServiceType.t) (i : Z) : Prop :=
  exists row, In row acc_gdf /\ AccRow.id row = i
              /\ ((AccRow.accessibility_to row <= ServiceType.accessibility serv)%Q
                  \/ (AccRow.accessibility_from row <= ServiceType.accessibility serv)%Q).

(** The population of a row, the selected block's own counting as zero. *)
Definition population_without (selected_block_id : Z) (r : GdfRow.t) : Q :=
  if Z.eqb (GdfRow.id r) selected_block_id then 0%Q else GdfRow.population r.

Definition demand_over (selected_block_id : Z) (serv : ServiceType.t)
  (rows : list GdfRow.t) : Q :=
  Qsum (map (fun r => ServiceType.calculate_in_need serv
                        (population_without selected_block_id r)) rows).

Definition capacity_over (serv : ServiceType.t) (rows : list GdfRow.t) : Q :=
  Qsum (map (fun r => GdfRow.capacity r (ServiceType.name serv)) rows).

(** Global capacity without the selected block's own, minus global demand. *)
Definition global_margin (gdf : list GdfRow.t) (selected_block_id : Z)
  (own : GdfRow.t) (serv : ServiceType.t) : Q :=
  ((capacity_over serv gdf - GdfRow.capacity own (ServiceType.name serv))
   - demand_over selected_block_id serv gdf)%Q.

End EstimatorSpec.

Import EstimatorSpec.

Definition zero_population (i : Z) (r : GdfRow.t) : GdfRow.t :=
  if Z.eqb (GdfRow.id r) i then GdfRow.mk (GdfRow.id r) 0 (GdfRow.capacity r) else r.

(** What the estimator records for a service type, in the words of its
    contract: sums over the rows of the catchment. *)
Definition local_constants (gdf : list GdfRow.t) (selected_block_id : Z) (own : GdfRow.t)
  (catchment : list Z) (serv : ServiceType.t) (c : Constants) : Prop :=
  exists rows,
    Forall2 (fun i r => gdf_loc gdf i = Some r) catchment rows
    /\ demand_local c = demand_over selected_block_id serv rows
    /\ capacity_local c
       = (capacity_over serv rows - GdfRow.capacity own (ServiceType.name serv))%Q.


(** ** The constraint model *)

(** What [generate_lp_problem] reads for one block. *)
Record BlockInputs : Type := mkBlockInputs {
  in_lu : LandUse;
  in_new : list ServiceType.t;
  in_bricks : list BrickRow.t;
  in_constants : Dict string Constants * Q;
  in_block : Block.t
}.

Definition default_weight_of (self : BlockOptimizer) (new : list ServiceType.t) : Q :=
  ((1 - scenario_coef_sum self new) / inject_Z (Z.of_nat (List.length new)))%Q.


(** Total built area, built capacity of a service type and demand added by
    new population, under an assignment. *)
Definition built_area (x : assignment) (key : Z) (bricks_df : list BrickRow.t) : Q :=
  Qsum (map (fun ib => BrickRow.area (snd ib) * x (BrickVar key (fst ib)))%Q
            (indexed bricks_df)).

Definition built_capacity (x : assignment) (key : Z) (bricks_df : list BrickRow.t)
  (serv : string) : Q :=
  Qsum (map (fun ib => BrickRow.capacity (snd ib) * x (BrickVar key (fst ib)))%Q
            (filter (fun ib => String.eqb (BrickRow.service_type (snd ib)) serv)
                    (indexed bricks_df))).

Definition added_demand (x : assignment) (key : Z) (serv : ServiceType.t) : Q :=
  (x (PopulationVar key) * ServiceType.demand serv / 1000)%Q.

(** The two conditional constraints of a block and a service type, [c]
    being the constants recorded for the service type. *)
Definition gap_constraint (key : Z) (bricks_df : list BrickRow.t) (serv : string)
  (c : Constants) : LpConstraint :=
  mkLpConstraint (GapConstraint key serv) (fit_function_of key bricks_df serv)
                 LpConstraintLE (demand_local c - capacity_local c).

Definition slack_constraint (key : Z) (serv : ServiceType.t) (c : Constants)
  : LpConstraint :=
  mkLpConstraint (SlackConstraint key (ServiceType.name serv))
                 (demand_from_new_population_of key serv)
                 LpConstraintLE (capacity_local c - demand_local c).

Definition in_deficit (c : Constants) : Prop :=
  (0 < demand_local c)%Q /\ (capacity_local c < demand_local c)%Q.

Definition in_surplus (c : Constants) : Prop :=
  (demand_local c < capacity_local c)%Q.

Definition in_deficitb (c : Constants) : bool :=
  Qltb 0 (demand_local c) && Qltb (capacity_local c) (demand_local c).

(** The block a constraint was added for. *)
Definition cname_key (n : ConstraintName) : Z :=
  match n with
  | GapConstraint key _ | SlackConstraint key _
  | FsiMaxConstraint key | FsiMinConstraint key | SiteAreaConstraint key => key
  end.

(** [mentions v e]: [e] has a monomial of the variable [v]. *)
Definition mentions (v : LpVar) (e : LpAffineExpression) : Prop :=
  In v (map fst (terms e)).

(** The optimizer with the population ceilings of its constants replaced. *)
Definition with_ceilings (f : Z -> Q) (self : BlockOptimizer) : BlockOptimizer :=
  mkBlockOptimizer (city_model self) (BLOCKS_LANUSE_DICT self)
    (ORIG_SERVICE_TYPES self) (NEW_SERVICE_TYPES self) (FREE_AREA self) (BRICKS self)
    (map (fun kv => (fst kv, (fst (snd kv), f (fst kv)))) (CONSTANTS self))
    (SCENARIO self) (MAX_FACILITIES self).

(** ** The objective *)

Definition service_weight_of (self : BlockOptimizer) (new : list ServiceType.t)
  (serv : ServiceType.t) : Q :=
  match sget (ServiceType.name serv) (SCENARIO self) with
  | Some w => w
  | None => default_weight_of self new
  end.

(** The block-category pairs of the program: every block of the land-use
    assignment with every one of its candidate service types. *)
Definition candidate_pairs (self : BlockOptimizer) : list (Z * ServiceType.t) :=
  flat_map (fun key => match zget key (NEW_SERVICE_TYPES self) with
                       | Some new => map (pair key) new
                       | None => []
                       end)
           (zkeys (BLOCKS_LANUSE_DICT self)).

(** weight * (C - D) for a pair, with C = built capacity + local capacity
    and D = local demand + added demand. *)
Definition pair_term (self : BlockOptimizer) (x : assignment) (p : Z * ServiceType.t) : Q :=
  match zget (fst p) (NEW_SERVICE_TYPES self), zget (fst p) (BRICKS self),
        zget (fst p) (CONSTANTS self) with
  | Some new, Some bricks_df, Some cm =>
      match sget (ServiceType.name (snd p)) (fst cm) with
      | Some c =>
          (service_weight_of self new (snd p)
           * ((built_capacity x (fst p) bricks_df (ServiceType.name (snd p))
               + capacity_local c)
              - (demand_local c + added_demand x (fst p) (snd p))))%Q
      | None => 0%Q
      end
  | _, _, _ => 0%Q
  end.

Definition pair_in_deficit (self : BlockOptimizer) (p : Z * ServiceType.t) : bool :=
  match zget (fst p) (CONSTANTS self) with
  | Some cm => match sget (ServiceType.name (snd p)) (fst cm) with
               | Some c => in_deficitb c
               | None => false
               end
  | None => false
  end.

(** The sum over all pairs, and the sum over the pairs in deficit. *)
Definition objective_over_all (self : BlockOptimizer) (x : assignment) : Q :=
  Qsum (map (pair_term self x) (candidate_pairs self)).

Definition objective_over_deficit (self : BlockOptimizer) (x : assignment) : Q :=
  Qsum (map (pair_term self x) (filter (pair_in_deficit self) (candidate_pairs self))).

(** The conditions of a block under which its section is built. *)
Definition block_ready (self : BlockOptimizer) (key : Z) : Prop :=
  exists new bricks_df cm block,
    zget key (NEW_SERVICE_TYPES self) = Some new /\ new <> []
    /\ zget key (BRICKS self) = Some bricks_df /\ bricks_df <> []
    /\ zget key (CONSTANTS self) = Some cm
    /\ (forall serv, In serv new -> sget (ServiceType.name serv) (fst cm) <> None)
    /\ zget key (blocks (city_model self)) = Some block
    /\ ~ (Block.site_area block == 0)%Q.


(** ** Update tables *)

(** A cell read as a delta: NaN and absent cells are 0. *)
Definition delta_at (df : DataFrame) (r : Z) (c : string) : Q :=
  match df_at df r c with
  | Some v => v
  | None => 0%Q
  end.

(** The last installed service of a type. *)
Definition last_service (services : list Service.t) (name : string) : option Service.t :=
  find (fun s => String.eqb (Service.service_type s) name) (rev services).

(** ** A small city, for evaluating the model

    Block 1 is a recreation block without installed services, block 2 a
    residential block with two schools, block 4 an empty recreation block
    and block 5 a business block with one service of type A and one of
    type B; the blocks table and the accessibility table list blocks 1 to
    3.  Schools and kindergartens go with residential land, parks with
    recreation, offices (for which no brick is configured) with business,
    offices and parks with industry. *)
Module Example.

Definition in_need (rate : Q) (population : Q) : Q :=
  inject_Z (Qceiling (population / 1000 * rate)).

Definition school : ServiceType.t :=
  ServiceType.mk "school" 120 15 (in_need 120) [Brick.mk 50 500; Brick.mk 100 800].
Definition kindergarten : ServiceType.t :=
  ServiceType.mk "kindergarten" 60 5 (in_need 60) [Brick.mk 30 400].
Definition park : ServiceType.t :=
  ServiceType.mk "park" 10 30 (in_need 10) [Brick.mk 20 1000].
Definition office : ServiceType.t :=
  ServiceType.mk "office" 5 20 (in_need 5) [].

Definition service_types (lu : LandUse) : list ServiceType.t :=
  match lu with
  | RESIDENTIAL => [school; kindergarten]
  | RECREATION => [park]
  | BUSINESS => [office]
  | INDUSTRIAL => [office; park]
  | _ => []
  end.

Definition capacities (school_cap park_cap : Q) (n : string) : Q :=
  if String.eqb n "school" then school_cap
  else if String.eqb n "park" then park_cap
  else 0.

Definition city : CityModel :=
  mkCityModel
    [(1%Z, Block.mk 10000 RECREATION 100 []);
     (2%Z, Block.mk 2000 RESIDENTIAL 1000
                    [Service.mk "school" 10; Service.mk "school" 5]);
     (3%Z, Block.mk 5000 RESIDENTIAL 5000 [Service.mk "school" 100]);
     (4%Z, Block.mk 3000 RECREATION 0 []);
   (5%Z, Block.mk 1000 BUSINESS 100 [Service.mk "A" 10; Service.mk "B" 5])]
    service_types
    [GdfRow.mk 1 100 (capacities 0 0);
     GdfRow.mk 2 1000 (capacities 15 0);
     GdfRow.mk 3 5000 (capacities 100 40)]
    (fun _ => [AccRow.mk 1 0 0; AccRow.mk 2 10 20; AccRow.mk 3 30 12]).

(** One enumeration of the union of two lists of service types: the
    first list, then what the second adds, by name. *)
Definition set_union (a b : list ServiceType.t) : list ServiceType.t :=
  a ++ filter (fun s => negb (existsb (fun s' => String.eqb (ServiceType.name s')
                                                            (ServiceType.name s)) a)) b.

(** The optimizer as [calculate] prepares it for turning block 1 into
    residential land, no scenario, at most 15 facilities per brick. *)
Definition prepared : result BlockOptimizer :=
  prepare set_union city [(1%Z, RESIDENTIAL)] [] (Some 15%Z).

Definition self : BlockOptimizer :=
  match prepared with
  | Ok s => s
  | Raise _ => mkBlockOptimizer city [] [] [] [] [] [] [] None
  end.

Definition constants1 : Dict string Constants * Q :=
  match zget 1%Z (CONSTANTS self) with
  | Some cm => cm
  | None => ([], 0%Q)
  end.

(** The program built for it. *)
Definition prob : LpProblem :=
  match generate_lp_problem self with
  | Ok p => p
  | Raise _ => mkLpProblem (expr_const 0) [] []
  end.

(** Thirteen kindergarten bricks and nothing else. *)
Definition thirteen_kindergartens : assignment :=
  fun v => match v with
           | BrickVar 1 2 => 13%Q
           | _ => 0%Q
           end.

(** The same for turning block 1 into industrial land. *)
Definition self_industrial : BlockOptimizer :=
  match prepare set_union city [(1%Z, INDUSTRIAL)] [] (Some 15%Z) with
  | Ok s => s
  | Raise _ => mkBlockOptimizer city [] [] [] [] [] [] [] None
  end.

(** The optimizer and the program when at most one facility per brick is
    allowed: the bricks then cover at most 17% of the floor area the
    residential FSI minimum asks for. *)
Definition self_capped : BlockOptimizer :=
  match prepare set_union city [(1%Z, RESIDENTIAL)] [] (Some 1%Z) with
  | Ok s => s
  | Raise _ => mkBlockOptimizer city [] [] [] [] [] [] [] None
  end.

Definition prob_capped : LpProblem :=
  match generate_lp_problem self_capped with
  | Ok p => p
  | Raise _ => mkLpProblem (expr_const 0) [] []
  end.

(** An allocation update: 150 school places for block 1 and for block 4. *)
Definition school_update : DataFrame :=
  mkDataFrame [1%Z; 4%Z] ["school"%string]
              [((1%Z, "school"%string), 150%Q); ((4%Z, "school"%string), 150%Q)].

(** An engine that reports [status] and assigns [v] to every variable. *)
Definition constant_engine (status : LpStatusCode) (v : Q) (prob : LpProblem)
  : LpStatusCode * solution :=
  (status, fun _ => Some v).

End Example.

(** * Further notions

    Used by the properties of the preparation loop, the decoder and the
    demolition table that follow the ones above. *)

From Stdlib Require Import Permutation.

(** ** Variants of the optimizer's state *)

(** The block a variable was created for. *)
Definition var_key (v : LpVar) : Z :=
  match v with
  | BrickVar key _ | PopulationVar key => key
  end.

(** The city with another population recorded for a block in the blocks
    table. *)
Definition with_block_population (selected_block_id : Z) (p : Q) (city : CityModel)
  : CityModel :=
  mkCityModel (blocks city) (get_land_use_service_types city)
              (gdf_set_population (get_blocks_gdf city) selected_block_id p)
              (accessibility_calculate city).

Definition with_city (city : CityModel) (self : BlockOptimizer) : BlockOptimizer :=
  mkBlockOptimizer city (BLOCKS_LANUSE_DICT self) (ORIG_SERVICE_TYPES self)
    (NEW_SERVICE_TYPES self) (FREE_AREA self) (BRICKS self) (CONSTANTS self)
    (SCENARIO self) (MAX_FACILITIES self).

(** The optimizer with other free areas and other original service types. *)
Definition with_free_area_and_orig (free_area : Dict Z Q)
  (orig : Dict Z (list ServiceType.t)) (self : BlockOptimizer) : BlockOptimizer :=
  mkBlockOptimizer (city_model self) (BLOCKS_LANUSE_DICT self) orig
    (NEW_SERVICE_TYPES self) free_area (BRICKS self) (CONSTANTS self)
    (SCENARIO self) (MAX_FACILITIES self).

(** ** The preparation loop *)

(** What the preparation loop of [calculate] has recorded for a block once
    it is through: the service types of the block's current and target land
    use, 0.8 of its site area, the bricks of the target's service types and
    the estimator's result. *)
Definition prepared_entry
  (set_union : list ServiceType.t -> list ServiceType.t -> list ServiceType.t)
  (self : BlockOptimizer) (key : Z) : Prop :=
  exists block lu cd,
    zget key (blocks (city_model self)) = Some block
    /\ zget key (BLOCKS_LANUSE_DICT self) = Some lu
    /\ zget key (ORIG_SERVICE_TYPES self)
       = Some (get_land_use_service_types (city_model self) (Block.land_use block))
    /\ zget key (NEW_SERVICE_TYPES self)
       = Some (get_land_use_service_types (city_model self) lu)
    /\ zget key (FREE_AREA self) = Some (Block.site_area block * (8 # 10))%Q
    /\ zget key (BRICKS self)
       = Some (get_bricks_df (get_land_use_service_types (city_model self) lu))
    /\ zget key (CONSTANTS self) = Some cd
    /\ get_capacity_demand set_union self key = Ok cd.

(** Two optimizers with the same city model, assignment, scenario and
    facility cap, and the same five dictionaries at every key but those of
    [keys]. *)
Definition same_outside (keys : list Z) (a b : BlockOptimizer) : Prop :=
  city_model a = city_model b
  /\ BLOCKS_LANUSE_DICT a = BLOCKS_LANUSE_DICT b
  /\ SCENARIO a = SCENARIO b
  /\ MAX_FACILITIES a = MAX_FACILITIES b
  /\ forall key, ~ In key keys ->
       zget key (ORIG_SERVICE_TYPES a) = zget key (ORIG_SERVICE_TYPES b)
       /\ zget key (NEW_SERVICE_TYPES a) = zget key (NEW_SERVICE_TYPES b)
       /\ zget key (FREE_AREA a) = zget key (FREE_AREA b)
       /\ zget key (BRICKS a) = zget key (BRICKS b)
       /\ zget key (CONSTANTS a) = zget key (CONSTANTS b).

(** ** Frames *)

(** The rows of the frames of [pd.concat(dfs, ignore_index=True)], each
    with the frame it comes from, and their new labels from [s] on. *)
Definition concat_rows (dfs : list DataFrame) : list (DataFrame * Z) :=
  flat_map (fun df => map (fun r => (df, r)) (df_index df)) dfs.

Definition numbered_from (s : nat) (rows : list (DataFrame * Z))
  : list (Z * (DataFrame * Z)) :=
  combine (map Z.of_nat (seq s (List.length rows))) rows.

(** What the demolition of a block takes from a column: its population, or
    the capacity of the last installed service of the column's type. *)
Definition demolition_delta (block : Block.t) (c : string) : Q :=
  if String.eqb c "population" then (- Block.population block)%Q
  else match last_service (Block.all_services block) c with
       | Some s => (- Service.capacity s)%Q
       | None => 0%Q
       end.

(** ** Solutions *)

(** The assignment the decoder reads off a solution: the value of a
    variable of the program, and 0 for a variable the program does not have
    or that has no value. *)
Definition decoded_assignment (prob : LpProblem) (sol : solution) : assignment :=
  fun v => if mem LpVar_eq_dec v (prob_variables prob)
           then match sol v with
                | Some q => q
                | None => 0%Q
                end
           else 0%Q.

(** An assignment with the population variables put to 0. *)
Definition without_population (x : assignment) : assignment :=
  fun v => match v with
           | PopulationVar _ => 0%Q
           | BrickVar _ _ => x v
           end.

(** Whether the scenario names a service type. *)
Definition in_scenario (self : BlockOptimizer) (serv : ServiceType.t) : bool :=
  match sget (ServiceType.name serv) (SCENARIO self) with
  | Some _ => true
  | None => false
  end.

(** ** More of the example city *)

Module Example2.

(** The example city with block 1 recorded as special land: neither
    special nor transport land has a service type. *)
Definition quiet_city : CityModel :=
  mkCityModel [(1%Z, Block.mk 10000 SPECIAL 100 [])]
              (get_land_use_service_types Example.city)
              (get_blocks_gdf Example.city)
              (accessibility_calculate Example.city).

End Example2.

Module Example3.

(** The optimizer as [calculate] prepares it for turning block 1 of the
    example city into business land (offices, without bricks) and into
    transport land (no service type). *)
Definition self_business : BlockOptimizer :=
  match prepare Example.set_union Example.city [(1%Z, BUSINESS)] [] (Some 15%Z) with
  | Ok s => s
  | Raise _ => mkBlockOptimizer Example.city [] [] [] [] [] [] [] None
  end.

Definition self_transport : BlockOptimizer :=
  match prepare Example.set_union Example.city [(1%Z, TRANSPORT)] [] (Some 15%Z) with
  | Ok s => s
  | Raise _ => mkBlockOptimizer Example.city [] [] [] [] [] [] [] None
  end.

(** The example city with shops (one brick of capacity 10 on 2500 square
    metres) as the service type of business land. *)
Definition shop : ServiceType.t :=
  ServiceType.mk "shop" 50 15 (Example.in_need 50) [Brick.mk 10 2500].

Definition business_city : CityModel :=
  mkCityModel (blocks Example.city)
              (fun lu => match lu with
                         | BUSINESS => [shop]
                         | _ => get_land_use_service_types Example.city lu
                         end)
              (get_blocks_gdf Example.city)
              (accessibility_calculate Example.city).

Definition self_shops : BlockOptimizer :=
  match prepare Example.set_union business_city [(1%Z, BUSINESS)] [] (Some 15%Z) with
  | Ok s => s
  | Raise _ => mkBlockOptimizer business_city [] [] [] [] [] [] [] None
  end.

Definition prob_shops : LpProblem :=
  match generate_lp_problem self_shops with
  | Ok p => p
  | Raise _ => mkLpProblem (expr_const 0) [] []
  end.

(** Four shop bricks and nothing else. *)
Definition four_shops : assignment :=
  fun v => match v with
           | BrickVar 1 0 => 4%Q
           | _ => 0%Q
           end.

(** The example city with a scenario that gives schools the weight 1/2. *)
Definition self_scenario : BlockOptimizer :=
  match prepare Example.set_union Example.city [(1%Z, RESIDENTIAL)]
                [("school"%string, (1 # 2)%Q)] (Some 15%Z) with
  | Ok s => s
  | Raise _ => mkBlockOptimizer Example.city [] [] [] [] [] [] [] None
  end.

(** A solution of the program of the example city: two bricks of the
    first kind of school, thirteen kindergarten bricks, no new population. *)
Definition schools_solution : solution :=
  fun v => match v with
           | BrickVar 1 0 => Some 2%Q
           | BrickVar 1 2 => Some 13%Q
           | _ => Some 0%Q
           end.

(** Thirteen kindergarten bricks in block 1 of the example city, and a new
    population of 7. *)
Definition seven_newcomers : assignment :=
  fun v => match v with
           | BrickVar 1 2 => 13%Q
           | PopulationVar 1 => 7%Q
           | _ => 0%Q
           end.

(** The enumeration of [Example.set_union] backwards. *)
Definition set_union_rev (a b : list ServiceType.t) : list ServiceType.t :=
  rev (Example.set_union a b).

End Example3.

(** * Properties *)

Unset Implicit Arguments.

(** ** Rationals *)

Lemma Qltb_lt (x y : Q) : Qltb x y = true <-> (x < y)%Q.
Proof.
  unfold Qltb. rewrite negb_true_iff. split; intro H.
  - apply Qnot_le_lt. intro L. apply Qle_bool_iff in L. congruence.
  - destruct (Qle_bool y x) eqn:E; [|reflexivity].
    apply Qle_bool_iff in E. apply Qle_not_lt in E. contradiction.
Qed.

Lemma Qltb_ge (x y : Q) : Qltb x y = false <-> (y <= x)%Q.
Proof.
  unfold Qltb. rewrite negb_false_iff. apply Qle_bool_iff.
Qed.

Lemma Qzerob_true (x : Q) : Qzerob x = true <-> (x == 0)%Q.
Proof. unfold Qzerob. apply Qeq_bool_iff. Qed.

Lemma Qzerob_false (x : Q) : Qzerob x = false <-> ~ (x == 0)%Q.
Proof.
  unfold Qzerob. split; intro H.
  - intro E. apply Qeq_bool_iff in E. congruence.
  - destruct (Qeq_bool x 0) eqn:E; [|reflexivity].
    apply Qeq_bool_iff in E. contradiction.
Qed.

Lemma py_max_spec (x y : Q) : (py_max x y == Qmax x y)%Q.
Proof.
  unfold py_max. destruct (Qltb x y) eqn:E.
  - apply Qltb_lt in E. symmetry. apply Q.max_r. apply Qlt_le_weak, E.
  - apply Qltb_ge in E. symmetry. apply Q.max_l. exact E.
Qed.

(** ** Land uses *)

Lemma LandUse_eqb_eq (a b : LandUse) : LandUse_eqb a b = true <-> a = b.
Proof. destruct a, b; simpl; split; intro H; try reflexivity; discriminate. Qed.

Lemma FSI_min_positive (lu : LandUse) : (0 < FSI_min (LAND_USE_INDICATORS lu))%Q.
Proof. destruct lu; reflexivity. Qed.

(** ** Dictionaries *)

Section DictFacts.
Variables K V : Type.
Variable K_eq_dec : forall x y : K, {x = y} + {x <> y}.
Notation dict_get := (dict_get K_eq_dec).
Notation dict_set := (dict_set K_eq_dec).
Notation dict_keys := (dict_keys (V:=V) K_eq_dec).
Notation dedup := (dedup K_eq_dec).
Notation mem := (mem K_eq_dec).
Notation remove_key := (remove_key K_eq_dec).
Implicit Type d : Dict K V.

Lemma mem_In (k : K) (l : list K) : mem k l = true <-> In k l.
Proof. unfold mem. destruct (in_dec K_eq_dec k l); intuition discriminate. Qed.

Lemma remove_key_In (k x : K) (l : list K) :
  In x (remove_key k l) <-> In x l /\ x <> k.
Proof.
  unfold remove_key. rewrite filter_In.
  destruct (K_eq_dec x k); intuition congruence.
Qed.

Lemma dedup_In (k : K) (l : list K) : In k (dedup l) <-> In k l.
Proof.
  induction l as [|k' r IH]; simpl; [tauto|].
  rewrite remove_key_In, IH.
  destruct (K_eq_dec k k'); intuition congruence.
Qed.

Lemma dict_keys_In (k : K) (d : Dict K V) :
  In k (dict_keys d) <-> In k (map fst d).
Proof. apply dedup_In. Qed.

Lemma dict_get_set_same (k : K) (v : V) (d : Dict K V) :
  dict_get k (dict_set k v d) = Some v.
Proof.
  induction d as [|[k' v'] r IH]; simpl.
  - destruct (K_eq_dec k k); congruence.
  - destruct (K_eq_dec k k') as [E|N]; simpl.
    + destruct (K_eq_dec k k'); congruence.
    + destruct (K_eq_dec k k'); congruence.
Qed.

Lemma dict_get_set_other (k k0 : K) (v : V) (d : Dict K V) :
  k0 <> k -> dict_get k0 (dict_set k v d) = dict_get k0 d.
Proof.
  intro N. induction d as [|[k' v'] r IH]; simpl.
  - destruct (K_eq_dec k0 k); congruence.
  - destruct (K_eq_dec k k') as [E|N']; simpl.
    + subst k'. destruct (K_eq_dec k0 k); congruence.
    + destruct (K_eq_dec k0 k'); congruence.
Qed.

Lemma dict_get_In (k : K) (v : V) (d : Dict K V) :
  dict_get k d = Some v -> In (k, v) d.
Proof.
  induction d as [|[k' v'] r IH]; simpl; [discriminate|].
  destruct (K_eq_dec k k'); intro H.
  - left. congruence.
  - right. auto.
Qed.

Lemma dict_get_keys (k : K) (d : Dict K V) :
  In k (dict_keys d) <-> exists v, dict_get k d = Some v.
Proof.
  rewrite dict_keys_In.
  induction d as [|[k' v'] r IH]; simpl.
  - split; [tauto|]. intros [v H]. discriminate.
  - destruct (K_eq_dec k k') as [E|N].
    + split; [eauto|]. intros _. left. congruence.
    + rewrite <- IH. intuition congruence.
Qed.
End DictFacts.

(** ** Generic facts about the error monad *)

Lemma bind_Ok {A B : Type} (m : result A) (k : A -> result B) (b : B) :
  bind m k = Ok b -> exists a, m = Ok a /\ k a = Ok b.
Proof. destruct m as [a|e]; simpl; intro H; [eauto | discriminate]. Qed.

Lemma or_raise_Ok {A : Type} (e : PyError) (o : option A) (a : A) :
  or_raise e o = Ok a <-> o = Some a.
Proof. destruct o; simpl; split; intro H; congruence. Qed.

Lemma mapM_Ok_Forall2 {A B : Type} (f : A -> result B) (l : list A) (bs : list B) :
  mapM f l = Ok bs <-> Forall2 (fun a b => f a = Ok b) l bs.
Proof.
  revert bs. induction l as [|a r IH]; intro bs; simpl.
  - split; intro H.
    + inversion H. constructor.
    + inversion H. reflexivity.
  - split; intro H.
    + apply bind_Ok in H. destruct H as [b [Hb H]].
      apply bind_Ok in H. destruct H as [bs' [Hbs H]].
      inversion H; subst. constructor; [exact Hb | apply IH, Hbs].
    + inversion H as [|a' b l' bs' Hb Hr]; subst.
      rewrite Hb. simpl. apply IH in Hr. rewrite Hr. reflexivity.
Qed.

Lemma mapM_total {A B : Type} (f : A -> result B) (l : list A) :
  (forall a, In a l -> exists b, f a = Ok b) -> exists bs, mapM f l = Ok bs.
Proof.
  induction l as [|a r IH]; intro H; simpl.
  - eauto.
  - destruct (H a (or_introl eq_refl)) as [b Hb].
    destruct IH as [bs Hbs]; [intros; apply H; right; assumption|].
    exists (b :: bs). rewrite Hb. simpl. rewrite Hbs. reflexivity.
Qed.

Lemma mapM_In {A B : Type} (f : A -> result B) (l : list A) (bs : list B) (a : A) :
  mapM f l = Ok bs -> In a l -> exists b, f a = Ok b /\ In b bs.
Proof.
  rewrite mapM_Ok_Forall2. induction 1 as [|a' b l' bs' Hb Hr IH]; intro Hin.
  - destruct Hin.
  - destruct Hin as [E|Hin].
    + subst. exists b. split; [assumption | left; reflexivity].
    + destruct (IH Hin) as [b' [H1 H2]]. exists b'. split; [assumption | right; assumption].
Qed.

Lemma mapM_In_inv {A B : Type} (f : A -> result B) (l : list A) (bs : list B) (b : B) :
  mapM f l = Ok bs -> In b bs -> exists a, In a l /\ f a = Ok b.
Proof.
  rewrite mapM_Ok_Forall2. induction 1 as [|a' b' l' bs' Hb Hr IH]; intro Hin.
  - destruct Hin.
  - destruct Hin as [E|Hin].
    + subst. exists a'. split; [left; reflexivity | assumption].
    + destruct (IH Hin) as [a [H1 H2]]. exists a. split; [right; assumption | assumption].
Qed.

(** ** The estimator *)

Lemma gdf_loc_set_population (gdf : list GdfRow.t) (k i : Z) :
  gdf_loc (gdf_set_population gdf k 0) i = option_map (zero_population k) (gdf_loc gdf i).
Proof.
  unfold gdf_loc, gdf_set_population. induction gdf as [|r rest IH]; simpl; [reflexivity|].
  destruct (Z.eqb (GdfRow.id r) k) eqn:Ek; simpl.
  - destruct (Z.eqb (GdfRow.id r) i) eqn:Ei; simpl.
    + unfold zero_population. rewrite Ek. reflexivity.
    + apply IH.
  - destruct (Z.eqb (GdfRow.id r) i) eqn:Ei; simpl.
    + unfold zero_population. rewrite Ek. reflexivity.
    + apply IH.
Qed.

Lemma zero_population_need (k : Z) (serv : ServiceType.t) (r : GdfRow.t) :
  ServiceType.calculate_in_need serv (GdfRow.population (zero_population k r))
  = ServiceType.calculate_in_need serv (population_without k r).
Proof.
  unfold zero_population, population_without.
  destruct (Z.eqb (GdfRow.id r) k); reflexivity.
Qed.

Lemma zero_population_capacity (k : Z) (r : GdfRow.t) (n : string) :
  GdfRow.capacity (zero_population k r) n = GdfRow.capacity r n.
Proof. unfold zero_population. destruct (Z.eqb (GdfRow.id r) k); reflexivity. Qed.

Lemma gdf_set_population_map (gdf : list GdfRow.t) (k : Z) :
  gdf_set_population gdf k 0 = map (zero_population k) gdf.
Proof. reflexivity. Qed.

Lemma capacity_left_of_margin (gdf : list GdfRow.t) (k : Z) (own : GdfRow.t)
  (serv : ServiceType.t) :
  capacity_left_of (gdf_set_population gdf k 0) own serv = global_margin gdf k own serv.
Proof.
  unfold capacity_left_of, global_margin, capacity_over, demand_over.
  rewrite gdf_set_population_map, !map_map.
  f_equal; [f_equal|]; f_equal; apply map_ext; intro r.
  - apply zero_population_capacity.
  - apply zero_population_need.
Qed.

Lemma within_reach_spec (serv : ServiceType.t) (r : AccRow.t) :
  within_reach serv r = true
  <-> (AccRow.accessibility_to r <= ServiceType.accessibility serv)%Q
      \/ (AccRow.accessibility_from r <= ServiceType.accessibility serv)%Q.
Proof. unfold within_reach. rewrite orb_true_iff, !Qle_bool_iff. tauto. Qed.

Lemma catchment_ids_spec (acc_gdf : list AccRow.t) (serv : ServiceType.t) (i : Z) :
  In i (catchment_ids acc_gdf serv) <-> in_catchment acc_gdf serv i.
Proof.
  unfold catchment_ids, in_catchment. rewrite in_map_iff. split.
  - intros [row [E H]]. apply filter_In in H. destruct H as [H1 H2].
    exists row. rewrite within_reach_spec in H2. auto.
  - intros [row [H1 [E H2]]]. exists row. split; [assumption|].
    apply filter_In. rewrite within_reach_spec. auto.
Qed.

(** An accessibility table with one row per block gives each block once. *)
Lemma catchment_ids_NoDup (acc_gdf : list AccRow.t) (serv : ServiceType.t) :
  NoDup (map AccRow.id acc_gdf) -> NoDup (catchment_ids acc_gdf serv).
Proof.
  unfold catchment_ids. induction acc_gdf as [|row rest IH]; simpl; intro Hnd.
  - constructor.
  - apply NoDup_cons_iff in Hnd. destruct Hnd as [Hfresh Hrest].
    destruct (within_reach serv row); simpl; [|exact (IH Hrest)].
    apply NoDup_cons; [|exact (IH Hrest)].
    rewrite in_map_iff. intros [row' [Eid Hin]]. apply Hfresh.
    apply filter_In in Hin. rewrite in_map_iff. exists row'. tauto.
Qed.

Lemma estimator_step_Ok (gdf : list GdfRow.t) (own : GdfRow.t) (acc_gdf : list AccRow.t)
  (st st' : EstimatorState) (serv : ServiceType.t) :
  estimator_step gdf own acc_gdf st serv = Ok st' ->
  exists context_gdf,
    Forall2 (fun i r => gdf_loc gdf i = Some r) (catchment_ids acc_gdf serv) context_gdf
    /\ sget (ServiceType.name serv) (constants_acc st')
       = Some (mkConstants
                 (Qsum (map (fun r => ServiceType.calculate_in_need serv (GdfRow.population r))
                            context_gdf))
                 (Qsum (map (fun r => GdfRow.capacity r (ServiceType.name serv)) context_gdf)
                  - GdfRow.capacity own (ServiceType.name serv))%Q)
    /\ (forall n, n <> ServiceType.name serv ->
                  sget n (constants_acc st') = sget n (constants_acc st))
    /\ (let smaller := match min_capacity_left st with
                       | None => true
                       | Some m => Qltb (capacity_left_of gdf own serv) m
                       end in
        min_capacity_left st'
        = (if smaller then Some (capacity_left_of gdf own serv) else min_capacity_left st)
        /\ min_service st' = (if smaller then Some serv else min_service st)).
Proof.
  unfold estimator_step. intro H. apply bind_Ok in H. destruct H as [ctx [Hctx H]].
  inversion H; subst; clear H. simpl. exists ctx. repeat split.
  - apply mapM_Ok_Forall2 in Hctx.
    eapply Forall2_impl; [|exact Hctx]. intros i r Hr. apply or_raise_Ok in Hr. exact Hr.
  - apply dict_get_set_same.
  - intros n Hn. apply dict_get_set_other. exact Hn.
Qed.

Lemma Forall2_loc_zeroed (gdf : list GdfRow.t) (k : Z) (ids : list Z) (ctx : list GdfRow.t) :
  Forall2 (fun i r => gdf_loc (gdf_set_population gdf k 0) i = Some r) ids ctx ->
  exists rows, Forall2 (fun i r => gdf_loc gdf i = Some r) ids rows
               /\ ctx = map (zero_population k) rows.
Proof.
  induction 1 as [|i r ids' ctx' Hr _ IH].
  - exists []. split; [constructor | reflexivity].
  - destruct IH as [rows [H1 H2]].
    rewrite gdf_loc_set_population in Hr.
    destruct (gdf_loc gdf i) as [r0|] eqn:E; simpl in Hr; [|discriminate].
    inversion Hr; subst. exists (r0 :: rows). split; [constructor; assumption | reflexivity].
Qed.

Lemma estimator_step_local (gdf : list GdfRow.t) (k : Z) (own : GdfRow.t)
  (acc_gdf : list AccRow.t) (st st' : EstimatorState) (serv : ServiceType.t) :
  estimator_step (gdf_set_population gdf k 0) own acc_gdf st serv = Ok st' ->
  exists c, sget (ServiceType.name serv) (constants_acc st') = Some c
            /\ local_constants gdf k own (catchment_ids acc_gdf serv) serv c.
Proof.
  intro H. apply estimator_step_Ok in H. destruct H as [ctx [Hctx [Hc _]]].
  apply Forall2_loc_zeroed in Hctx. destruct Hctx as [rows [Hrows E]].
  eexists. split; [exact Hc|]. exists rows. subst ctx. simpl.
  unfold demand_over, capacity_over. rewrite !map_map. repeat split.
  - assumption.
  - f_equal. apply map_ext. intro r. apply zero_population_need.
  - f_equal. f_equal. apply map_ext. intro r. apply zero_population_capacity.
Qed.

Lemma estimator_loop_preserves (gdf : list GdfRow.t) (own : GdfRow.t)
  (acc_gdf : list AccRow.t) (servs : list ServiceType.t) :
  forall st st' n,
    estimator_loop gdf own acc_gdf st servs = Ok st' ->
    ~ In n (map ServiceType.name servs) ->
    sget n (constants_acc st') = sget n (constants_acc st).
Proof.
  induction servs as [|s rest IH]; simpl; intros st st' n H Hn.
  - inversion H. reflexivity.
  - apply bind_Ok in H. destruct H as [st1 [H1 H2]].
    erewrite IH; [| exact H2 | tauto].
    apply estimator_step_Ok in H1. destruct H1 as [_ [_ [_ [Hp _]]]].
    apply Hp. intro E. apply Hn. left. congruence.
Qed.

Lemma estimator_loop_local (gdf : list GdfRow.t) (k : Z) (own : GdfRow.t)
  (acc_gdf : list AccRow.t) (servs : list ServiceType.t) :
  (forall s s', In s servs -> In s' servs ->
                ServiceType.name s = ServiceType.name s' -> s = s') ->
  forall st st' serv,
    estimator_loop (gdf_set_population gdf k 0) own acc_gdf st servs = Ok st' ->
    In serv servs ->
    exists c, sget (ServiceType.name serv) (constants_acc st') = Some c
              /\ local_constants gdf k own (catchment_ids acc_gdf serv) serv c.
Proof.
  induction servs as [|s rest IH]; intros Hu st st' serv H Hin; [destruct Hin|].
  simpl in H. apply bind_Ok in H. destruct H as [st1 [H1 H2]].
  destruct (in_dec string_dec (ServiceType.name serv) (map ServiceType.name rest))
    as [Hr|Hr].
  - apply in_map_iff in Hr. destruct Hr as [s' [E Hs']].
    assert (s' = serv) by (apply Hu; [right; assumption | assumption | assumption]).
    subst s'. eapply IH; eauto.
    intros a b Ha Hb. apply Hu; right; assumption.
  - destruct Hin as [E|Hin].
    + subst s. erewrite estimator_loop_preserves; [| exact H2 | exact Hr].
      eapply estimator_step_local. exact H1.
    + exfalso. apply Hr. apply in_map. exact Hin.
Qed.

(** The least margin and the service type holding it: the first of the
    enumeration among those that attain the minimum. *)
Lemma estimator_loop_min (gdf : list GdfRow.t) (own : GdfRow.t)
  (acc_gdf : list AccRow.t) (servs : list ServiceType.t) :
  forall st st',
    estimator_loop gdf own acc_gdf st servs = Ok st' ->
    (min_capacity_left st' = min_capacity_left st
     /\ min_service st' = min_service st
     /\ forall s, In s servs ->
                  exists m, min_capacity_left st = Some m
                            /\ (m <= capacity_left_of gdf own s)%Q)
    \/ (exists pre s post,
          servs = pre ++ s :: post
          /\ min_capacity_left st' = Some (capacity_left_of gdf own s)
          /\ min_service st' = Some s
          /\ (forall p, In p pre ->
                        (capacity_left_of gdf own s < capacity_left_of gdf own p)%Q)
          /\ (forall p, In p post ->
                        (capacity_left_of gdf own s <= capacity_left_of gdf own p)%Q)
          /\ (forall m, min_capacity_left st = Some m ->
                        (capacity_left_of gdf own s < m)%Q)).
Proof.
  induction servs as [|serv rest IH]; simpl; intros st st' H.
  - inversion H; subst. left. repeat split. intros s [].
  - apply bind_Ok in H. destruct H as [st1 [H1 H2]].
    apply estimator_step_Ok in H1. destruct H1 as [_ [_ [_ [_ Hms]]]].
    cbv zeta in Hms. destruct Hms as [Hm Hs].
    specialize (IH _ _ H2).
    set (left := capacity_left_of gdf own) in *.
    destruct (min_capacity_left st) as [m|] eqn:Em.
    + destruct (Qltb (left serv) m) eqn:Elt.
      * apply Qltb_lt in Elt.
        destruct IH as [[I1 [I2 I3]] | [pre [s [post [E [I1 [I2 [I3 [I4 I5]]]]]]]]].
        -- right. exists [], serv, rest. simpl. repeat split.
           ++ congruence.
           ++ congruence.
           ++ intros p [].
           ++ intros p Hp. destruct (I3 p Hp) as [m' [E1 E2]].
              rewrite Hm in E1. inversion E1; subst. exact E2.
           ++ intros m' E'. inversion E'; subst. exact Elt.
        -- right. exists (serv :: pre), s, post. subst rest. simpl.
           assert (Hlt : (left s < left serv)%Q) by (apply I5; exact Hm).
           repeat split; try assumption.
           ++ intros p [Ep|Hp]; [subst p; exact Hlt | apply I3; exact Hp].
           ++ intros m' E'. inversion E'; subst.
              eapply Qlt_trans; [exact Hlt | exact Elt].
      * apply Qltb_ge in Elt.
        destruct IH as [[I1 [I2 I3]] | [pre [s [post [E [I1 [I2 [I3 [I4 I5]]]]]]]]].
        -- left. repeat split; try congruence.
           intros s [Es|Hs'].
           ++ subst s. exists m. split; [reflexivity | exact Elt].
           ++ destruct (I3 s Hs') as [m' [E1 E2]]. rewrite Hm in E1. eauto.
        -- right. exists (serv :: pre), s, post. subst rest. simpl.
           assert (Hlt : (left s < m)%Q) by (apply I5; exact Hm).
           repeat split; try assumption.
           ++ intros p [Ep|Hp]; [subst p | apply I3; exact Hp].
              eapply Qlt_le_trans; [exact Hlt | exact Elt].
           ++ intros m' E'. inversion E'; subst. exact Hlt.
    + destruct IH as [[I1 [I2 I3]] | [pre [s [post [E [I1 [I2 [I3 [I4 I5]]]]]]]]].
      * right. exists [], serv, rest. simpl. repeat split.
        -- congruence.
        -- congruence.
        -- intros p [].
        -- intros p Hp. destruct (I3 p Hp) as [m' [E1 E2]].
           rewrite Hm in E1. inversion E1; subst. exact E2.
        -- intros m' E'. discriminate.
      * right. exists (serv :: pre), s, post. subst rest. simpl.
        assert (Hlt : (left s < left serv)%Q) by (apply I5; exact Hm).
        repeat split; try assumption.
        -- intros p [Ep|Hp]; [subst p; exact Hlt | apply I3; exact Hp].
        -- intros m' E'. discriminate.
Qed.


Lemma get_capacity_demand_Ok
  (set_union : list ServiceType.t -> list ServiceType.t -> list ServiceType.t)
  (self : BlockOptimizer) (k : Z) (constants : Dict string Constants) (ceiling : Q) :
  get_capacity_demand set_union self k = Ok (constants, ceiling) ->
  exists own new orig st m serv,
    gdf_loc (get_blocks_gdf (city_model self)) k = Some own
    /\ zget k (NEW_SERVICE_TYPES self) = Some new
    /\ zget k (ORIG_SERVICE_TYPES self) = Some orig
    /\ estimator_loop (gdf_set_population (get_blocks_gdf (city_model self)) k 0) own
         (accessibility_calculate (city_model self) k)
         (mkEstimatorState [] None None) (set_union new orig) = Ok st
    /\ constants = constants_acc st
    /\ min_capacity_left st = Some m
    /\ min_service st = Some serv
    /\ Qzerob (ServiceType.demand serv) = false
    /\ ceiling = py_max (m / ServiceType.demand serv * 1000) 0.
Proof.
  unfold get_capacity_demand. intro H.
  apply bind_Ok in H. destruct H as [own [Hown H]]. apply or_raise_Ok in Hown.
  apply bind_Ok in H. destruct H as [blk [_ H]].
  apply bind_Ok in H. destruct H as [new [Hnew H]]. apply or_raise_Ok in Hnew.
  apply bind_Ok in H. destruct H as [orig [Horig H]]. apply or_raise_Ok in Horig.
  apply bind_Ok in H. destruct H as [st [Hst H]].
  destruct (min_capacity_left st) as [m|] eqn:Em; [|discriminate].
  destruct (min_service st) as [serv|] eqn:Es; [|discriminate].
  destruct (Qzerob (ServiceType.demand serv)) eqn:Ez; [discriminate|].
  inversion H; subst.
  exists own, new, orig, st, m, serv. repeat split; assumption.
Qed.

Section EstimatorTheorems.
Variable set_union : list ServiceType.t -> list ServiceType.t -> list ServiceType.t.

(** C3: for every service type in the union of the block's candidate and
    original service types (the set the loop enumerates holds exactly
    the members of the two lists, as Python's [set(a) | set(b)] does), the
    recorded constants are those of its catchment: the blocks whose cost
    to or from the selected block is at most the threshold, local demand
    summed over their populations with the selected block's own read as
    zero, local capacity summed over them minus the selected block's own. *)
Theorem get_capacity_demand_local_constants
  (self : BlockOptimizer) (selected_block_id : Z)
  (constants : Dict string Constants) (ceiling : Q)
  (own : GdfRow.t) (new orig : list ServiceType.t) :
  get_capacity_demand set_union self selected_block_id = Ok (constants, ceiling) ->
  gdf_loc (get_blocks_gdf (city_model self)) selected_block_id = Some own ->
  zget selected_block_id (NEW_SERVICE_TYPES self) = Some new ->
  zget selected_block_id (ORIG_SERVICE_TYPES self) = Some orig ->
  (forall s, In s (set_union new orig) <-> In s new \/ In s orig) ->
  NoDup (map AccRow.id (accessibility_calculate (city_model self) selected_block_id)) ->
  (forall s s', In s new \/ In s orig -> In s' new \/ In s' orig ->
                ServiceType.name s = ServiceType.name s' -> s = s') ->
  forall serv, In serv new \/ In serv orig ->
    exists c catchment,
      sget (ServiceType.name serv) constants = Some c
      /\ NoDup catchment
      /\ (forall i, In i catchment
                    <-> in_catchment
                          (accessibility_calculate (city_model self) selected_block_id)
                          serv i)
      /\ local_constants (get_blocks_gdf (city_model self)) selected_block_id own
           catchment serv c.
Proof.
  intros H Hown Hnew Horig Hunion Hnd Hu serv Hin.
  apply get_capacity_demand_Ok in H.
  destruct H as [own' [new' [orig' [st [m [s [Ho [Hn [Hor [Hl [Hc _]]]]]]]]]]].
  rewrite Hown in Ho. rewrite Hnew in Hn. rewrite Horig in Hor.
  inversion Ho; inversion Hn; inversion Hor; subst own' new' orig' constants.
  assert (Hu' : forall a b, In a (set_union new orig) -> In b (set_union new orig) ->
                            ServiceType.name a = ServiceType.name b -> a = b).
  { intros a b Ha Hb. apply Hu; apply Hunion; assumption. }
  apply Hunion in Hin.
  destruct (@estimator_loop_local _ _ _ _ _ Hu' _ _ _ Hl Hin) as [c [Hc Hloc]].
  exists c, (catchment_ids (accessibility_calculate (city_model self) selected_block_id) serv).
  repeat split.
  - exact Hc.
  - apply catchment_ids_NoDup. exact Hnd.
  - apply catchment_ids_spec.
  - apply catchment_ids_spec.
  - exact Hloc.
Qed.

End EstimatorTheorems.

Lemma example_names_unique (s s' : ServiceType.t) :
  In s [Example.school; Example.kindergarten; Example.park] ->
  In s' [Example.school; Example.kindergarten; Example.park] ->
  ServiceType.name s = ServiceType.name s' -> s = s'.
Proof.
  simpl. intros [H|[H|[H|[]]]] [H'|[H'|[H'|[]]]] E; subst; try reflexivity;
    discriminate E.
Qed.

(** The constants of block 1 of the example city, for the park: parks are
    a service type of the block's current land use, not of its target. *)
Lemma get_capacity_demand_local_constants_witness :
  exists constants ceiling c catchment,
    get_capacity_demand Example.set_union Example.self 1 = Ok (constants, ceiling)
    /\ sget (ServiceType.name Example.park) constants = Some c
    /\ NoDup catchment
    /\ (forall i, In i catchment
                  <-> in_catchment (accessibility_calculate Example.city 1) Example.park i)
    /\ local_constants (get_blocks_gdf Example.city) 1
         (GdfRow.mk 1 100 (Example.capacities 0 0)) catchment Example.park c.
Proof.
  assert (E : exists constants ceiling,
             get_capacity_demand Example.set_union Example.self 1 = Ok (constants, ceiling)).
  { eexists. eexists. vm_compute. reflexivity. }
  destruct E as [constants [ceiling E]].
  destruct (@get_capacity_demand_local_constants Example.set_union Example.self 1
              constants ceiling (GdfRow.mk 1 100 (Example.capacities 0 0))
              [Example.school; Example.kindergarten] [Example.park])
    with (serv := Example.park) as [c [catchment H]].
  - exact E.
  - reflexivity.
  - reflexivity.
  - reflexivity.
  - intro s. change (Example.set_union [Example.school; Example.kindergarten]
                                       [Example.park])
      with [Example.school; Example.kindergarten; Example.park].
    simpl. tauto.
  - simpl. repeat constructor; simpl; intuition discriminate.
  - intros s s' Hs Hs'. apply example_names_unique; simpl in *; tauto.
  - right. left. reflexivity.
  - exists constants, ceiling, c, catchment. split; [exact E | exact H].
Defined.


(** ** Affine expressions *)

Lemma Qsum_app (l1 l2 : list Q) : (Qsum (l1 ++ l2) == Qsum l1 + Qsum l2)%Q.
Proof.
  induction l1 as [|a r IH]; simpl.
  - ring.
  - rewrite IH. ring.
Qed.

Lemma Qsum_map_scale {A : Type} (q : Q) (f : A -> Q) (l : list A) :
  (Qsum (map (fun a => q * f a) l) == q * Qsum (map f l))%Q.
Proof.
  induction l as [|a r IH]; simpl.
  - ring.
  - rewrite IH. ring.
Qed.

Lemma Qsum_map_Qeq {A : Type} (f g : A -> Q) (l : list A) :
  (forall a, In a l -> (f a == g a)%Q) -> (Qsum (map f l) == Qsum (map g l))%Q.
Proof.
  induction l as [|a r IH]; simpl; intro H.
  - reflexivity.
  - rewrite (H a (or_introl eq_refl)), IH; [reflexivity|].
    intros b Hb. apply H. right. exact Hb.
Qed.

Lemma value_const (x : assignment) (c : Q) : (value x (expr_const c) == c)%Q.
Proof. unfold value. simpl. ring. Qed.

Lemma value_var (x : assignment) (v : LpVar) : (value x (expr_var v) == x v)%Q.
Proof. unfold value. simpl. ring. Qed.

Lemma value_add (x : assignment) (a b : LpAffineExpression) :
  (value x (expr_add a b) == value x a + value x b)%Q.
Proof.
  unfold value, expr_add. simpl. rewrite map_app, Qsum_app. ring.
Qed.

Lemma value_sub (x : assignment) (a b : LpAffineExpression) :
  (value x (expr_sub a b) == value x a - value x b)%Q.
Proof.
  unfold value, expr_sub. simpl. rewrite map_app, Qsum_app, map_map. simpl.
  assert (E : (Qsum (map (fun t : LpVar * Q => - snd t * x (fst t)) (terms b))
               == - Qsum (map (fun t => snd t * x (fst t)) (terms b)))%Q).
  { induction (terms b) as [|t r IH]; simpl; [ring | rewrite IH; ring]. }
  rewrite E. ring.
Qed.

Lemma value_scale (x : assignment) (q : Q) (e : LpAffineExpression) :
  (value x (expr_scale q e) == q * value x e)%Q.
Proof.
  unfold expr_scale. destruct (Qzerob q) eqn:Ez.
  - apply Qzerob_true in Ez. rewrite value_const, Ez. ring.
  - unfold value. simpl. rewrite map_map. simpl.
    assert (E : (Qsum (map (fun t : LpVar * Q => q * snd t * x (fst t)) (terms e))
                 == q * Qsum (map (fun t => snd t * x (fst t)) (terms e)))%Q).
    { induction (terms e) as [|t r IH]; simpl; [ring | rewrite IH; ring]. }
    rewrite E. ring.
Qed.

Lemma value_div (x : assignment) (e : LpAffineExpression) (q : Q) :
  (value x (expr_div e q) == value x e / q)%Q.
Proof.
  unfold value, expr_div. simpl. rewrite map_map. simpl.
  assert (E : (Qsum (map (fun t : LpVar * Q => snd t / q * x (fst t)) (terms e))
               == Qsum (map (fun t => snd t * x (fst t)) (terms e)) / q)%Q).
  { unfold Qdiv. induction (terms e) as [|t r IH]; simpl; [ring | rewrite IH; ring]. }
  rewrite E. unfold Qdiv. ring.
Qed.

Lemma value_fold_add (x : assignment) (l : list LpAffineExpression) :
  forall a, (value x (fold_left expr_add l a) == value x a + Qsum (map (value x) l))%Q.
Proof.
  induction l as [|e r IH]; intro a; simpl.
  - ring.
  - rewrite IH, value_add. ring.
Qed.

Lemma value_lpSum (x : assignment) (l : list LpAffineExpression) :
  (value x (lpSum l) == Qsum (map (value x) l))%Q.
Proof. unfold lpSum. rewrite value_fold_add, value_const. ring. Qed.

Lemma terms_fold_add (l : list LpAffineExpression) :
  forall a, terms (fold_left expr_add l a) = terms a ++ flat_map terms l.
Proof.
  induction l as [|e r IH]; intro a; simpl.
  - rewrite app_nil_r. reflexivity.
  - rewrite IH. simpl. rewrite app_assoc. reflexivity.
Qed.

Lemma terms_lpSum (l : list LpAffineExpression) : terms (lpSum l) = flat_map terms l.
Proof. unfold lpSum. rewrite terms_fold_add. reflexivity. Qed.

Lemma value_brick_term (x : assignment) (q : Q) (key : Z) (n : nat) :
  (value x (expr_scale q (expr_var (BrickVar key n))) == q * x (BrickVar key n))%Q.
Proof. rewrite value_scale, value_var. reflexivity. Qed.

(** ** Inversion of the builder *)

Lemma service_section_Ok (self : BlockOptimizer) (key : Z) (lu : LandUse)
  (bricks_df : list BrickRow.t) (constants : Dict string Constants) (default_weight : Q)
  (serv : ServiceType.t) (out : list LpAffineExpression * list LpConstraint) :
  service_section self key lu bricks_df constants default_weight serv = Ok out ->
  bricks_df <> []
  /\ exists c,
      sget (ServiceType.name serv) constants = Some c
      /\ out = ((if Qltb 0 (demand_local c) && Qltb (capacity_local c) (demand_local c)
                 then [expr_scale
                         (match sget (ServiceType.name serv) (SCENARIO self) with
                          | Some w => w
                          | None => default_weight
                          end)
                         (expr_sub
                            (expr_add (fit_function_of key bricks_df (ServiceType.name serv))
                                      (expr_const (capacity_local c)))
                            (expr_add (expr_const (demand_local c))
                                      (demand_from_new_population_of key serv)))]
                 else []),
                (if Qltb 0 (demand_local c) && Qltb (capacity_local c) (demand_local c)
                 then [mkLpConstraint (GapConstraint key (ServiceType.name serv))
                         (fit_function_of key bricks_df (ServiceType.name serv))
                         LpConstraintLE (demand_local c - capacity_local c)]
                 else [])
                ++ (if Qltb (demand_local c) (capacity_local c) && LandUse_eqb lu RESIDENTIAL
                    then [mkLpConstraint (SlackConstraint key (ServiceType.name serv))
                            (demand_from_new_population_of key serv) LpConstraintLE
                            (capacity_local c - demand_local c)]
                    else [])).
Proof.
  unfold service_section. intro H.
  destruct bricks_df as [|b r]; [discriminate|]. simpl in H.
  apply bind_Ok in H. destruct H as [c [Hc H]]. apply or_raise_Ok in Hc.
  split; [discriminate|]. exists c. split; [exact Hc|].
  inversion H. reflexivity.
Qed.

Lemma block_section_Ok (self : BlockOptimizer) (key : Z) (sec : BlockSection) :
  block_section self key = Ok sec ->
  exists i per_serv,
    zget key (BLOCKS_LANUSE_DICT self) = Some (in_lu i)
    /\ zget key (NEW_SERVICE_TYPES self) = Some (in_new i)
    /\ in_new i <> []
    /\ zget key (BRICKS self) = Some (in_bricks i)
    /\ zget key (CONSTANTS self) = Some (in_constants i)
    /\ zget key (blocks (city_model self)) = Some (in_block i)
    /\ ~ (Block.site_area (in_block i) == 0)%Q
    /\ mapM (service_section self key (in_lu i) (in_bricks i) (fst (in_constants i))
               (default_weight_of self (in_new i))) (in_new i) = Ok per_serv
    /\ sec_components sec = flat_map fst per_serv
    /\ sec_constraints sec
       = flat_map snd per_serv
         ++ [mkLpConstraint (FsiMaxConstraint key)
               (fsi_expr key (in_bricks i) (Block.site_area (in_block i)))
               LpConstraintLE (FSI_max (LAND_USE_INDICATORS (in_lu i)));
             mkLpConstraint (FsiMinConstraint key)
               (fsi_expr key (in_bricks i) (Block.site_area (in_block i)))
               LpConstraintGE (FSI_min (LAND_USE_INDICATORS (in_lu i)));
             mkLpConstraint (SiteAreaConstraint key) (built_area_expr key (in_bricks i))
               LpConstraintLE (Block.site_area (in_block i))]
    /\ sec_variables sec
       = map (fun ib => (BrickVar key (fst ib),
                         mkLpVariable (Some 0%Q)
                           (option_map inject_Z (MAX_FACILITIES self)) LpInteger))
             (indexed (in_bricks i))
         ++ [(PopulationVar key, mkLpVariable (Some 0%Q) None LpInteger)].
Proof.
  unfold block_section. intro H.
  apply bind_Ok in H. destruct H as [lu [Hlu H]]. apply or_raise_Ok in Hlu.
  apply bind_Ok in H. destruct H as [new [Hnew H]]. apply or_raise_Ok in Hnew.
  apply bind_Ok in H. destruct H as [[] [Hne H]].
  apply bind_Ok in H. destruct H as [bricks_df [Hb H]]. apply or_raise_Ok in Hb.
  apply bind_Ok in H. destruct H as [cm [Hcm H]]. apply or_raise_Ok in Hcm.
  apply bind_Ok in H. destruct H as [per_serv [Hps H]].
  apply bind_Ok in H. destruct H as [block [Hblk H]]. apply or_raise_Ok in Hblk.
  apply bind_Ok in H. destruct H as [[] [Hz H]].
  inversion H; subst; clear H.
  exists (mkBlockInputs lu new bricks_df cm block), per_serv. simpl.
  repeat split; try assumption.
  - destruct new; [discriminate Hne | discriminate].
  - destruct (Qzerob (Block.site_area block)) eqn:Ez; [discriminate|].
    apply Qzerob_false. exact Ez.
Qed.

Lemma generate_lp_problem_Ok (self : BlockOptimizer) (prob : LpProblem) :
  generate_lp_problem self = Ok prob ->
  exists secs,
    Forall2 (fun key sec => block_section self key = Ok sec)
            (zkeys (BLOCKS_LANUSE_DICT self)) secs
    /\ objective prob = lpSum (flat_map sec_components secs)
    /\ constraints prob = flat_map sec_constraints secs
    /\ variables prob = flat_map sec_variables secs.
Proof.
  unfold generate_lp_problem. intro H.
  apply bind_Ok in H. destruct H as [secs [Hs H]].
  inversion H; subst; clear H. exists secs. simpl.
  repeat split. apply mapM_Ok_Forall2. exact Hs.
Qed.

Lemma Forall2_In_l {A B : Type} (R : A -> B -> Prop) (l : list A) (l' : list B) (a : A) :
  Forall2 R l l' -> In a l -> exists b, In b l' /\ R a b.
Proof.
  induction 1 as [|x y l l' Hxy _ IH]; intro Hin; [destruct Hin|].
  destruct Hin as [E|Hin].
  - subst. exists y. split; [left; reflexivity | assumption].
  - destruct (IH Hin) as [b [H1 H2]]. exists b. split; [right; assumption | assumption].
Qed.

Lemma Forall2_In_r {A B : Type} (R : A -> B -> Prop) (l : list A) (l' : list B) (b : B) :
  Forall2 R l l' -> In b l' -> exists a, In a l /\ R a b.
Proof.
  induction 1 as [|x y l l' Hxy _ IH]; intro Hin; [destruct Hin|].
  destruct Hin as [E|Hin].
  - subst. exists x. split; [left; reflexivity | assumption].
  - destruct (IH Hin) as [a [H1 H2]]. exists a. split; [right; assumption | assumption].
Qed.

(** The section of a block of the assignment is part of the program. *)
Lemma generate_lp_problem_section (self : BlockOptimizer) (prob : LpProblem) (key : Z)
  (lu : LandUse) :
  generate_lp_problem self = Ok prob ->
  zget key (BLOCKS_LANUSE_DICT self) = Some lu ->
  exists sec,
    block_section self key = Ok sec
    /\ (forall c, In c (sec_constraints sec) -> In c (constraints prob))
    /\ (forall d, In d (sec_variables sec) -> In d (variables prob)).
Proof.
  intros H Hlu. apply generate_lp_problem_Ok in H.
  destruct H as [secs [HF [_ [Hc Hv]]]].
  assert (Hin : In key (zkeys (BLOCKS_LANUSE_DICT self))).
  { apply dict_get_keys. eauto. }
  destruct (Forall2_In_l _ _ _ _ HF Hin) as [sec [Hsec Hok]].
  exists sec. split; [exact Hok|]. split.
  - intros c Hc'. rewrite Hc. apply in_flat_map. eauto.
  - intros d Hd. rewrite Hv. apply in_flat_map. eauto.
Qed.

(** ** Density and bounds (C5) *)

Lemma value_built_area_expr (x : assignment) (key : Z) (bricks_df : list BrickRow.t) :
  (value x (built_area_expr key bricks_df) == built_area x key bricks_df)%Q.
Proof.
  unfold built_area_expr, built_area. rewrite value_lpSum, map_map.
  apply Qsum_map_Qeq. intros ib _. apply value_brick_term.
Qed.

Lemma value_fsi_expr (x : assignment) (key : Z) (bricks_df : list BrickRow.t) (A : Q) :
  (value x (fsi_expr key bricks_df A) == built_area x key bricks_df / A)%Q.
Proof.
  unfold fsi_expr, built_area. rewrite value_lpSum, map_map.
  induction (indexed bricks_df) as [|ib r IH]; simpl.
  - unfold Qdiv. ring.
  - rewrite IH, value_div, value_brick_term. unfold Qdiv. ring.
Qed.

Lemma indexed_from_In {A : Type} (l : list A) :
  forall start n, (start <= n < start + List.length l)%nat ->
                  exists a, In (n, a) (combine (seq start (List.length l)) l).
Proof.
  induction l as [|a r IH]; simpl; intros start n H; [lia|].
  destruct (Nat.eq_dec n start) as [E|N].
  - subst. exists a. left. reflexivity.
  - destruct (IH (S start) n) as [b Hb]; [lia|]. exists b. right. exact Hb.
Qed.

Lemma indexed_In {A : Type} (l : list A) (n : nat) :
  (n < List.length l)%nat -> exists a, In (n, a) (indexed l).
Proof. intro H. apply indexed_from_In. lia. Qed.

(** C5: in any assignment the program admits, for every block of the
    land-use assignment the built area is at most the site area, the
    floor-area ratio lies between the FSI bounds of the target land use
    (so it is positive: no block is left without bricks), and every brick
    count is a variable declared integer with lower bound 0 and the
    facility cap, if one is configured, as its only upper bound. *)
Theorem generate_lp_problem_density_bounds
  (self : BlockOptimizer) (prob : LpProblem) (x : assignment)
  (key : Z) (lu : LandUse) (bricks_df : list BrickRow.t) (block : Block.t) :
  generate_lp_problem self = Ok prob ->
  feasible prob x ->
  zget key (BLOCKS_LANUSE_DICT self) = Some lu ->
  zget key (BRICKS self) = Some bricks_df ->
  zget key (blocks (city_model self)) = Some block ->
  (built_area x key bricks_df <= Block.site_area block)%Q
  /\ (FSI_min (LAND_USE_INDICATORS lu)
      <= built_area x key bricks_df / Block.site_area block)%Q
  /\ (built_area x key bricks_df / Block.site_area block
      <= FSI_max (LAND_USE_INDICATORS lu))%Q
  /\ (0 < built_area x key bricks_df / Block.site_area block)%Q
  /\ forall n, (n < List.length bricks_df)%nat ->
       In (BrickVar key n,
           mkLpVariable (Some 0%Q) (option_map inject_Z (MAX_FACILITIES self)) LpInteger)
          (variables prob)
       /\ is_integer (x (BrickVar key n))
       /\ (0 <= x (BrickVar key n))%Q
       /\ (forall cap, MAX_FACILITIES self = Some cap ->
                       (x (BrickVar key n) <= inject_Z cap)%Q).
Proof.
  intros Hgen [Hcons Hvars] Hlu Hb Hblk.
  destruct (generate_lp_problem_section _ _ _ _ Hgen Hlu) as [sec [Hsec [Hc Hv]]].
  apply block_section_Ok in Hsec.
  destruct Hsec as [i [per [Ilu [_ [_ [Ib [_ [Iblk [_ [_ [_ [Ec Ev]]]]]]]]]]]].
  assert (E1 : in_lu i = lu) by congruence.
  assert (E2 : in_bricks i = bricks_df) by congruence.
  assert (E3 : in_block i = block) by congruence.
  rewrite E1, E2, E3 in Ec. rewrite E2 in Ev. clear Ilu Ib Iblk E1 E2 E3.
  rewrite Forall_forall in Hcons. rewrite Forall_forall in Hvars.
  assert (Hsat : forall c, In c (sec_constraints sec) -> satisfies x c)
    by (intros c Hin; apply Hcons, Hc, Hin).
  rewrite Ec in Hsat.
  assert (Hmax : satisfies x
            (mkLpConstraint (FsiMaxConstraint key)
               (fsi_expr key bricks_df (Block.site_area block))
               LpConstraintLE (FSI_max (LAND_USE_INDICATORS lu))))
    by (apply Hsat, in_or_app; right; simpl; tauto).
  assert (Hmin : satisfies x
            (mkLpConstraint (FsiMinConstraint key)
               (fsi_expr key bricks_df (Block.site_area block))
               LpConstraintGE (FSI_min (LAND_USE_INDICATORS lu))))
    by (apply Hsat, in_or_app; right; simpl; tauto).
  assert (Harea : satisfies x
            (mkLpConstraint (SiteAreaConstraint key) (built_area_expr key bricks_df)
               LpConstraintLE (Block.site_area block)))
    by (apply Hsat, in_or_app; right; simpl; tauto).
  unfold satisfies in Hmax, Hmin, Harea. simpl in Hmax, Hmin, Harea.
  rewrite value_fsi_expr in Hmax, Hmin. rewrite value_built_area_expr in Harea.
  split; [exact Harea|]. split; [exact Hmin|]. split; [exact Hmax|].
  split; [eapply Qlt_le_trans; [apply FSI_min_positive | exact Hmin]|].
  intros n Hn.
  destruct (indexed_In bricks_df n Hn) as [b Hin].
  assert (Hdecl : In (BrickVar key n,
                      mkLpVariable (Some 0%Q) (option_map inject_Z (MAX_FACILITIES self))
                                   LpInteger) (variables prob)).
  { apply Hv. rewrite Ev. apply in_or_app. left.
    apply in_map_iff. exists (n, b). split; [reflexivity | exact Hin]. }
  destruct (Hvars _ Hdecl) as [Hlow [Hup Hint]].
  simpl in Hlow, Hup, Hint.
  split; [exact Hdecl|].
  split; [apply Hint; reflexivity|]. split; [apply Hlow; reflexivity|].
  intros cap Hcap. apply Hup. rewrite Hcap. reflexivity.
Qed.

(** Evaluation of feasibility on a closed program. *)
Ltac closed_Qle := vm_compute; discriminate.

Ltac closed_bounds :=
  unfold within_bounds; simpl; split; [|split];
  [ intros l Hl; inversion Hl; subst; closed_Qle
  | intros u Hu; first [discriminate Hu | inversion Hu; subst; closed_Qle]
  | intros _;
    match goal with
    | |- is_integer ?q => let q' := eval vm_compute in q in
                          exists (Qnum q'); vm_compute; reflexivity
    end ].

Ltac closed_Forall tac :=
  repeat (apply Forall_cons; [tac|]); apply Forall_nil.

Lemma example_feasible : feasible Example.prob Example.thirteen_kindergartens.
Proof.
  split.
  - let l := eval vm_compute in (constraints Example.prob) in
    change (Forall (satisfies Example.thirteen_kindergartens) l).
    closed_Forall closed_Qle.
  - let l := eval vm_compute in (variables Example.prob) in
    change (Forall (within_bounds Example.thirteen_kindergartens) l).
    closed_Forall closed_bounds.
Defined.

(** Block 1 of the example city under thirteen kindergarten bricks. *)
Lemma generate_lp_problem_density_bounds_witness :
  (built_area Example.thirteen_kindergartens 1 (get_bricks_df (Example.service_types RESIDENTIAL))
   <= 10000)%Q
  /\ (FSI_min (LAND_USE_INDICATORS RESIDENTIAL)
      <= built_area Example.thirteen_kindergartens 1
           (get_bricks_df (Example.service_types RESIDENTIAL)) / 10000)%Q
  /\ (built_area Example.thirteen_kindergartens 1
        (get_bricks_df (Example.service_types RESIDENTIAL)) / 10000
      <= FSI_max (LAND_USE_INDICATORS RESIDENTIAL))%Q
  /\ (0 < built_area Example.thirteen_kindergartens 1
             (get_bricks_df (Example.service_types RESIDENTIAL)) / 10000)%Q
  /\ forall n, (n < 3)%nat ->
       In (BrickVar 1 n, mkLpVariable (Some 0%Q) (option_map inject_Z (Some 15%Z)) LpInteger)
          (variables Example.prob)
       /\ is_integer (Example.thirteen_kindergartens (BrickVar 1 n))
       /\ (0 <= Example.thirteen_kindergartens (BrickVar 1 n))%Q
       /\ (forall cap, Some 15%Z = Some cap ->
                       (Example.thirteen_kindergartens (BrickVar 1 n) <= inject_Z cap)%Q).
Proof.
  apply (generate_lp_problem_density_bounds Example.self Example.prob
           Example.thirteen_kindergartens 1 RESIDENTIAL
           (get_bricks_df (Example.service_types RESIDENTIAL))
           (Block.mk 10000 RECREATION 100 [])).
  - vm_compute. reflexivity.
  - exact example_feasible.
  - reflexivity.
  - reflexivity.
  - reflexivity.
Defined.

(** ** The conditional constraints (C6, C7) *)

Lemma in_deficitb_spec (c : Constants) : in_deficitb c = true <-> in_deficit c.
Proof.
  unfold in_deficitb, in_deficit. rewrite andb_true_iff, !Qltb_lt. tauto.
Qed.

Lemma service_section_constraints (self : BlockOptimizer) (key : Z) (lu : LandUse)
  (bricks_df : list BrickRow.t) (constants : Dict string Constants) (w : Q)
  (serv : ServiceType.t) (out : list LpAffineExpression * list LpConstraint) :
  service_section self key lu bricks_df constants w serv = Ok out ->
  exists c,
    sget (ServiceType.name serv) constants = Some c
    /\ forall k, In k (snd out) <->
         (in_deficit c /\ k = gap_constraint key bricks_df (ServiceType.name serv) c)
         \/ (in_surplus c /\ lu = RESIDENTIAL /\ k = slack_constraint key serv c).
Proof.
  intro H. apply service_section_Ok in H. destruct H as [_ [c [Hc E]]].
  exists c. split; [exact Hc|]. intro k. subst out. simpl.
  fold (in_deficitb c). rewrite in_app_iff.
  assert (D : in_deficitb c = true <-> in_deficit c) by apply in_deficitb_spec.
  assert (S : Qltb (demand_local c) (capacity_local c) && LandUse_eqb lu RESIDENTIAL = true
              <-> in_surplus c /\ lu = RESIDENTIAL).
  { rewrite andb_true_iff, Qltb_lt, LandUse_eqb_eq. unfold in_surplus. tauto. }
  destruct (in_deficitb c);
    destruct (Qltb (demand_local c) (capacity_local c) && LandUse_eqb lu RESIDENTIAL);
    simpl; unfold gap_constraint, slack_constraint; intuition (try discriminate; eauto).
Qed.

Lemma block_section_constraints (self : BlockOptimizer) (key : Z) (sec : BlockSection)
  (i : BlockInputs) :
  block_section self key = Ok sec ->
  zget key (BLOCKS_LANUSE_DICT self) = Some (in_lu i) ->
  zget key (NEW_SERVICE_TYPES self) = Some (in_new i) ->
  zget key (BRICKS self) = Some (in_bricks i) ->
  zget key (CONSTANTS self) = Some (in_constants i) ->
  zget key (blocks (city_model self)) = Some (in_block i) ->
  (forall serv, In serv (in_new i) ->
                exists c, sget (ServiceType.name serv) (fst (in_constants i)) = Some c)
  /\ forall k, In k (sec_constraints sec) <->
       (exists serv c,
          In serv (in_new i)
          /\ sget (ServiceType.name serv) (fst (in_constants i)) = Some c
          /\ ((in_deficit c
               /\ k = gap_constraint key (in_bricks i) (ServiceType.name serv) c)
              \/ (in_surplus c /\ in_lu i = RESIDENTIAL
                  /\ k = slack_constraint key serv c)))
       \/ k = mkLpConstraint (FsiMaxConstraint key)
                (fsi_expr key (in_bricks i) (Block.site_area (in_block i)))
                LpConstraintLE (FSI_max (LAND_USE_INDICATORS (in_lu i)))
       \/ k = mkLpConstraint (FsiMinConstraint key)
                (fsi_expr key (in_bricks i) (Block.site_area (in_block i)))
                LpConstraintGE (FSI_min (LAND_USE_INDICATORS (in_lu i)))
       \/ k = mkLpConstraint (SiteAreaConstraint key) (built_area_expr key (in_bricks i))
                LpConstraintLE (Block.site_area (in_block i)).
Proof.
  intros H Hlu Hnew Hb Hcm Hblk. apply block_section_Ok in H.
  destruct H as [j [per [Jlu [Jnew [_ [Jb [Jcm [Jblk [_ [Hper [_ [Ec _]]]]]]]]]]]].
  assert (E1 : in_lu j = in_lu i) by congruence.
  assert (E2 : in_new j = in_new i) by congruence.
  assert (E3 : in_bricks j = in_bricks i) by congruence.
  assert (E4 : in_constants j = in_constants i) by congruence.
  assert (E5 : in_block j = in_block i) by congruence.
  rewrite E1, E2, E3, E4 in Hper. rewrite E1, E3, E5 in Ec.
  clear Jlu Jnew Jb Jcm Jblk E1 E2 E3 E4 E5.
  split.
  - intros serv Hin. destruct (mapM_In _ _ _ serv Hper Hin) as [out [Hout _]].
    apply service_section_constraints in Hout. destruct Hout as [c [Hc _]]. eauto.
  - intro k. rewrite Ec, in_app_iff, in_flat_map. simpl. split.
    + intros [[out [Hout Hk]] | H]; [left | right; intuition congruence].
      destruct (mapM_In_inv _ _ _ out Hper Hout) as [serv [Hin Hs]].
      apply service_section_constraints in Hs. destruct Hs as [c [Hc Hiff]].
      exists serv, c. split; [exact Hin|]. split; [exact Hc|]. apply Hiff, Hk.
    + intros [[serv [c [Hin [Hc Hk]]]] | H]; [left | right; intuition congruence].
      destruct (mapM_In _ _ _ serv Hper Hin) as [out [Hs Hout]].
      exists out. split; [exact Hout|].
      apply service_section_constraints in Hs. destruct Hs as [c' [Hc' Hiff]].
      assert (c' = c) by congruence. subst c'. apply Hiff, Hk.
Qed.

Lemma block_section_cname_key (self : BlockOptimizer) (key : Z) (sec : BlockSection)
  (k : LpConstraint) :
  block_section self key = Ok sec -> In k (sec_constraints sec) ->
  cname_key (cname k) = key.
Proof.
  intros H Hk. pose proof H as H0. apply block_section_Ok in H0.
  destruct H0 as [i [_ [Hlu [Hnew [_ [Hb [Hcm [Hblk _]]]]]]]].
  destruct (block_section_constraints self key sec i H Hlu Hnew Hb Hcm Hblk) as [_ Hiff].
  apply Hiff in Hk.
  destruct Hk as [[serv [c [_ [_ [[_ E] | [_ [_ E]]]]]]] | [E | [E | E]]]; subst k; reflexivity.
Qed.

(** The constraints of the program added for a block are those of its
    section. *)
Lemma generate_lp_problem_constraints_of (self : BlockOptimizer) (prob : LpProblem)
  (key : Z) (sec : BlockSection) (k : LpConstraint) :
  generate_lp_problem self = Ok prob ->
  block_section self key = Ok sec ->
  In k (constraints prob) -> cname_key (cname k) = key ->
  In k (sec_constraints sec).
Proof.
  intros H Hsec Hk Hkey. apply generate_lp_problem_Ok in H.
  destruct H as [secs [HF [_ [Hc _]]]].
  rewrite Hc in Hk. apply in_flat_map in Hk. destruct Hk as [sec' [Hin' Hk]].
  destruct (Forall2_In_r _ _ _ _ HF Hin') as [key' [_ Hsec']].
  assert (key' = key).
  { rewrite <- Hkey. symmetry. eapply block_section_cname_key; eauto. }
  subst key'. congruence.
Qed.

Lemma value_fit_function (x : assignment) (key : Z) (bricks_df : list BrickRow.t)
  (serv : string) :
  (value x (fit_function_of key bricks_df serv) == built_capacity x key bricks_df serv)%Q.
Proof.
  unfold fit_function_of, built_capacity. rewrite value_lpSum, map_map.
  apply Qsum_map_Qeq. intros ib _. apply value_brick_term.
Qed.

(** C6: the program holds the constraint built capacity <= local demand -
    local capacity for a block and a candidate service type exactly when
    local demand is positive and local capacity is below it; an assignment
    the program admits then builds at most that gap. *)
Theorem generate_lp_problem_gap
  (self : BlockOptimizer) (prob : LpProblem) (key : Z) (lu : LandUse)
  (new : list ServiceType.t) (bricks_df : list BrickRow.t)
  (cm : Dict string Constants * Q) (serv : ServiceType.t) (c : Constants) :
  generate_lp_problem self = Ok prob ->
  zget key (BLOCKS_LANUSE_DICT self) = Some lu ->
  zget key (NEW_SERVICE_TYPES self) = Some new ->
  zget key (BRICKS self) = Some bricks_df ->
  zget key (CONSTANTS self) = Some cm ->
  In serv new ->
  sget (ServiceType.name serv) (fst cm) = Some c ->
  ((exists k, In k (constraints prob)
              /\ cname k = GapConstraint key (ServiceType.name serv))
   <-> (0 < demand_local c)%Q /\ (capacity_local c < demand_local c)%Q)
  /\ (forall k, In k (constraints prob) ->
                cname k = GapConstraint key (ServiceType.name serv) ->
                k = mkLpConstraint (GapConstraint key (ServiceType.name serv))
                      (fit_function_of key bricks_df (ServiceType.name serv))
                      LpConstraintLE (demand_local c - capacity_local c))
  /\ (forall x, feasible prob x ->
                (0 < demand_local c)%Q -> (capacity_local c < demand_local c)%Q ->
                (built_capacity x key bricks_df (ServiceType.name serv)
                 <= demand_local c - capacity_local c)%Q).
Proof.
  intros Hgen Hlu Hnew Hb Hcm Hin Hc.
  destruct (generate_lp_problem_section _ _ _ _ Hgen Hlu) as [sec [Hsec [Hsub _]]].
  pose proof Hsec as H0. apply block_section_Ok in H0.
  destruct H0 as [i [_ [Ilu [Inew [_ [Ib [Icm [Iblk _]]]]]]]].
  destruct (block_section_constraints self key sec i Hsec Ilu Inew Ib Icm Iblk)
    as [_ Hiff].
  assert (E2 : in_new i = new) by congruence.
  assert (E3 : in_bricks i = bricks_df) by congruence.
  assert (E4 : in_constants i = cm) by congruence.
  rewrite E2, E3, E4 in Hiff.
  assert (Hnamed : forall k, In k (constraints prob) ->
                     cname k = GapConstraint key (ServiceType.name serv) ->
                     in_deficit c
                     /\ k = gap_constraint key bricks_df (ServiceType.name serv) c).
  { intros k Hk Hn.
    assert (Hks : In k (sec_constraints sec)).
    { eapply generate_lp_problem_constraints_of; eauto. rewrite Hn. reflexivity. }
    apply Hiff in Hks.
    destruct Hks as [[s [c' [_ [Hc' [[Hd E] | [_ [_ E]]]]]]] | [E | [E | E]]];
      subst k; simpl in Hn; try discriminate Hn.
    inversion Hn as [En]. rewrite En in Hc'.
    assert (c' = c) by congruence. subst c'. rewrite En. auto. }
  assert (Hpresent : in_deficit c ->
                     In (gap_constraint key bricks_df (ServiceType.name serv) c)
                        (constraints prob)).
  { intro Hd. apply Hsub, Hiff. left. exists serv, c. auto. }
  split; [split|split].
  - intros [k [Hk Hn]]. apply (Hnamed k Hk Hn).
  - intro Hd. eexists. split; [apply Hpresent, Hd | reflexivity].
  - intros k Hk Hn. apply (Hnamed k Hk Hn).
  - intros x [Hcons _] Hd1 Hd2. rewrite Forall_forall in Hcons.
    specialize (Hcons _ (Hpresent (conj Hd1 Hd2))).
    unfold satisfies in Hcons. simpl in Hcons.
    rewrite value_fit_function in Hcons. exact Hcons.
Qed.

(** School bricks of block 1 of the example city. *)
Lemma generate_lp_problem_gap_witness :
  ((exists k, In k (constraints Example.prob) /\ cname k = GapConstraint 1 "school")
   <-> (0 < 720)%Q /\ (115 < 720)%Q)
  /\ (forall k, In k (constraints Example.prob) ->
                cname k = GapConstraint 1 "school" ->
                k = mkLpConstraint (GapConstraint 1 "school")
                      (fit_function_of 1 (get_bricks_df (Example.service_types RESIDENTIAL))
                                       "school")
                      LpConstraintLE (720 - 115))
  /\ (forall x, feasible Example.prob x -> (0 < 720)%Q -> (115 < 720)%Q ->
                (built_capacity x 1 (get_bricks_df (Example.service_types RESIDENTIAL))
                                "school" <= 720 - 115)%Q).
Proof.
  apply (generate_lp_problem_gap Example.self Example.prob 1 RESIDENTIAL
           [Example.school; Example.kindergarten]
           (get_bricks_df (Example.service_types RESIDENTIAL))
           Example.constants1 Example.school (mkConstants 720 115)).
  - vm_compute. reflexivity.
  - reflexivity.
  - reflexivity.
  - reflexivity.
  - vm_compute. reflexivity.
  - left. reflexivity.
  - vm_compute. reflexivity.
Defined.

Lemma mapM_ext {A B : Type} (f g : A -> result B) (l : list A) :
  (forall a, In a l -> f a = g a) -> mapM f l = mapM g l.
Proof.
  induction l as [|a r IH]; simpl; intro H; [reflexivity|].
  rewrite (H a (or_introl eq_refl)), IH; [reflexivity|].
  intros b Hb. apply H. right. exact Hb.
Qed.

Lemma zget_with_ceilings (f : Z -> Q) (d : Dict Z (Dict string Constants * Q)) (key : Z) :
  zget key (map (fun kv => (fst kv, (fst (snd kv), f (fst kv)))) d)
  = option_map (fun cm => (fst cm, f key)) (zget key d).
Proof.
  induction d as [|[k v] r IH]; simpl; [reflexivity|].
  destruct (Z.eq_dec key k); [subst; reflexivity | exact IH].
Qed.

Lemma block_section_with_ceilings (f : Z -> Q) (self : BlockOptimizer) (key : Z) :
  block_section (with_ceilings f self) key = block_section self key.
Proof.
  unfold block_section. simpl.
  destruct (zget key (BLOCKS_LANUSE_DICT self)) as [lu|]; [simpl | reflexivity].
  destruct (zget key (NEW_SERVICE_TYPES self)) as [new|]; [simpl | reflexivity].
  destruct new as [|s new]; [reflexivity | simpl].
  destruct (zget key (BRICKS self)) as [bricks_df|]; [simpl | reflexivity].
  rewrite zget_with_ceilings.
  destruct (zget key (CONSTANTS self)) as [cm|]; reflexivity.
Qed.

Lemma generate_lp_problem_with_ceilings (f : Z -> Q) (self : BlockOptimizer) :
  generate_lp_problem (with_ceilings f self) = generate_lp_problem self.
Proof.
  unfold generate_lp_problem. simpl.
  rewrite (mapM_ext (block_section (with_ceilings f self)) (block_section self));
    [reflexivity|].
  intros key _. apply block_section_with_ceilings.
Qed.

Lemma mentions_brick_sum (v : LpVar) (key : Z) (g : nat * BrickRow.t -> Q)
  (h : LpAffineExpression -> LpAffineExpression) (l : list (nat * BrickRow.t)) :
  (forall e u, In u (map fst (terms (h e))) -> In u (map fst (terms e))) ->
  mentions v (lpSum (map (fun ib => h (expr_scale (g ib) (expr_var (BrickVar key (fst ib)))))
                         l)) ->
  exists n, v = BrickVar key n.
Proof.
  intros Hh. unfold mentions. rewrite terms_lpSum, flat_map_concat_map, map_map.
  rewrite concat_map, map_map. intro H. apply in_concat in H.
  destruct H as [ts [Hts Hv]]. apply in_map_iff in Hts. destruct Hts as [ib [E _]].
  subst ts. apply Hh in Hv. unfold expr_scale in Hv.
  destruct (Qzerob (g ib)); simpl in Hv; [destruct Hv|].
  destruct Hv as [E|[]]. eauto.
Qed.

Lemma mentions_fit_function (v : LpVar) (key : Z) (bricks_df : list BrickRow.t)
  (serv : string) :
  mentions v (fit_function_of key bricks_df serv) -> exists n, v = BrickVar key n.
Proof.
  unfold fit_function_of.
  apply (mentions_brick_sum v key (fun ib => BrickRow.capacity (snd ib)) (fun e => e)).
  auto.
Qed.

Lemma mentions_built_area_expr (v : LpVar) (key : Z) (bricks_df : list BrickRow.t) :
  mentions v (built_area_expr key bricks_df) -> exists n, v = BrickVar key n.
Proof.
  unfold built_area_expr.
  apply (mentions_brick_sum v key (fun ib => BrickRow.area (snd ib)) (fun e => e)).
  auto.
Qed.

Lemma mentions_fsi_expr (v : LpVar) (key : Z) (bricks_df : list BrickRow.t) (A : Q) :
  mentions v (fsi_expr key bricks_df A) -> exists n, v = BrickVar key n.
Proof.
  unfold fsi_expr.
  apply (mentions_brick_sum v key (fun ib => BrickRow.area (snd ib))
           (fun e => expr_div e A)).
  intros e u. unfold expr_div. simpl. rewrite map_map. simpl. auto.
Qed.

Lemma mentions_demand_from_new_population (v : LpVar) (key : Z) (serv : ServiceType.t) :
  mentions v (demand_from_new_population_of key serv) -> v = PopulationVar key.
Proof.
  unfold mentions, demand_from_new_population_of, expr_div, expr_scale.
  destruct (Qzerob (ServiceType.demand serv)); simpl.
  - intros [].
  - intros [E|[]]. congruence.
Qed.

Lemma block_section_variables_population (self : BlockOptimizer) (key key' : Z)
  (sec : BlockSection) (d : LpVariable) :
  block_section self key' = Ok sec ->
  In (PopulationVar key, d) (sec_variables sec) ->
  d = mkLpVariable (Some 0%Q) None LpInteger.
Proof.
  intros H Hin. apply block_section_Ok in H.
  destruct H as [i [per [_ [_ [_ [_ [_ [_ [_ [_ [_ [_ Ev]]]]]]]]]]]].
  rewrite Ev in Hin. apply in_app_iff in Hin. destruct Hin as [Hin | [E|[]]].
  - apply in_map_iff in Hin. destruct Hin as [ib [E _]]. discriminate E.
  - congruence.
Qed.

(** C7: the population variable of a block is a non-negative integer
    without upper bound; the only constraints that mention it are the
    slack constraints added demand <= local capacity - local demand, present
    exactly for the candidate service types with local capacity above local
    demand when the target land use is residential; the program is the same
    whatever the population ceilings are. *)
Theorem generate_lp_problem_population
  (self : BlockOptimizer) (prob : LpProblem) (key : Z) (lu : LandUse)
  (new : list ServiceType.t) (cm : Dict string Constants * Q) :
  generate_lp_problem self = Ok prob ->
  zget key (BLOCKS_LANUSE_DICT self) = Some lu ->
  zget key (NEW_SERVICE_TYPES self) = Some new ->
  zget key (CONSTANTS self) = Some cm ->
  In (PopulationVar key, mkLpVariable (Some 0%Q) None LpInteger) (variables prob)
  /\ (forall d, In (PopulationVar key, d) (variables prob) ->
                d = mkLpVariable (Some 0%Q) None LpInteger)
  /\ (forall k, In k (constraints prob) -> mentions (PopulationVar key) (lhs k) ->
        exists serv c,
          In serv new
          /\ sget (ServiceType.name serv) (fst cm) = Some c
          /\ (demand_local c < capacity_local c)%Q
          /\ lu = RESIDENTIAL
          /\ k = mkLpConstraint (SlackConstraint key (ServiceType.name serv))
                   (expr_div (expr_scale (ServiceType.demand serv)
                                         (expr_var (PopulationVar key))) 1000)
                   LpConstraintLE (capacity_local c - demand_local c))
  /\ (forall serv c,
        In serv new -> sget (ServiceType.name serv) (fst cm) = Some c ->
        (In (mkLpConstraint (SlackConstraint key (ServiceType.name serv))
               (expr_div (expr_scale (ServiceType.demand serv)
                                     (expr_var (PopulationVar key))) 1000)
               LpConstraintLE (capacity_local c - demand_local c))
            (constraints prob)
         <-> (demand_local c < capacity_local c)%Q /\ lu = RESIDENTIAL))
  /\ (forall ceilings, generate_lp_problem (with_ceilings ceilings self) = Ok prob).
Proof.
  intros Hgen Hlu Hnew Hcm.
  destruct (generate_lp_problem_section _ _ _ _ Hgen Hlu) as [sec [Hsec [Hsub Hvsub]]].
  pose proof Hsec as H0. apply block_section_Ok in H0.
  destruct H0 as [i [_ [Ilu [Inew [_ [Ib [Icm [Iblk [_ [_ [_ [_ Ev]]]]]]]]]]]].
  destruct (block_section_constraints self key sec i Hsec Ilu Inew Ib Icm Iblk)
    as [_ Hiff].
  assert (E1 : in_lu i = lu) by congruence.
  assert (E2 : in_new i = new) by congruence.
  assert (E4 : in_constants i = cm) by congruence.
  rewrite E1, E2, E4 in Hiff.
  split; [|split; [|split; [|split]]].
  - apply Hvsub. rewrite Ev. apply in_or_app. right. left. reflexivity.
  - intros d Hd. pose proof Hgen as G. apply generate_lp_problem_Ok in G.
    destruct G as [secs [HF [_ [_ Hv]]]]. rewrite Hv in Hd.
    apply in_flat_map in Hd. destruct Hd as [sec' [Hin' Hd]].
    destruct (Forall2_In_r _ _ _ _ HF Hin') as [key' [_ Hsec']].
    eapply block_section_variables_population; eauto.
  - intros k Hk Hm. pose proof Hgen as G. apply generate_lp_problem_Ok in G.
    destruct G as [secs [HF [_ [Hc _]]]]. rewrite Hc in Hk.
    apply in_flat_map in Hk. destruct Hk as [sec' [Hin' Hk]].
    destruct (Forall2_In_r _ _ _ _ HF Hin') as [key' [_ Hsec']].
    pose proof Hsec' as H1. apply block_section_Ok in H1.
    destruct H1 as [j [_ [Jlu [Jnew [_ [Jb [Jcm [Jblk _]]]]]]]].
    destruct (block_section_constraints self key' sec' j Hsec' Jlu Jnew Jb Jcm Jblk)
      as [_ Jiff].
    apply Jiff in Hk.
    destruct Hk as [[serv [c [Hin [Hc' [[_ E] | [Hs [Hres E]]]]]]] | [E | [E | E]]];
      subst k; simpl in Hm.
    + apply mentions_fit_function in Hm. destruct Hm as [n Hn]. discriminate Hn.
    + apply mentions_demand_from_new_population in Hm.
      assert (key' = key) by congruence. subst key'.
      exists serv, c.
      assert (in_new j = new) by congruence.
      assert (in_constants j = cm) by congruence.
      assert (in_lu j = lu) by congruence.
      split; [congruence|]. split; [congruence|]. split; [exact Hs|].
      split; [congruence | reflexivity].
    + apply mentions_fsi_expr in Hm. destruct Hm as [n Hn]. discriminate Hn.
    + apply mentions_fsi_expr in Hm. destruct Hm as [n Hn]. discriminate Hn.
    + apply mentions_built_area_expr in Hm. destruct Hm as [n Hn]. discriminate Hn.
  - intros serv c Hin Hc. fold (demand_from_new_population_of key serv).
    fold (slack_constraint key serv c). split.
    + intro Hk.
      assert (Hks : In (slack_constraint key serv c) (sec_constraints sec)).
      { eapply generate_lp_problem_constraints_of; eauto. }
      apply Hiff in Hks.
      destruct Hks as [[s [c' [_ [Hc' [[_ E] | [Hs [Hres E]]]]]]] | [E | [E | E]]];
        try discriminate E.
      inversion E as [[En Ed Er]]. rewrite <- En in Hc'.
      assert (c' = c) by congruence. subst c'. split; assumption.
    + intros [Hs Hres]. apply Hsub, Hiff. left. exists serv, c.
      split; [exact Hin|]. split; [exact Hc|]. right.
      split; [exact Hs|]. split; [exact Hres | reflexivity].
  - intro ceilings. rewrite generate_lp_problem_with_ceilings. exact Hgen.
Qed.

(** The population variable of block 1 of the example city. *)
Lemma generate_lp_problem_population_witness :
  In (PopulationVar 1, mkLpVariable (Some 0%Q) None LpInteger) (variables Example.prob)
  /\ (forall d, In (PopulationVar 1, d) (variables Example.prob) ->
                d = mkLpVariable (Some 0%Q) None LpInteger)
  /\ (forall k, In k (constraints Example.prob) -> mentions (PopulationVar 1) (lhs k) ->
        exists serv c,
          In serv [Example.school; Example.kindergarten]
          /\ sget (ServiceType.name serv) (fst Example.constants1) = Some c
          /\ (demand_local c < capacity_local c)%Q
          /\ RESIDENTIAL = RESIDENTIAL
          /\ k = mkLpConstraint (SlackConstraint 1 (ServiceType.name serv))
                   (expr_div (expr_scale (ServiceType.demand serv)
                                         (expr_var (PopulationVar 1))) 1000)
                   LpConstraintLE (capacity_local c - demand_local c))
  /\ (forall serv c,
        In serv [Example.school; Example.kindergarten] ->
        sget (ServiceType.name serv) (fst Example.constants1) = Some c ->
        (In (mkLpConstraint (SlackConstraint 1 (ServiceType.name serv))
               (expr_div (expr_scale (ServiceType.demand serv)
                                     (expr_var (PopulationVar 1))) 1000)
               LpConstraintLE (capacity_local c - demand_local c))
            (constraints Example.prob)
         <-> (demand_local c < capacity_local c)%Q /\ RESIDENTIAL = RESIDENTIAL))
  /\ (forall ceilings,
        generate_lp_problem (with_ceilings ceilings Example.self) = Ok Example.prob).
Proof.
  apply (generate_lp_problem_population Example.self Example.prob 1 RESIDENTIAL
           [Example.school; Example.kindergarten] Example.constants1).
  - vm_compute. reflexivity.
  - reflexivity.
  - reflexivity.
  - vm_compute. reflexivity.
Defined.

(** ** The objective (C2) *)

Lemma value_demand_from_new_population (x : assignment) (key : Z) (serv : ServiceType.t) :
  (value x (demand_from_new_population_of key serv) == added_demand x key serv)%Q.
Proof.
  unfold demand_from_new_population_of, added_demand.
  rewrite value_div, value_scale, value_var. unfold Qdiv. ring.
Qed.

Lemma service_section_components (self : BlockOptimizer) (x : assignment) (key : Z)
  (lu : LandUse) (new : list ServiceType.t) (bricks_df : list BrickRow.t)
  (cm : Dict string Constants * Q) (serv : ServiceType.t)
  (out : list LpAffineExpression * list LpConstraint) :
  zget key (NEW_SERVICE_TYPES self) = Some new ->
  zget key (BRICKS self) = Some bricks_df ->
  zget key (CONSTANTS self) = Some cm ->
  service_section self key lu bricks_df (fst cm) (default_weight_of self new) serv = Ok out ->
  (Qsum (map (value x) (fst out))
   == Qsum (map (pair_term self x) (filter (pair_in_deficit self) [(key, serv)])))%Q.
Proof.
  intros Hnew Hb Hcm H. apply service_section_Ok in H. destruct H as [_ [c [Hc E]]].
  subst out. simpl. unfold pair_in_deficit. simpl. rewrite Hcm, Hc.
  fold (in_deficitb c). destruct (in_deficitb c); simpl; [|reflexivity].
  unfold pair_term. simpl. rewrite Hnew, Hb, Hcm, Hc.
  rewrite value_scale, value_sub, !value_add, !value_const, value_fit_function,
    value_demand_from_new_population.
  unfold service_weight_of. ring.
Qed.

Lemma filter_map_pairs_cons (self : BlockOptimizer) (key : Z) (serv : ServiceType.t)
  (rest : list ServiceType.t) :
  filter (pair_in_deficit self) (map (pair key) (serv :: rest))
  = filter (pair_in_deficit self) [(key, serv)]
    ++ filter (pair_in_deficit self) (map (pair key) rest).
Proof. simpl. destruct (pair_in_deficit self (key, serv)); reflexivity. Qed.

Lemma block_section_components (self : BlockOptimizer) (x : assignment) (key : Z)
  (sec : BlockSection) :
  block_section self key = Ok sec ->
  exists new,
    zget key (NEW_SERVICE_TYPES self) = Some new
    /\ (Qsum (map (value x) (sec_components sec))
        == Qsum (map (pair_term self x)
                     (filter (pair_in_deficit self) (map (pair key) new))))%Q.
Proof.
  intro H. apply block_section_Ok in H.
  destruct H as [i [per [_ [Hnew [_ [Hb [Hcm [_ [_ [Hper [Ec _]]]]]]]]]]].
  exists (in_new i). split; [exact Hnew|]. rewrite Ec. clear Ec.
  apply mapM_Ok_Forall2 in Hper.
  induction Hper as [|serv out servs outs Hout _ IH].
  - reflexivity.
  - rewrite filter_map_pairs_cons. simpl flat_map.
    rewrite !map_app, !Qsum_app, IH.
    rewrite (service_section_components self x key (in_lu i) (in_new i) (in_bricks i)
               (in_constants i) serv out Hnew Hb Hcm Hout).
    reflexivity.
Qed.

(** C2, as the code has it: the objective is the sum of weight * (C - D)
    over the block-category pairs whose local demand is positive and
    exceeds local capacity; the other pairs contribute no term. *)
Theorem generate_lp_problem_objective
  (self : BlockOptimizer) (prob : LpProblem) (x : assignment) :
  generate_lp_problem self = Ok prob ->
  (value x (objective prob) == objective_over_deficit self x)%Q.
Proof.
  intro H. apply generate_lp_problem_Ok in H. destruct H as [secs [HF [Eo _]]].
  rewrite Eo, value_lpSum. unfold objective_over_deficit, candidate_pairs. clear Eo.
  induction HF as [|key sec keys secs Hsec _ IH].
  - reflexivity.
  - simpl flat_map. rewrite filter_app, !map_app, !Qsum_app, IH.
    destruct (block_section_components self x key sec Hsec) as [new [Hnew E]].
    rewrite Hnew, E. reflexivity.
Qed.

(** The objective of the program of the example city. *)
Lemma generate_lp_problem_objective_witness :
  (value Example.thirteen_kindergartens (objective Example.prob)
   == objective_over_deficit Example.self Example.thirteen_kindergartens)%Q.
Proof.
  apply (generate_lp_problem_objective Example.self Example.prob
           Example.thirteen_kindergartens).
  vm_compute. reflexivity.
Defined.

(** C2 as stated fails: in the example city the kindergarten of block 1 is
    a candidate pair that is not in deficit, and under thirteen kindergarten
    bricks the objective differs from the sum over all pairs. *)
Lemma objective_over_all_counterexample :
  generate_lp_problem Example.self = Ok Example.prob
  /\ In (1%Z, Example.kindergarten) (candidate_pairs Example.self)
  /\ ~ (value Example.thirteen_kindergartens (objective Example.prob)
        == objective_over_all Example.self Example.thirteen_kindergartens)%Q.
Proof.
  split; [vm_compute; reflexivity|]. split; [right; left; reflexivity|].
  intro H. vm_compute in H. discriminate H.
Qed.

(** ** Service types without bricks (C8) *)

Lemma get_bricks_df_In (service_types : list ServiceType.t) (row : BrickRow.t) :
  In row (get_bricks_df service_types) ->
  exists serv, In serv service_types
               /\ BrickRow.service_type row = ServiceType.name serv
               /\ ServiceType.bricks serv <> [].
Proof.
  unfold get_bricks_df. rewrite in_flat_map. intros [serv [Hs Hr]].
  apply in_map_iff in Hr. destruct Hr as [brick [E Hb]].
  exists serv. split; [exact Hs|]. split; [subst row; reflexivity|].
  intro E0. rewrite E0 in Hb. destruct Hb.
Qed.

Lemma indexed_In_snd {A : Type} (l : list A) (ia : nat * A) :
  In ia (indexed l) -> In (snd ia) l.
Proof. destruct ia as [n a]. unfold indexed. intro H. eapply in_combine_r. exact H. Qed.

Lemma fit_function_of_brickless (key : Z) (new : list ServiceType.t) (serv : ServiceType.t) :
  (forall s, In s new -> ServiceType.name s = ServiceType.name serv ->
             ServiceType.bricks s = []) ->
  fit_function_of key (get_bricks_df new) (ServiceType.name serv) = expr_const 0.
Proof.
  intro H. unfold fit_function_of.
  destruct (filter (fun ib => String.eqb (BrickRow.service_type (snd ib))
                                         (ServiceType.name serv))
                   (indexed (get_bricks_df new))) as [|ib rest] eqn:Ef; [reflexivity|].
  exfalso.
  assert (Hib : In ib (ib :: rest)) by (left; reflexivity).
  rewrite <- Ef in Hib. apply filter_In in Hib. destruct Hib as [Hib Eb].
  apply String.eqb_eq in Eb.
  apply indexed_In_snd in Hib. apply get_bricks_df_In in Hib.
  destruct Hib as [s [Hs [E Hne]]].
  apply Hne. apply H; [exact Hs | congruence].
Qed.

Lemma service_section_total (self : BlockOptimizer) (key : Z) (lu : LandUse)
  (bricks_df : list BrickRow.t) (constants : Dict string Constants) (w : Q)
  (serv : ServiceType.t) :
  bricks_df <> [] -> sget (ServiceType.name serv) constants <> None ->
  exists out, service_section self key lu bricks_df constants w serv = Ok out.
Proof.
  intros Hb Hc. unfold service_section.
  destruct bricks_df as [|b r]; [congruence|]. simpl.
  destruct (sget (ServiceType.name serv) constants) as [c|]; [|congruence].
  simpl. eauto.
Qed.

Lemma block_section_total (self : BlockOptimizer) (key : Z) :
  In key (zkeys (BLOCKS_LANUSE_DICT self)) -> block_ready self key ->
  exists sec, block_section self key = Ok sec.
Proof.
  intros Hin [new [bricks_df [cm [block [Hnew [Hne [Hb [Hbne [Hcm [Hc [Hblk Hz]]]]]]]]]]].
  apply dict_get_keys in Hin. destruct Hin as [lu Hlu].
  unfold block_section. rewrite Hlu, Hnew. simpl.
  destruct new as [|s0 new0] eqn:En; [congruence|]. rewrite <- En in *. simpl.
  rewrite Hb, Hcm. simpl.
  destruct (mapM_total
              (service_section self key lu bricks_df (fst cm)
                 ((1 - scenario_coef_sum self new) / inject_Z (Z.of_nat (List.length new))))
              new) as [per Hper].
  { intros serv Hs. apply service_section_total; [exact Hbne | apply Hc, Hs]. }
  rewrite Hper. simpl. rewrite Hblk. simpl.
  apply Qzerob_false in Hz. rewrite Hz. simpl. eauto.
Qed.

(** C8 fails on a block all of whose candidate service types lack brick
    options.  Offices are the only service type of business land in the
    example city and have no brick: turning block 1 into business land
    stops with [AttributeError] while the program is being built, whatever
    the engine.  Beside a service type with a brick the same offices do no
    harm: for industrial land (offices and parks) the program is built and
    the offices contribute the empty built-capacity expression. *)
Theorem calculate_all_brickless :
  get_land_use_service_types Example.city BUSINESS = [Example.office]
  /\ ServiceType.bricks Example.office = []
  /\ (forall solve : LpProblem -> LpStatusCode * solution,
        calculate Example.set_union solve Example.city [(1%Z, BUSINESS)] [] (Some 15%Z)
        = ([Entered StageBuild], Raise AttributeError))
  /\ get_land_use_service_types Example.city INDUSTRIAL = [Example.office; Example.park]
  /\ exists prob,
       generate_lp_problem Example.self_industrial = Ok prob
       /\ fit_function_of 1 (get_bricks_df [Example.office; Example.park]) "office"
          = expr_const 0.
Proof.
  split; [reflexivity|]. split; [reflexivity|]. split; [|split; [reflexivity|]].
  - intro solve. vm_compute. reflexivity.
  - eexists. split; [vm_compute; reflexivity|].
    apply (fit_function_of_brickless 1 [Example.office; Example.park] Example.office).
    intros s [E|[E|[]]] En; subst s; [reflexivity | discriminate En].
Qed.

(** ** The pipeline (C1) *)

(** C1, as the code has it: once the program is built, whatever status the
    engine reports, [calculate] prints the status and then runs the decoder
    on the engine's assignment.  A failure of the decoder is the failure of
    [calculate], a result of the decoder is the update table of the bundle,
    and the outcome is the same for any engine that returns the same
    assignment, whatever its status. *)
Theorem calculate_decodes_whatever_status
  (set_union : list ServiceType.t -> list ServiceType.t -> list ServiceType.t)
  (solve : LpProblem -> LpStatusCode * solution)
  (city : CityModel) (blocks_landuse_dict : Dict Z LandUse) (scenario : Dict string Q)
  (max_facilities : option Z) (self : BlockOptimizer) (prob : LpProblem) :
  prepare set_union city blocks_landuse_dict scenario max_facilities = Ok self ->
  generate_lp_problem self = Ok prob ->
  let run := calculate set_union solve city blocks_landuse_dict scenario max_facilities in
  let decoded := get_optimal_update_df self prob (snd (solve prob)) in
  (exists rest,
     fst run = [Entered StageBuild; Entered StageSolve;
                Printed (LpStatus (fst (solve prob))); Entered StageDecode] ++ rest)
  /\ (forall e, decoded = Raise e -> snd run = Raise e)
  /\ (forall d b, decoded = Ok d -> snd run = Ok b ->
                  optimal_update_df b = fillna0 (fst (fst d))
                  /\ bricks_to_build_df b = snd (fst d)
                  /\ provision b = snd d)
  /\ (forall solve',
        snd (solve' prob) = snd (solve prob) ->
        snd (calculate set_union solve' city blocks_landuse_dict scenario max_facilities)
        = snd run).
Proof.
  intros Hprep Hgen run decoded.
  assert (Hrun : forall engine,
            calculate set_union engine city blocks_landuse_dict scenario max_facilities
            = match get_optimal_update_df self prob (snd (engine prob)) with
              | Raise e => ([Entered StageBuild; Entered StageSolve;
                             Printed (LpStatus (fst (engine prob))); Entered StageDecode],
                            Raise e)
              | Ok d =>
                  match mapM (fun key => get_deleting_update_df self key true)
                             (zkeys (BLOCKS_LANUSE_DICT self)) with
                  | Raise e => ([Entered StageBuild; Entered StageSolve;
                                 Printed (LpStatus (fst (engine prob)));
                                 Entered StageDecode; Entered StageDemolition], Raise e)
                  | Ok dfs =>
                      match concat_ignore_index dfs with
                      | Raise e => ([Entered StageBuild; Entered StageSolve;
                                     Printed (LpStatus (fst (engine prob)));
                                     Entered StageDecode; Entered StageDemolition],
                                    Raise e)
                      | Ok combined_df =>
                          ([Entered StageBuild; Entered StageSolve;
                            Printed (LpStatus (fst (engine prob)));
                            Entered StageDecode; Entered StageDemolition],
                           Ok (mkBundle (fillna0 (fst (fst d))) (snd (fst d))
                                        (fillna0 combined_df) (snd d)))
                      end
                  end
              end).
  { intro engine. unfold calculate. rewrite Hprep. simpl. rewrite Hgen. simpl.
    destruct (engine prob) as [status sol]. simpl.
    destruct (get_optimal_update_df self prob sol) as [d|e]; simpl; [|reflexivity].
    destruct (mapM (fun key => get_deleting_update_df self key true)
                   (zkeys (BLOCKS_LANUSE_DICT self))) as [dfs|e]; simpl; [|reflexivity].
    destruct (concat_ignore_index dfs) as [combined_df|e]; reflexivity. }
  unfold run. split; [|split; [|split]].
  - rewrite Hrun. fold decoded.
    destruct decoded as [d|e]; [|exists []; reflexivity].
    destruct (mapM (fun key => get_deleting_update_df self key true)
                   (zkeys (BLOCKS_LANUSE_DICT self))) as [dfs|e];
      [|exists [Entered StageDemolition]; reflexivity].
    destruct (concat_ignore_index dfs); exists [Entered StageDemolition]; reflexivity.
  - intros e He. rewrite Hrun. fold decoded. rewrite He. reflexivity.
  - intros d b Hd Hb. rewrite Hrun in Hb. fold decoded in Hb. rewrite Hd in Hb.
    destruct (mapM (fun key => get_deleting_update_df self key true)
                   (zkeys (BLOCKS_LANUSE_DICT self))) as [dfs|e]; [|discriminate Hb].
    destruct (concat_ignore_index dfs); [|discriminate Hb].
    simpl in Hb. inversion Hb. simpl. auto.
  - intros solve' Hsame. rewrite !Hrun. rewrite Hsame.
    destruct (get_optimal_update_df self prob (snd (solve prob))); [|reflexivity].
    destruct (mapM (fun key => get_deleting_update_df self key true)
                   (zkeys (BLOCKS_LANUSE_DICT self))) as [dfs|e]; [|reflexivity].
    destruct (concat_ignore_index dfs); reflexivity.
Qed.

(** The example city, an engine that reports infeasibility. *)
Lemma calculate_decodes_whatever_status_witness :
  let solve := Example.constant_engine LpStatusInfeasible 1 in
  let run := calculate Example.set_union solve Example.city [(1%Z, RESIDENTIAL)] []
               (Some 1%Z) in
  let decoded := get_optimal_update_df Example.self_capped Example.prob_capped
                   (snd (solve Example.prob_capped)) in
  (exists rest,
     fst run = [Entered StageBuild; Entered StageSolve;
                Printed (LpStatus (fst (solve Example.prob_capped)));
                Entered StageDecode] ++ rest)
  /\ (forall e, decoded = Raise e -> snd run = Raise e)
  /\ (forall d b, decoded = Ok d -> snd run = Ok b ->
                  optimal_update_df b = fillna0 (fst (fst d))
                  /\ bricks_to_build_df b = snd (fst d)
                  /\ provision b = snd d)
  /\ (forall solve',
        snd (solve' Example.prob_capped) = snd (solve Example.prob_capped) ->
        snd (calculate Example.set_union solve' Example.city [(1%Z, RESIDENTIAL)] []
               (Some 1%Z))
        = snd run).
Proof.
  apply (calculate_decodes_whatever_status Example.set_union
           (Example.constant_engine LpStatusInfeasible 1) Example.city
           [(1%Z, RESIDENTIAL)] [] (Some 1%Z) Example.self_capped Example.prob_capped).
  - vm_compute. reflexivity.
  - vm_compute. reflexivity.
Defined.

Lemma example_capped_infeasible (x : assignment) : ~ feasible Example.prob_capped x.
Proof.
  intros [Hc Hv].
  let l := eval vm_compute in (constraints Example.prob_capped) in
  change (Forall (satisfies x) l) in Hc.
  let l := eval vm_compute in (variables Example.prob_capped) in
  change (Forall (within_bounds x) l) in Hv.
  repeat match goal with
         | H : Forall _ (_ :: _) |- _ => inversion H; clear H; subst
         end.
  repeat match goal with
         | H : within_bounds _ _ |- _ =>
             destruct H as [_ [H _]]; specialize (H _ eq_refl); simpl in H
         end.
  repeat match goal with
         | H : satisfies _ _ |- _ => unfold satisfies, value in H; simpl in H
         end.
  lra.
Qed.

(** C1 as stated fails: with at most one facility per brick the program of
    the example city admits no assignment; for an engine that reports
    [Infeasible] (and leaves 1 in every variable) [calculate] prints the
    status, enters the decoder and returns a bundle whose update table is
    decoded from that assignment. *)
Lemma calculate_infeasible_counterexample :
  (forall x, ~ feasible Example.prob_capped x)
  /\ generate_lp_problem Example.self_capped = Ok Example.prob_capped
  /\ exists b,
       calculate Example.set_union (Example.constant_engine LpStatusInfeasible 1)
         Example.city [(1%Z, RESIDENTIAL)] [] (Some 1%Z)
       = ([Entered StageBuild; Entered StageSolve; Printed "Infeasible";
           Entered StageDecode; Entered StageDemolition], Ok b)
       /\ df_at (optimal_update_df b) 1 "school" = Some 150%Q
       /\ df_at (optimal_update_df b) 1 "kindergarten" = Some 30%Q.
Proof.
  split; [exact example_capped_infeasible|].
  split; [reflexivity|].
  eexists. split; [vm_compute; reflexivity|].
  split; vm_compute; reflexivity.
Qed.

(** ** Frames *)

Lemma dict_get_app_cells (k : Z * string) (l1 l2 : Dict (Z * string) Q) :
  dict_get cell_eq_dec k (l1 ++ l2)
  = match dict_get cell_eq_dec k l1 with
    | Some v => Some v
    | None => dict_get cell_eq_dec k l2
    end.
Proof.
  induction l1 as [|[k' v] r IH]; simpl; [reflexivity|].
  destruct (cell_eq_dec k k'); [reflexivity | exact IH].
Qed.

Lemma dict_get_row_cells (f : string -> option Q) (r r' : Z) (c : string)
  (columns : list string) :
  dict_get cell_eq_dec (r, c)
    (flat_map (fun c' => match f c' with
                         | Some v => [((r', c'), v)]
                         | None => []
                         end) columns)
  = if Z.eq_dec r r' then (if mem string_dec c columns then f c else None) else None.
Proof.
  induction columns as [|c' cols IH]; simpl.
  - destruct (Z.eq_dec r r'); reflexivity.
  - rewrite dict_get_app_cells, IH. unfold mem. simpl.
    destruct (f c') as [v|] eqn:Ef; simpl;
      destruct (Z.eq_dec r r'); destruct (string_dec c' c);
      destruct (in_dec string_dec c cols); subst;
      repeat match goal with
             | |- context [cell_eq_dec ?a ?b] => destruct (cell_eq_dec a b)
             end;
      try reflexivity; try congruence.
Qed.

Lemma dict_get_table_cells (f : Z -> string -> option Q) (index : list Z)
  (columns : list string) (r : Z) (c : string) :
  dict_get cell_eq_dec (r, c) (table_cells f index columns)
  = if mem Z.eq_dec r index && mem string_dec c columns then f r c else None.
Proof.
  unfold table_cells. induction index as [|r' idx IH]; simpl; [reflexivity|].
  rewrite dict_get_app_cells, dict_get_row_cells, IH. unfold mem. simpl.
  destruct (Z.eq_dec r r'); destruct (Z.eq_dec r' r);
    destruct (in_dec string_dec c columns); destruct (in_dec Z.eq_dec r idx);
    subst; simpl; try reflexivity; try congruence;
    match goal with
    | |- context [f ?a c] => destruct (f a c); reflexivity
    end.
Qed.

Lemma df_at_labels (df : DataFrame) (r : Z) (c : string) (v : Q) :
  df_at df r c = Some v -> In r (df_index df) /\ In c (df_columns df).
Proof.
  unfold df_at.
  destruct (mem Z.eq_dec r (df_index df)) eqn:Er; simpl; [|discriminate].
  destruct (mem string_dec c (df_columns df)) eqn:Ec; simpl; [|discriminate].
  intros _. apply mem_In in Er. apply mem_In in Ec. split; assumption.
Qed.

Lemma mem_union {K : Type} (K_eq_dec : forall x y : K, {x = y} + {x <> y})
  (k : K) (l1 l2 : list K) :
  mem K_eq_dec k (l1 ++ filter (fun x => negb (mem K_eq_dec x l1)) l2)
  = mem K_eq_dec k l1 || mem K_eq_dec k l2.
Proof.
  apply eq_true_iff_eq. rewrite orb_true_iff, !mem_In, in_app_iff, filter_In.
  rewrite negb_true_iff. split.
  - intros [H|[H _]]; auto.
  - intros [H|H]; [auto|].
    destruct (mem K_eq_dec k l1) eqn:E; [apply mem_In in E; left; exact E | right; auto].
Qed.

(** A cell of [a.combine_first(b)]. *)
Lemma df_at_combine_first (a b : DataFrame) (r : Z) (c : string) :
  df_at (combine_first a b) r c
  = match df_at a r c with
    | Some v => Some v
    | None => df_at b r c
    end.
Proof.
  unfold df_at at 1. unfold combine_first. simpl.
  rewrite dict_get_table_cells, !mem_union.
  destruct ((mem Z.eq_dec r (df_index a) || mem Z.eq_dec r (df_index b))
            && (mem string_dec c (df_columns a) || mem string_dec c (df_columns b)))
    eqn:E; [reflexivity|].
  destruct (df_at a r c) as [v|] eqn:Ea.
  - apply df_at_labels in Ea. destruct Ea as [H1 H2].
    apply (mem_In _ Z.eq_dec) in H1. apply (mem_In _ string_dec) in H2.
    rewrite H1, H2 in E. discriminate E.
  - destruct (df_at b r c) as [v|] eqn:Eb; [|reflexivity].
    apply df_at_labels in Eb. destruct Eb as [H1 H2].
    apply (mem_In _ Z.eq_dec) in H1. apply (mem_In _ string_dec) in H2.
    rewrite H1, H2, !orb_true_r in E. discriminate E.
Qed.

(** ** The demolition update (C9, C10) *)

Lemma find_app {A : Type} (p : A -> bool) (l1 l2 : list A) :
  find p (l1 ++ l2) = match find p l1 with
                      | Some a => Some a
                      | None => find p l2
                      end.
Proof.
  induction l1 as [|a r IH]; simpl; [reflexivity|].
  destruct (p a); [reflexivity | exact IH].
Qed.

(** The entry of a service type in the demolition row: minus the capacity
    of the last installed service of that type. *)
Lemma deleting_service_capacities_last (services : list Service.t) (name : string) :
  forall d,
    sget name (fold_left (fun d serv => sset (Service.service_type serv)
                                             (- Service.capacity serv)%Q d) services d)
    = match last_service services name with
      | Some s => Some (- Service.capacity s)%Q
      | None => sget name d
      end.
Proof.
  unfold last_service. induction services as [|s r IH]; intro d; simpl; [reflexivity|].
  rewrite IH, find_app. simpl.
  destruct (find (fun s0 => String.eqb (Service.service_type s0) name) (rev r));
    [reflexivity|].
  destruct (String.eqb (Service.service_type s) name) eqn:E.
  - apply String.eqb_eq in E. subst name. apply dict_get_set_same.
  - apply String.eqb_neq in E. apply dict_get_set_other. congruence.
Qed.

(** Where the installed services are of different types the row is the one
    expected: for block 5 of the example city (A with capacity 10, B with
    capacity 5, 100 inhabitants) it is A: -10, B: -5, population: -100, and
    without the population flag it has no population column. *)
Lemma get_deleting_update_df_distinct_types :
  get_deleting_update_df Example.self 5 true
  = Ok (mkDataFrame [5%Z] ["A"; "B"; "population"]%string
          [((5%Z, "A"%string), (-10)%Q); ((5%Z, "B"%string), (-5)%Q);
           ((5%Z, "population"%string), (-100)%Q)])
  /\ get_deleting_update_df Example.self 5 false
     = Ok (mkDataFrame [5%Z] ["A"; "B"]%string
             [((5%Z, "A"%string), (-10)%Q); ((5%Z, "B"%string), (-5)%Q)]).
Proof. split; vm_compute; reflexivity. Qed.

(** C9 fails on a block with two installed services of one type: block 2
    of the example city has schools of capacity 10 and 5, and its
    demolition row removes 5 school places, the capacity of the second. *)
Theorem get_deleting_update_df_same_type :
  (exists block,
     zget 2%Z (blocks Example.city) = Some block
     /\ Block.all_services block = [Service.mk "school" 10; Service.mk "school" 5])
  /\ exists df,
       get_deleting_update_df Example.self 2 true = Ok df
       /\ df_index df = [2%Z]
       /\ df_at df 2 "school" = Some (-5)%Q
       /\ df_at df 2 "population" = Some (-1000)%Q.
Proof.
  split.
  - eexists. split; reflexivity.
  - eexists. split; [vm_compute; reflexivity|]. repeat split; vm_compute; reflexivity.
Qed.

Lemma from_dict_index_population (key : Z) (p : Q) :
  from_dict_index [(key, [("population"%string, p)])]
  = mkDataFrame [key] ["population"%string] [((key, "population"%string), p)].
Proof.
  unfold from_dict_index, dict_items, dict_keys. simpl.
  destruct (Z.eq_dec key key) as [_|N]; [|congruence]. reflexivity.
Qed.

Lemma get_deleting_update_df_no_services (self : BlockOptimizer) (key : Z) (block : Block.t) :
  zget key (blocks (city_model self)) = Some block ->
  Block.all_services block = [] ->
  get_deleting_update_df self key true
  = Ok (mkDataFrame [key] ["population"%string]
          [((key, "population"%string), (- Block.population block)%Q)]).
Proof.
  intros Hb Hs. unfold get_deleting_update_df, deleting_service_capacities.
  rewrite Hb. simpl. rewrite Hs. simpl. rewrite from_dict_index_population. reflexivity.
Qed.

Lemma mem_true {K : Type} (K_eq_dec : forall x y : K, {x = y} + {x <> y})
  (k : K) (l : list K) : In k l -> mem K_eq_dec k l = true.
Proof. apply mem_In. Qed.

Lemma mem_false {K : Type} (K_eq_dec : forall x y : K, {x = y} + {x <> y})
  (k : K) (l : list K) : ~ In k l -> mem K_eq_dec k l = false.
Proof.
  intro H. destruct (mem K_eq_dec k l) eqn:E; [|reflexivity].
  apply mem_In in E. contradiction.
Qed.

Lemma df_at_population_row (key : Z) (p : Q) (r : Z) (c : string) :
  df_at (mkDataFrame [key] ["population"%string] [((key, "population"%string), p)]) r c
  = if Z.eqb r key && String.eqb c "population" then Some p else None.
Proof.
  unfold df_at. cbn [df_index df_columns df_cells].
  destruct (Z.eqb_spec r key) as [Er|Nr];
    destruct (String.eqb_spec c "population") as [Ec|Nc]; cbn [andb].
  - subst. rewrite !mem_true by (left; reflexivity). cbn [andb dict_get].
    destruct (cell_eq_dec (key, "population"%string) (key, "population"%string));
      [reflexivity | congruence].
  - rewrite (mem_false string_dec c ["population"%string]).
    + rewrite andb_false_r. reflexivity.
    + intros [E|[]]. congruence.
  - rewrite (mem_false Z.eq_dec r [key]); [reflexivity|].
    intros [E|[]]. congruence.
  - rewrite (mem_false Z.eq_dec r [key]); [reflexivity|].
    intros [E|[]]. congruence.
Qed.

(** C10, as the code has it: merging an allocation update with the
    demolition update of a block without installed services keeps every
    cell and every label of the allocation update and adds at most the
    block's population entry, minus its population, where the allocation
    update has none; read as deltas the two tables agree when that
    population is zero. *)
Theorem get_provision_diff_merge_no_services
  (self : BlockOptimizer) (SELECTED_BLOCK : Z) (block : Block.t)
  (optimal_update_df : DataFrame) :
  zget SELECTED_BLOCK (blocks (city_model self)) = Some block ->
  Block.all_services block = [] ->
  exists update_df,
    get_provision_diff_update_df self SELECTED_BLOCK optimal_update_df = Ok update_df
    /\ (forall r c,
          df_at update_df r c
          = match df_at optimal_update_df r c with
            | Some v => Some v
            | None => if Z.eqb r SELECTED_BLOCK && String.eqb c "population"
                      then Some (- Block.population block)%Q
                      else None
            end)
    /\ (forall r, In r (df_index optimal_update_df) -> In r (df_index update_df))
    /\ (forall c, In c (df_columns optimal_update_df) -> In c (df_columns update_df))
    /\ ((Block.population block == 0)%Q ->
        forall r c, (delta_at update_df r c == delta_at optimal_update_df r c)%Q).
Proof.
  intros Hb Hs. unfold get_provision_diff_update_df.
  rewrite (get_deleting_update_df_no_services self SELECTED_BLOCK block Hb Hs). simpl.
  eexists. split; [reflexivity|].
  assert (Hat : forall r c,
            df_at (combine_first optimal_update_df
                     (mkDataFrame [SELECTED_BLOCK] ["population"%string]
                        [((SELECTED_BLOCK, "population"%string),
                          (- Block.population block)%Q)])) r c
            = match df_at optimal_update_df r c with
              | Some v => Some v
              | None => if Z.eqb r SELECTED_BLOCK && String.eqb c "population"
                        then Some (- Block.population block)%Q
                        else None
              end).
  { intros r c. rewrite df_at_combine_first, df_at_population_row. reflexivity. }
  split; [exact Hat|]. split; [|split].
  - intros r Hr. simpl. apply in_or_app. left. exact Hr.
  - intros c Hc. simpl. apply in_or_app. left. exact Hc.
  - intros Hz r c. unfold delta_at. rewrite Hat.
    destruct (df_at optimal_update_df r c); [reflexivity|].
    destruct (Z.eqb r SELECTED_BLOCK && String.eqb c "population"); [|reflexivity].
    rewrite Hz. reflexivity.
Qed.

(** Block 4 of the example city, without services or inhabitants. *)
Lemma get_provision_diff_merge_no_services_witness :
  exists update_df,
    get_provision_diff_update_df Example.self 4 Example.school_update = Ok update_df
    /\ (forall r c,
          df_at update_df r c
          = match df_at Example.school_update r c with
            | Some v => Some v
            | None => if Z.eqb r 4 && String.eqb c "population"
                      then Some (- 0)%Q
                      else None
            end)
    /\ (forall r, In r (df_index Example.school_update) -> In r (df_index update_df))
    /\ (forall c, In c (df_columns Example.school_update) -> In c (df_columns update_df))
    /\ ((0 == 0)%Q ->
        forall r c, (delta_at update_df r c == delta_at Example.school_update r c)%Q).
Proof.
  apply (get_provision_diff_merge_no_services Example.self 4 (Block.mk 3000 RECREATION 0 [])
           Example.school_update).
  - reflexivity.
  - reflexivity.
Defined.

(** C10 as stated fails.  Block 1 of the example city has no installed
    service and 100 inhabitants: its demolition row is not zero and the
    merge gains the entry population = -100.  Block 4 has no inhabitants
    either: its demolition row is zero, and the merge still is not the
    allocation update, which has no population column. *)
Lemma get_provision_diff_merge_counterexample :
  (exists block update_df,
     zget 1%Z (blocks Example.city) = Some block
     /\ Block.all_services block = []
     /\ get_provision_diff_update_df Example.self 1 Example.school_update = Ok update_df
     /\ df_at Example.school_update 1 "population" = None
     /\ df_at update_df 1 "population" = Some (-100)%Q
     /\ ~ same_frame update_df Example.school_update)
  /\ (exists block update_df,
        zget 4%Z (blocks Example.city) = Some block
        /\ Block.all_services block = []
        /\ Block.population block = 0%Q
        /\ get_provision_diff_update_df Example.self 4 Example.school_update = Ok update_df
        /\ In "population"%string (df_columns update_df)
        /\ ~ In "population"%string (df_columns Example.school_update)
        /\ ~ same_frame update_df Example.school_update).
Proof.
  split.
  - eexists. eexists. split; [reflexivity|]. split; [reflexivity|].
    split; [vm_compute; reflexivity|]. split; [reflexivity|].
    split; [vm_compute; reflexivity|].
    intros [_ [_ H]]. specialize (H 1%Z "population"%string).
    vm_compute in H. discriminate H.
  - eexists. eexists. split; [reflexivity|]. split; [reflexivity|].
    split; [reflexivity|]. split; [vm_compute; reflexivity|].
    split; [vm_compute; auto|].
    assert (Hno : ~ In "population"%string (df_columns Example.school_update)).
    { simpl. intros [E|[]]. discriminate E. }
    split; [exact Hno|].
    intros [_ [H _]]. apply Hno. apply H. vm_compute. auto.
Qed.

(** * Further properties *)

(** ** The estimator: ceiling, own population, empty input, keys *)

Lemma get_capacity_demand_minimum
  (set_union : list ServiceType.t -> list ServiceType.t -> list ServiceType.t)
  (self : BlockOptimizer) (k : Z) (constants : Dict string Constants) (ceiling : Q)
  (own : GdfRow.t) (new orig : list ServiceType.t) :
  get_capacity_demand set_union self k = Ok (constants, ceiling) ->
  gdf_loc (get_blocks_gdf (city_model self)) k = Some own ->
  zget k (NEW_SERVICE_TYPES self) = Some new ->
  zget k (ORIG_SERVICE_TYPES self) = Some orig ->
  exists s_min,
    In s_min (set_union new orig)
    /\ (forall s, In s (set_union new orig) ->
          (global_margin (get_blocks_gdf (city_model self)) k own s_min
           <= global_margin (get_blocks_gdf (city_model self)) k own s)%Q)
    /\ ceiling = py_max (global_margin (get_blocks_gdf (city_model self)) k own s_min
                         / ServiceType.demand s_min * 1000) 0.
Proof.
  intros H Hown Hnew Horig. apply get_capacity_demand_Ok in H.
  destruct H as [own' [new' [orig' [st [m [s [Ho [Hn [Hor [Hl [_ [Hm [Hs [_ Hc]]]]]]]]]]]]]].
  assert (own' = own) by congruence. assert (new' = new) by congruence.
  assert (orig' = orig) by congruence. subst own' new' orig'.
  destruct (estimator_loop_min _ _ _ _ _ _ Hl)
    as [[E1 _] | [pre [s' [post [E [Hm' [Hs' [Hpre [Hpost _]]]]]]]]].
  - simpl in E1. congruence.
  - assert (s' = s) by congruence. subst s'.
    assert (Em : m = global_margin (get_blocks_gdf (city_model self)) k own s).
    { rewrite <- capacity_left_of_margin. congruence. }
    exists s. split; [rewrite E; apply in_or_app; right; left; reflexivity|].
    split; [|rewrite <- Em; exact Hc].
    intros p Hp. rewrite <- !capacity_left_of_margin. rewrite E in Hp.
    apply in_app_or in Hp. destruct Hp as [Hp | [Hp | Hp]].
    + apply Qlt_le_weak. apply Hpre, Hp.
    + subst p. apply Qle_refl.
    + apply Hpost, Hp.
Qed.

Lemma scaled_margin_sign (m r : Q) :
  (0 < r)%Q -> ((m / r * 1000 <= 0)%Q <-> (m <= 0)%Q).
Proof.
  intro Hr.
  assert (Hk : (0 < / r * 1000)%Q).
  { apply Qmult_lt_0_compat; [apply Qinv_lt_0_compat; exact Hr | reflexivity]. }
  assert (E : (m / r * 1000 == m * (/ r * 1000))%Q) by (unfold Qdiv; ring).
  rewrite E. split; intro H.
  - apply (Qmult_le_r _ _ (/ r * 1000)); [exact Hk|]. rewrite Qmult_0_l. exact H.
  - rewrite <- (Qmult_0_l (/ r * 1000)). apply Qmult_le_r; [exact Hk | exact H].
Qed.

(** The population ceiling is never negative, and with positive demand
    rates it is zero exactly when some enumerated service type has no
    global margin left (global capacity without the block's own at most
    global demand). *)
Theorem get_capacity_demand_ceiling_sign
  (set_union : list ServiceType.t -> list ServiceType.t -> list ServiceType.t)
  (self : BlockOptimizer) (selected_block_id : Z)
  (constants : Dict string Constants) (ceiling : Q)
  (own : GdfRow.t) (new orig : list ServiceType.t) :
  get_capacity_demand set_union self selected_block_id = Ok (constants, ceiling) ->
  gdf_loc (get_blocks_gdf (city_model self)) selected_block_id = Some own ->
  zget selected_block_id (NEW_SERVICE_TYPES self) = Some new ->
  zget selected_block_id (ORIG_SERVICE_TYPES self) = Some orig ->
  (0 <= ceiling)%Q
  /\ ((forall s, In s (set_union new orig) -> (0 < ServiceType.demand s)%Q) ->
      ((ceiling == 0)%Q
       <-> exists s, In s (set_union new orig)
                     /\ (global_margin (get_blocks_gdf (city_model self))
                           selected_block_id own s <= 0)%Q)).
Proof.
  intros H Hown Hnew Horig.
  destruct (get_capacity_demand_minimum _ _ _ _ _ _ _ _ H Hown Hnew Horig)
    as [s [Hin [Hmin Hc]]].
  set (margin := global_margin (get_blocks_gdf (city_model self)) selected_block_id own)
    in *.
  assert (Hmax : (ceiling == Qmax (margin s / ServiceType.demand s * 1000) 0)%Q).
  { rewrite Hc. apply py_max_spec. }
  split.
  - rewrite Hmax. apply Q.le_max_r.
  - intro Hrate. pose proof (scaled_margin_sign (margin s) _ (Hrate s Hin)) as Hsign.
    rewrite Hmax. split.
    + intro Hz. exists s. split; [exact Hin|]. apply Hsign.
      rewrite <- Hz. apply Q.le_max_l.
    + intros [p [Hp Hle]]. apply Q.max_r. apply Hsign.
      eapply Qle_trans; [apply Hmin; exact Hp | exact Hle].
Qed.

(** The ceiling of block 1 of the example city. *)
Lemma get_capacity_demand_ceiling_sign_witness :
  exists constants ceiling,
    get_capacity_demand Example.set_union Example.self 1 = Ok (constants, ceiling)
    /\ (0 <= ceiling)%Q
    /\ ((forall s, In s (Example.set_union [Example.school; Example.kindergarten]
                           [Example.park]) ->
                   (0 < ServiceType.demand s)%Q) ->
        ((ceiling == 0)%Q
         <-> exists s, In s (Example.set_union [Example.school; Example.kindergarten]
                               [Example.park])
                       /\ (global_margin (get_blocks_gdf (city_model Example.self)) 1
                             (GdfRow.mk 1 100 (Example.capacities 0 0)) s <= 0)%Q)).
Proof.
  assert (E : exists constants ceiling,
             get_capacity_demand Example.set_union Example.self 1 = Ok (constants, ceiling)).
  { eexists. eexists. vm_compute. reflexivity. }
  destruct E as [constants [ceiling E]].
  exists constants, ceiling. split; [exact E|].
  apply (get_capacity_demand_ceiling_sign Example.set_union Example.self 1 constants ceiling
           (GdfRow.mk 1 100 (Example.capacities 0 0))
           [Example.school; Example.kindergarten] [Example.park]).
  - exact E.
  - reflexivity.
  - reflexivity.
  - reflexivity.
Defined.

Lemma gdf_loc_set_population_any (gdf : list GdfRow.t) (k i : Z) (p : Q) :
  gdf_loc (gdf_set_population gdf k p) i
  = option_map (fun r => if Z.eqb (GdfRow.id r) k
                         then GdfRow.mk (GdfRow.id r) p (GdfRow.capacity r)
                         else r) (gdf_loc gdf i).
Proof.
  unfold gdf_loc, gdf_set_population. induction gdf as [|r rest IH]; simpl; [reflexivity|].
  destruct (Z.eqb (GdfRow.id r) k) eqn:Ek; simpl;
    destruct (Z.eqb (GdfRow.id r) i) eqn:Ei; simpl;
    first [apply IH | rewrite Ek; reflexivity].
Qed.

Lemma gdf_set_population_twice (gdf : list GdfRow.t) (k : Z) (p q : Q) :
  gdf_set_population (gdf_set_population gdf k p) k q = gdf_set_population gdf k q.
Proof.
  unfold gdf_set_population. rewrite map_map. apply map_ext. intro r.
  destruct (Z.eqb (GdfRow.id r) k) eqn:Ek; simpl; rewrite Ek; reflexivity.
Qed.

Lemma estimator_loop_own (gdf : list GdfRow.t) (own : GdfRow.t) (i : Z) (p : Q)
  (acc_gdf : list AccRow.t) (servs : list ServiceType.t) :
  forall st,
    estimator_loop gdf (GdfRow.mk i p (GdfRow.capacity own)) acc_gdf st servs
    = estimator_loop gdf own acc_gdf st servs.
Proof.
  induction servs as [|s rest IH]; intro st; simpl; [reflexivity|].
  change (estimator_step gdf (GdfRow.mk i p (GdfRow.capacity own)) acc_gdf st s)
    with (estimator_step gdf own acc_gdf st s).
  destruct (estimator_step gdf own acc_gdf st s); simpl; [apply IH | reflexivity].
Qed.

(** What the estimator returns for a block does not depend on the
    population the blocks table records for that block itself. *)
Theorem get_capacity_demand_ignores_own_population
  (set_union : list ServiceType.t -> list ServiceType.t -> list ServiceType.t)
  (self : BlockOptimizer) (selected_block_id : Z) (p : Q) :
  get_capacity_demand set_union
    (with_city (with_block_population selected_block_id p (city_model self)) self)
    selected_block_id
  = get_capacity_demand set_union self selected_block_id.
Proof.
  unfold get_capacity_demand. simpl.
  rewrite gdf_loc_set_population_any, gdf_set_population_twice.
  destruct (gdf_loc (get_blocks_gdf (city_model self)) selected_block_id) as [own|] eqn:Eo;
    simpl; [|reflexivity].
  assert (Eid : Z.eqb (GdfRow.id own) selected_block_id = true).
  { unfold gdf_loc in Eo. apply find_some in Eo. tauto. }
  rewrite Eid.
  destruct (zget selected_block_id (blocks (city_model self))); simpl; [|reflexivity].
  destruct (zget selected_block_id (NEW_SERVICE_TYPES self)); simpl; [|reflexivity].
  destruct (zget selected_block_id (ORIG_SERVICE_TYPES self)); simpl; [|reflexivity].
  rewrite estimator_loop_own. reflexivity.
Qed.

Lemma estimator_loop_keys (gdf : list GdfRow.t) (own : GdfRow.t)
  (acc_gdf : list AccRow.t) (servs : list ServiceType.t) :
  forall st st' n,
    estimator_loop gdf own acc_gdf st servs = Ok st' ->
    (sget n (constants_acc st') <> None
     <-> sget n (constants_acc st) <> None \/ In n (map ServiceType.name servs)).
Proof.
  induction servs as [|s rest IH]; simpl; intros st st' n H.
  - inversion H; subst. tauto.
  - apply bind_Ok in H. destruct H as [st1 [H1 H2]].
    rewrite (IH _ _ n H2).
    apply estimator_step_Ok in H1. destruct H1 as [ctx [_ [Hsame [Hother _]]]].
    destruct (string_dec n (ServiceType.name s)) as [E|N].
    + subst n. rewrite Hsame. split; [auto|]. intros _. left. discriminate.
    + rewrite (Hother n N). split.
      * intros [H|H]; auto.
      * intros [H|[H|H]]; auto; congruence.
Qed.

(** The names the constants are recorded under are exactly the names of the
    service types in the union of the block's candidate and original
    service types, the set the loop enumerates holding exactly the members
    of the two lists, as Python's [set(a) | set(b)] does. *)
Theorem get_capacity_demand_keys
  (set_union : list ServiceType.t -> list ServiceType.t -> list ServiceType.t)
  (self : BlockOptimizer) (selected_block_id : Z)
  (constants : Dict string Constants) (ceiling : Q) (new orig : list ServiceType.t) :
  get_capacity_demand set_union self selected_block_id = Ok (constants, ceiling) ->
  zget selected_block_id (NEW_SERVICE_TYPES self) = Some new ->
  zget selected_block_id (ORIG_SERVICE_TYPES self) = Some orig ->
  (forall s, In s (set_union new orig) <-> In s new \/ In s orig) ->
  forall n, (exists c, sget n constants = Some c)
            <-> exists s, (In s new \/ In s orig) /\ ServiceType.name s = n.
Proof.
  intros H Hnew Horig Hunion n. apply get_capacity_demand_Ok in H.
  destruct H as [own [new' [orig' [st [m [s [_ [Hn [Hor [Hl [Hc _]]]]]]]]]]].
  assert (new' = new) by congruence. assert (orig' = orig) by congruence.
  subst new' orig' constants.
  pose proof (estimator_loop_keys _ _ _ _ _ _ n Hl) as K. simpl in K.
  split.
  - intros [c Hc]. destruct K as [K _].
    destruct K as [K|K]; [congruence | congruence |].
    apply in_map_iff in K. destruct K as [s' [E Hin]]. exists s'.
    split; [apply Hunion, Hin | exact E].
  - intros [s' [Hin E]]. destruct K as [_ K].
    destruct (sget n (constants_acc st)) as [c|]; [eauto|].
    exfalso. apply K; [|reflexivity]. right. apply in_map_iff. exists s'.
    split; [exact E | apply Hunion, Hin].
Qed.

(** The constants of block 1 of the example city: schools and
    kindergartens of the target land use, parks of the current one. *)
Lemma get_capacity_demand_keys_witness :
  exists constants ceiling,
    get_capacity_demand Example.set_union Example.self 1 = Ok (constants, ceiling)
    /\ forall n, (exists c, sget n constants = Some c)
                 <-> exists s, (In s [Example.school; Example.kindergarten]
                                \/ In s [Example.park])
                               /\ ServiceType.name s = n.
Proof.
  assert (E : exists constants ceiling,
             get_capacity_demand Example.set_union Example.self 1 = Ok (constants, ceiling)).
  { eexists. eexists. vm_compute. reflexivity. }
  destruct E as [constants [ceiling E]].
  exists constants, ceiling. split; [exact E|].
  apply (get_capacity_demand_keys Example.set_union Example.self 1 constants ceiling
           [Example.school; Example.kindergarten] [Example.park]).
  - exact E.
  - reflexivity.
  - reflexivity.
  - intro s. change (Example.set_union [Example.school; Example.kindergarten]
                                       [Example.park])
      with [Example.school; Example.kindergarten; Example.park].
    simpl. tauto.
Defined.

(** ** Blocks without service types *)

(** When neither the current nor the target land use of the first block of
    the assignment has a service type, [calculate] stops with
    [AttributeError] in the estimator, before the program is built. *)
Theorem calculate_without_service_types
  (set_union : list ServiceType.t -> list ServiceType.t -> list ServiceType.t)
  (solve : LpProblem -> LpStatusCode * solution)
  (city : CityModel) (key : Z) (lu : LandUse) (rest : Dict Z LandUse)
  (scenario : Dict string Q) (max_facilities : option Z)
  (block : Block.t) (own : GdfRow.t) :
  zget key (blocks city) = Some block ->
  gdf_loc (get_blocks_gdf city) key = Some own ->
  get_land_use_service_types city lu = [] ->
  get_land_use_service_types city (Block.land_use block) = [] ->
  set_union [] [] = [] ->
  calculate set_union solve city ((key, lu) :: rest) scenario max_facilities
  = ([], Raise AttributeError).
Proof.
  intros Hb Hown Hnew Horig Hunion.
  assert (Hprep : prepare set_union city ((key, lu) :: rest) scenario max_facilities
                  = Raise AttributeError).
  { unfold prepare, dict_keys. simpl. unfold prepare_block. simpl.
    rewrite Hb. simpl.
    destruct (Z.eq_dec key key) as [_|N]; [|congruence]. simpl.
    unfold calculate_free_area. simpl. rewrite Hb. simpl.
    unfold get_capacity_demand. simpl. rewrite Hown. simpl. rewrite Hb. simpl.
    destruct (Z.eq_dec key key) as [_|N]; [|congruence]. simpl.
    rewrite Hnew, Horig, Hunion. reflexivity. }
  unfold calculate. rewrite Hprep. reflexivity.
Qed.

(** Block 1 of the quiet city turned into transport land. *)
Lemma calculate_without_service_types_witness :
  calculate Example.set_union (Example.constant_engine LpStatusOptimal 0)
    Example2.quiet_city [(1%Z, TRANSPORT)] [] None
  = ([], Raise AttributeError).
Proof.
  apply (calculate_without_service_types Example.set_union
           (Example.constant_engine LpStatusOptimal 0) Example2.quiet_city 1 TRANSPORT
           [] [] None (Block.mk 10000 SPECIAL 100 [])
           (GdfRow.mk 1 100 (Example.capacities 0 0))).
  - reflexivity.
  - reflexivity.
  - reflexivity.
  - reflexivity.
  - reflexivity.
Defined.

(** ** The catalog adapter *)

Lemma get_bricks_df_cons (serv : ServiceType.t) (rest : list ServiceType.t) :
  get_bricks_df (serv :: rest)
  = map (fun brick => BrickRow.mk (ServiceType.name serv) (Brick.capacity brick)
                                  (Brick.area brick)) (ServiceType.bricks serv)
    ++ get_bricks_df rest.
Proof. reflexivity. Qed.

Lemma filter_rows_of (serv : ServiceType.t) (n : string) (bricks : list Brick.t) :
  filter (fun row => String.eqb (BrickRow.service_type row) n)
         (map (fun brick => BrickRow.mk (ServiceType.name serv) (Brick.capacity brick)
                                        (Brick.area brick)) bricks)
  = if String.eqb (ServiceType.name serv) n
    then map (fun brick => BrickRow.mk (ServiceType.name serv) (Brick.capacity brick)
                                       (Brick.area brick)) bricks
    else [].
Proof.
  induction bricks as [|b r IH]; simpl.
  - destruct (String.eqb (ServiceType.name serv) n); reflexivity.
  - rewrite IH. destruct (String.eqb (ServiceType.name serv) n); reflexivity.
Qed.

Lemma get_bricks_df_other_names (service_types : list ServiceType.t) (n : string) :
  ~ In n (map ServiceType.name service_types) ->
  filter (fun row => String.eqb (BrickRow.service_type row) n) (get_bricks_df service_types)
  = [].
Proof.
  induction service_types as [|s rest IH]; intro Hn; [reflexivity|].
  rewrite get_bricks_df_cons, filter_app, filter_rows_of.
  destruct (String.eqb_spec (ServiceType.name s) n) as [E|N].
  - exfalso. apply Hn. left. exact E.
  - simpl. apply IH. intro H. apply Hn. right. exact H.
Qed.

(** For service types with pairwise different names, the frame has one row
    per brick (as many rows as there are bricks in all catalogs), and its
    rows of a service type are that type's bricks, in catalog order. *)
Theorem get_bricks_df_rows (service_types : list ServiceType.t) :
  NoDup (map ServiceType.name service_types) ->
  List.length (get_bricks_df service_types)
  = list_sum (map (fun serv => List.length (ServiceType.bricks serv)) service_types)
  /\ forall serv, In serv service_types ->
       filter (fun row => String.eqb (BrickRow.service_type row) (ServiceType.name serv))
              (get_bricks_df service_types)
       = map (fun brick => BrickRow.mk (ServiceType.name serv) (Brick.capacity brick)
                                       (Brick.area brick)) (ServiceType.bricks serv).
Proof.
  induction service_types as [|s rest IH]; intro Hnd.
  - split; [reflexivity | intros serv []].
  - simpl map in Hnd. apply NoDup_cons_iff in Hnd. destruct Hnd as [Hfresh Hrest].
    destruct (IH Hrest) as [Hlen Hrows]. split.
    + rewrite get_bricks_df_cons, length_app, length_map, Hlen. reflexivity.
    + intros serv Hin. rewrite get_bricks_df_cons, filter_app, filter_rows_of.
      destruct Hin as [E|Hin].
      * subst serv. rewrite String.eqb_refl.
        rewrite (get_bricks_df_other_names rest _ Hfresh). apply app_nil_r.
      * destruct (String.eqb_spec (ServiceType.name s) (ServiceType.name serv)) as [E|N].
        -- exfalso. apply Hfresh. rewrite E. apply in_map. exact Hin.
        -- simpl. apply Hrows. exact Hin.
Qed.

(** The catalog of residential land in the example city. *)
Lemma get_bricks_df_rows_witness :
  List.length (get_bricks_df [Example.school; Example.kindergarten])
  = list_sum (map (fun serv => List.length (ServiceType.bricks serv))
                  [Example.school; Example.kindergarten])
  /\ forall serv, In serv [Example.school; Example.kindergarten] ->
       filter (fun row => String.eqb (BrickRow.service_type row) (ServiceType.name serv))
              (get_bricks_df [Example.school; Example.kindergarten])
       = map (fun brick => BrickRow.mk (ServiceType.name serv) (Brick.capacity brick)
                                       (Brick.area brick)) (ServiceType.bricks serv).
Proof.
  apply (get_bricks_df_rows [Example.school; Example.kindergarten]).
  simpl. repeat constructor; simpl; intuition discriminate.
Defined.

(** ** The program: variables and scope of the constraints *)

Lemma remove_key_NoDup {K : Type} (K_eq_dec : forall x y : K, {x = y} + {x <> y})
  (k : K) (l : list K) : NoDup l -> NoDup (remove_key K_eq_dec k l).
Proof. apply NoDup_filter. Qed.

Lemma dedup_NoDup {K : Type} (K_eq_dec : forall x y : K, {x = y} + {x <> y})
  (l : list K) : NoDup (dedup K_eq_dec l).
Proof.
  induction l as [|k r IH]; simpl; constructor.
  - rewrite remove_key_In. tauto.
  - apply remove_key_NoDup. exact IH.
Qed.

Lemma indexed_fst_from {A : Type} (l : list A) :
  forall start, map fst (combine (seq start (List.length l)) l) = seq start (List.length l).
Proof.
  induction l as [|a r IH]; intro start; simpl; [reflexivity|].
  rewrite IH. reflexivity.
Qed.

Lemma indexed_fst {A : Type} (l : list A) :
  map fst (indexed l) = seq 0 (List.length l).
Proof. apply indexed_fst_from. Qed.

Lemma block_section_variable_names (self : BlockOptimizer) (key : Z) (sec : BlockSection) :
  block_section self key = Ok sec ->
  exists bricks_df,
    zget key (BRICKS self) = Some bricks_df
    /\ map fst (sec_variables sec)
       = map (BrickVar key) (seq 0 (List.length bricks_df)) ++ [PopulationVar key].
Proof.
  intro H. apply block_section_Ok in H.
  destruct H as [i [per [_ [_ [_ [Hb [_ [_ [_ [_ [_ [_ Ev]]]]]]]]]]]].
  exists (in_bricks i). split; [exact Hb|].
  rewrite Ev, map_app, map_map. simpl.
  rewrite <- (indexed_fst (in_bricks i)), map_map. reflexivity.
Qed.

Lemma block_section_variable_key (self : BlockOptimizer) (key : Z) (sec : BlockSection)
  (v : LpVar) :
  block_section self key = Ok sec -> In v (map fst (sec_variables sec)) -> var_key v = key.
Proof.
  intros H Hv. destruct (block_section_variable_names _ _ _ H) as [bricks_df [_ E]].
  rewrite E in Hv. apply in_app_or in Hv. destruct Hv as [Hv | [Hv | []]].
  - apply in_map_iff in Hv. destruct Hv as [n [E' _]]. subst v. reflexivity.
  - subst v. reflexivity.
Qed.

Lemma block_section_variables_NoDup (self : BlockOptimizer) (key : Z) (sec : BlockSection) :
  block_section self key = Ok sec -> NoDup (map fst (sec_variables sec)).
Proof.
  intro H. destruct (block_section_variable_names _ _ _ H) as [bricks_df [_ E]].
  rewrite E. apply NoDup_app.
  - apply NoDup_map_NoDup_ForallPairs; [|apply seq_NoDup].
    intros a b _ _ Eab. congruence.
  - constructor; [intros [] | constructor].
  - intros v Hv [Hp | []]. subst v. apply in_map_iff in Hv.
    destruct Hv as [n [E' _]]. discriminate E'.
Qed.

Lemma sections_variables_NoDup (self : BlockOptimizer) (keys : list Z)
  (secs : list BlockSection) :
  Forall2 (fun key sec => block_section self key = Ok sec) keys secs ->
  NoDup keys ->
  NoDup (map fst (flat_map sec_variables secs))
  /\ forall v, In v (map fst (flat_map sec_variables secs)) -> In (var_key v) keys.
Proof.
  induction 1 as [|key sec keys secs Hsec _ IH]; intro Hnd.
  - split; [constructor | intros v []].
  - apply NoDup_cons_iff in Hnd. destruct Hnd as [Hfresh Hrest].
    destruct (IH Hrest) as [Hnd Hkeys]. simpl. rewrite map_app. split.
    + apply NoDup_app.
      * eapply block_section_variables_NoDup. exact Hsec.
      * exact Hnd.
      * intros v Hv Hv'. apply Hfresh.
        rewrite <- (block_section_variable_key _ _ _ v Hsec Hv). apply Hkeys, Hv'.
    + intros v Hv. apply in_app_or in Hv. destruct Hv as [Hv|Hv].
      * left. symmetry. eapply block_section_variable_key; eauto.
      * right. apply Hkeys, Hv.
Qed.

(** No two variables of the program share a name: every brick row of every
    block and every block's population has one variable. *)
Theorem generate_lp_problem_variables_distinct
  (self : BlockOptimizer) (prob : LpProblem) :
  generate_lp_problem self = Ok prob ->
  NoDup (map fst (variables prob))
  /\ forall key bricks_df n,
       In key (zkeys (BLOCKS_LANUSE_DICT self)) ->
       zget key (BRICKS self) = Some bricks_df ->
       (n < List.length bricks_df)%nat ->
       In (BrickVar key n) (map fst (variables prob))
       /\ In (PopulationVar key) (map fst (variables prob)).
Proof.
  intro H. pose proof H as H0. apply generate_lp_problem_Ok in H0.
  destruct H0 as [secs [HF [_ [_ Ev]]]]. rewrite Ev. split.
  - apply (sections_variables_NoDup self _ _ HF). apply dedup_NoDup.
  - intros key bricks_df n Hkey Hb Hn.
    destruct (Forall2_In_l _ _ _ _ HF Hkey) as [sec [Hin Hsec]].
    destruct (block_section_variable_names _ _ _ Hsec) as [bricks' [Hb' E]].
    assert (bricks' = bricks_df) by congruence. subst bricks'.
    assert (Hsub : forall v, In v (map fst (sec_variables sec)) ->
                             In v (map fst (flat_map sec_variables secs))).
    { intros v Hv. apply in_map_iff in Hv. destruct Hv as [d [Ed Hd]].
      apply in_map_iff. exists d. split; [exact Ed|]. apply in_flat_map. eauto. }
    split; apply Hsub; rewrite E; apply in_or_app.
    + left. apply in_map. apply in_seq. lia.
    + right. left. reflexivity.
Qed.

(** The variables of the program of the example city. *)
Lemma generate_lp_problem_variables_distinct_witness :
  NoDup (map fst (variables Example.prob))
  /\ forall key bricks_df n,
       In key (zkeys (BLOCKS_LANUSE_DICT Example.self)) ->
       zget key (BRICKS Example.self) = Some bricks_df ->
       (n < List.length bricks_df)%nat ->
       In (BrickVar key n) (map fst (variables Example.prob))
       /\ In (PopulationVar key) (map fst (variables Example.prob)).
Proof.
  apply (generate_lp_problem_variables_distinct Example.self Example.prob).
  vm_compute. reflexivity.
Defined.

Lemma mentions_brick_sum_In (v : LpVar) (key : Z) (g : nat * BrickRow.t -> Q)
  (h : LpAffineExpression -> LpAffineExpression) (l : list (nat * BrickRow.t)) :
  (forall e u, In u (map fst (terms (h e))) -> In u (map fst (terms e))) ->
  mentions v (lpSum (map (fun ib => h (expr_scale (g ib) (expr_var (BrickVar key (fst ib)))))
                         l)) ->
  exists ib, In ib l /\ v = BrickVar key (fst ib).
Proof.
  intros Hh. unfold mentions. rewrite terms_lpSum, flat_map_concat_map, map_map.
  rewrite concat_map, map_map. intro H. apply in_concat in H.
  destruct H as [ts [Hts Hv]]. apply in_map_iff in Hts. destruct Hts as [ib [E Hib]].
  subst ts. apply Hh in Hv. unfold expr_scale in Hv.
  destruct (Qzerob (g ib)); simpl in Hv; [destruct Hv|].
  destruct Hv as [E|[]]. eauto.
Qed.

Lemma indexed_In_range {A : Type} (l : list A) (ia : nat * A) :
  In ia (indexed l) -> (fst ia < List.length l)%nat.
Proof.
  intro H. assert (Hf : In (fst ia) (map fst (indexed l))) by (apply in_map; exact H).
  rewrite indexed_fst in Hf. apply in_seq in Hf. lia.
Qed.

Lemma mentions_fit_function_range (v : LpVar) (key : Z) (bricks_df : list BrickRow.t)
  (serv : string) :
  mentions v (fit_function_of key bricks_df serv) ->
  exists n, (n < List.length bricks_df)%nat /\ v = BrickVar key n.
Proof.
  unfold fit_function_of. intro H.
  apply (mentions_brick_sum_In v key (fun ib => BrickRow.capacity (snd ib)) (fun e => e))
    in H; [|auto].
  destruct H as [ib [Hib E]]. apply filter_In in Hib. destruct Hib as [Hib _].
  exists (fst ib). split; [apply indexed_In_range; exact Hib | exact E].
Qed.

Lemma mentions_built_area_range (v : LpVar) (key : Z) (bricks_df : list BrickRow.t) :
  mentions v (built_area_expr key bricks_df) ->
  exists n, (n < List.length bricks_df)%nat /\ v = BrickVar key n.
Proof.
  unfold built_area_expr. intro H.
  apply (mentions_brick_sum_In v key (fun ib => BrickRow.area (snd ib)) (fun e => e))
    in H; [|auto].
  destruct H as [ib [Hib E]].
  exists (fst ib). split; [apply indexed_In_range; exact Hib | exact E].
Qed.

Lemma mentions_fsi_range (v : LpVar) (key : Z) (bricks_df : list BrickRow.t) (A : Q) :
  mentions v (fsi_expr key bricks_df A) ->
  exists n, (n < List.length bricks_df)%nat /\ v = BrickVar key n.
Proof.
  unfold fsi_expr. intro H.
  apply (mentions_brick_sum_In v key (fun ib => BrickRow.area (snd ib))
           (fun e => expr_div e A)) in H.
  - destruct H as [ib [Hib E]].
    exists (fst ib). split; [apply indexed_In_range; exact Hib | exact E].
  - intros e u. unfold expr_div. simpl. rewrite map_map. simpl. auto.
Qed.

Lemma mentions_component (v : LpVar) (w cl d : Q) (fit dfnp : LpAffineExpression) :
  mentions v (expr_scale w (expr_sub (expr_add fit (expr_const cl))
                                     (expr_add (expr_const d) dfnp))) ->
  mentions v fit \/ mentions v dfnp.
Proof.
  unfold mentions, expr_scale. destruct (Qzerob w); simpl; [intros []|].
  rewrite !map_map. simpl. rewrite app_nil_r, map_app, !map_map. simpl.
  intro H. apply in_app_or in H. tauto.
Qed.

(** The declared variables of a block, by name. *)
Lemma block_section_declares (self : BlockOptimizer) (key : Z) (sec : BlockSection)
  (bricks_df : list BrickRow.t) (v : LpVar) :
  block_section self key = Ok sec ->
  zget key (BRICKS self) = Some bricks_df ->
  (exists n, (n < List.length bricks_df)%nat /\ v = BrickVar key n)
  \/ v = PopulationVar key ->
  In v (map fst (sec_variables sec)).
Proof.
  intros H Hb Hv. destruct (block_section_variable_names _ _ _ H) as [bricks' [Hb' E]].
  assert (bricks' = bricks_df) by congruence. subst bricks'.
  rewrite E. apply in_or_app. destruct Hv as [[n [Hn Ev]] | Ev]; subst v.
  - left. apply in_map. apply in_seq. lia.
  - right. left. reflexivity.
Qed.

Lemma block_section_scope (self : BlockOptimizer) (key : Z) (sec : BlockSection)
  (v : LpVar) :
  block_section self key = Ok sec ->
  (exists c, In c (sec_constraints sec) /\ mentions v (lhs c))
  \/ (exists e, In e (sec_components sec) /\ mentions v e) ->
  In v (map fst (sec_variables sec)).
Proof.
  intros H Hv. pose proof H as H0. apply block_section_Ok in H0.
  destruct H0 as [i [per [Hlu [Hnew [_ [Hb [Hcm [Hblk [_ [Hper [Ecomp _]]]]]]]]]]].
  apply (block_section_declares self key sec (in_bricks i) v H Hb).
  destruct Hv as [[c [Hc Hm]] | [e [He Hm]]].
  - destruct (block_section_constraints self key sec i H Hlu Hnew Hb Hcm Hblk)
      as [_ Hiff].
    apply Hiff in Hc.
    destruct Hc as [[serv [c0 [_ [_ [[_ E] | [_ [_ E]]]]]]] | [E | [E | E]]];
      subst c; simpl in Hm.
    + left. eapply mentions_fit_function_range. exact Hm.
    + right. eapply mentions_demand_from_new_population. exact Hm.
    + left. eapply mentions_fsi_range. exact Hm.
    + left. eapply mentions_fsi_range. exact Hm.
    + left. eapply mentions_built_area_range. exact Hm.
  - rewrite Ecomp in He. apply in_flat_map in He. destruct He as [out [Hout He]].
    destruct (mapM_In_inv _ _ _ out Hper Hout) as [serv [_ Hs]].
    apply service_section_Ok in Hs. destruct Hs as [_ [c0 [_ Eout]]].
    subst out. simpl in He.
    destruct (Qltb 0 (demand_local c0) && Qltb (capacity_local c0) (demand_local c0));
      [|destruct He].
    destruct He as [E|[]]. subst e. apply mentions_component in Hm.
    destruct Hm as [Hm|Hm].
    + left. eapply mentions_fit_function_range. exact Hm.
    + right. eapply mentions_demand_from_new_population. exact Hm.
Qed.

(** Every variable the objective or a constraint mentions is a declared
    variable of the program, and a constraint mentions variables of the
    block it was added for only: no constraint couples two blocks. *)
Theorem generate_lp_problem_scope
  (self : BlockOptimizer) (prob : LpProblem) :
  generate_lp_problem self = Ok prob ->
  (forall c v, In c (constraints prob) -> mentions v (lhs c) ->
               var_key v = cname_key (cname c) /\ In v (map fst (variables prob)))
  /\ (forall v, mentions v (objective prob) -> In v (map fst (variables prob))).
Proof.
  intro H. apply generate_lp_problem_Ok in H.
  destruct H as [secs [HF [Eo [Ec Ev]]]].
  assert (Hsub : forall sec v, In sec secs -> In v (map fst (sec_variables sec)) ->
                               In v (map fst (variables prob))).
  { intros sec v Hsec Hv. rewrite Ev. apply in_map_iff in Hv.
    destruct Hv as [d [Ed Hd]]. apply in_map_iff. exists d.
    split; [exact Ed|]. apply in_flat_map. eauto. }
  split.
  - intros c v Hc Hm. rewrite Ec in Hc. apply in_flat_map in Hc.
    destruct Hc as [sec [Hsec Hc]].
    destruct (Forall2_In_r _ _ _ _ HF Hsec) as [key [_ Hok]].
    assert (Hv : In v (map fst (sec_variables sec))).
    { eapply block_section_scope; [exact Hok|]. left. eauto. }
    split; [|eapply Hsub; eauto].
    rewrite (block_section_variable_key _ _ _ v Hok Hv).
    symmetry. eapply block_section_cname_key; eauto.
  - intros v Hm. rewrite Eo in Hm. unfold mentions in Hm.
    rewrite terms_lpSum, flat_map_concat_map, concat_map, map_map in Hm.
    apply in_concat in Hm. destruct Hm as [ts [Hts Hv]].
    apply in_map_iff in Hts. destruct Hts as [e [E He]]. subst ts.
    apply in_flat_map in He. destruct He as [sec [Hsec He]].
    destruct (Forall2_In_r _ _ _ _ HF Hsec) as [key [_ Hok]].
    eapply Hsub; [exact Hsec|].
    eapply block_section_scope; [exact Hok|]. right. exists e. split; assumption.
Qed.

(** The program of the example city. *)
Lemma generate_lp_problem_scope_witness :
  (forall c v, In c (constraints Example.prob) -> mentions v (lhs c) ->
               var_key v = cname_key (cname c)
               /\ In v (map fst (variables Example.prob)))
  /\ (forall v, mentions v (objective Example.prob) ->
                In v (map fst (variables Example.prob))).
Proof.
  apply (generate_lp_problem_scope Example.self Example.prob).
  vm_compute. reflexivity.
Defined.

(** ** The program: when it is built *)

Lemma block_section_ready (self : BlockOptimizer) (key : Z) (sec : BlockSection) :
  block_section self key = Ok sec -> block_ready self key.
Proof.
  intro H. apply block_section_Ok in H.
  destruct H as [i [per [_ [Hnew [Hne [Hb [Hcm [Hblk [Hz [Hper _]]]]]]]]]].
  assert (Hserv : forall serv, In serv (in_new i) ->
            in_bricks i <> []
            /\ sget (ServiceType.name serv) (fst (in_constants i)) <> None).
  { intros serv Hin. destruct (mapM_In _ _ _ serv Hper Hin) as [out [Hout _]].
    apply service_section_Ok in Hout. destruct Hout as [Hbne [c [Hc _]]].
    split; [exact Hbne | congruence]. }
  exists (in_new i), (in_bricks i), (in_constants i), (in_block i).
  repeat split; try assumption.
  - destruct (in_new i) as [|s r] eqn:E; [congruence|].
    apply (Hserv s). left. reflexivity.
  - intros serv Hin. apply (Hserv serv Hin).
Qed.

(** Where the blocks of the assignment have a site area other than 0, the
    program is built exactly when every block of the assignment has a
    non-empty list of candidate service types, a non-empty bricks frame,
    constants for every candidate and a record in the city model. *)
Theorem generate_lp_problem_built_iff (self : BlockOptimizer) :
  (forall key block,
     In key (zkeys (BLOCKS_LANUSE_DICT self)) ->
     zget key (blocks (city_model self)) = Some block ->
     ~ (Block.site_area block == 0)%Q) ->
  ((exists prob, generate_lp_problem self = Ok prob)
   <-> forall key, In key (zkeys (BLOCKS_LANUSE_DICT self)) ->
         exists new bricks_df cm,
           zget key (NEW_SERVICE_TYPES self) = Some new /\ new <> []
           /\ zget key (BRICKS self) = Some bricks_df /\ bricks_df <> []
           /\ zget key (CONSTANTS self) = Some cm
           /\ (forall serv, In serv new ->
                            sget (ServiceType.name serv) (fst cm) <> None)
           /\ zget key (blocks (city_model self)) <> None).
Proof.
  intro Harea. split.
  - intros [prob H] key Hkey. apply generate_lp_problem_Ok in H.
    destruct H as [secs [HF _]].
    destruct (Forall2_In_l _ _ _ _ HF Hkey) as [sec [_ Hsec]].
    apply block_section_ready in Hsec.
    destruct Hsec as [new [bricks_df [cm [block [H1 [H2 [H3 [H4 [H5 [H6 [H7 _]]]]]]]]]]].
    exists new, bricks_df, cm. repeat split; try assumption. congruence.
  - intro Hready.
    destruct (mapM_total (block_section self) (zkeys (BLOCKS_LANUSE_DICT self)))
      as [secs Hsecs]; [|unfold generate_lp_problem; rewrite Hsecs; simpl; eauto].
    intros key Hin. apply block_section_total; [exact Hin|].
    destruct (Hready key Hin) as [new [bricks_df [cm [H1 [H2 [H3 [H4 [H5 [H6 H7]]]]]]]]].
    destruct (zget key (blocks (city_model self))) as [block|] eqn:Eb; [|congruence].
    exists new, bricks_df, cm, block. repeat split; try assumption.
    apply (Harea key block Hin Eb).
Qed.

(** The example city, block 1 turned into residential land. *)
Lemma generate_lp_problem_built_iff_witness :
  (exists prob, generate_lp_problem Example.self = Ok prob)
  <-> forall key, In key (zkeys (BLOCKS_LANUSE_DICT Example.self)) ->
        exists new bricks_df cm,
          zget key (NEW_SERVICE_TYPES Example.self) = Some new /\ new <> []
          /\ zget key (BRICKS Example.self) = Some bricks_df /\ bricks_df <> []
          /\ zget key (CONSTANTS Example.self) = Some cm
          /\ (forall serv, In serv new ->
                           sget (ServiceType.name serv) (fst cm) <> None)
          /\ zget key (blocks (city_model Example.self)) <> None.
Proof.
  apply (generate_lp_problem_built_iff Example.self).
  intros key block Hin Hb. vm_compute in Hin. destruct Hin as [E|[]]. subst key.
  vm_compute in Hb. inversion Hb; subst block. vm_compute. discriminate.
Defined.

Lemma generate_lp_problem_first (self : BlockOptimizer) (key : Z) (rest : list Z)
  (e : PyError) :
  zkeys (BLOCKS_LANUSE_DICT self) = key :: rest ->
  block_section self key = Raise e ->
  generate_lp_problem self = Raise e.
Proof.
  intros Hk He. unfold generate_lp_problem. rewrite Hk. simpl. rewrite He. reflexivity.
Qed.

(** When the first block of the assignment has no candidate service type,
    building the program stops with [ZeroDivisionError] (the default
    weight divides by the number of candidates). *)
Theorem generate_lp_problem_no_candidates
  (self : BlockOptimizer) (key : Z) (rest : list Z) :
  zkeys (BLOCKS_LANUSE_DICT self) = key :: rest ->
  zget key (NEW_SERVICE_TYPES self) = Some [] ->
  generate_lp_problem self = Raise ZeroDivisionError.
Proof.
  intros Hk Hnew. apply (generate_lp_problem_first self key rest _ Hk).
  assert (Hin : In key (zkeys (BLOCKS_LANUSE_DICT self))) by (rewrite Hk; left; reflexivity).
  apply dict_get_keys in Hin. destruct Hin as [lu Hlu].
  unfold block_section. rewrite Hlu, Hnew. reflexivity.
Qed.

(** Block 1 of the example city turned into transport land. *)
Lemma generate_lp_problem_no_candidates_witness :
  generate_lp_problem Example3.self_transport = Raise ZeroDivisionError.
Proof.
  apply (generate_lp_problem_no_candidates Example3.self_transport 1 []).
  - reflexivity.
  - reflexivity.
Defined.

(** When the first block of the assignment has candidate service types but
    none of them has a brick (its bricks frame is empty), building the
    program stops with [AttributeError]. *)
Theorem generate_lp_problem_no_bricks
  (self : BlockOptimizer) (key : Z) (rest : list Z) (new : list ServiceType.t)
  (cm : Dict string Constants * Q) :
  zkeys (BLOCKS_LANUSE_DICT self) = key :: rest ->
  zget key (NEW_SERVICE_TYPES self) = Some new ->
  new <> [] ->
  zget key (BRICKS self) = Some [] ->
  zget key (CONSTANTS self) = Some cm ->
  generate_lp_problem self = Raise AttributeError.
Proof.
  intros Hk Hnew Hne Hb Hcm. apply (generate_lp_problem_first self key rest _ Hk).
  assert (Hin : In key (zkeys (BLOCKS_LANUSE_DICT self))) by (rewrite Hk; left; reflexivity).
  apply dict_get_keys in Hin. destruct Hin as [lu Hlu].
  unfold block_section. rewrite Hlu, Hnew. simpl.
  destruct new as [|s r]; [congruence|]. simpl. rewrite Hb, Hcm. reflexivity.
Qed.

(** Block 1 of the example city turned into business land. *)
Lemma generate_lp_problem_no_bricks_witness :
  generate_lp_problem Example3.self_business = Raise AttributeError.
Proof.
  apply (generate_lp_problem_no_bricks Example3.self_business 1 [] [Example.office]
           ([("office"%string, mkConstants 30 0); ("park"%string, mkConstants 60 40)], 0%Q)).
  - reflexivity.
  - reflexivity.
  - discriminate.
  - reflexivity.
  - vm_compute. reflexivity.
Defined.

(** The builder reads neither the free areas nor the original service
    types: the program is the same whatever they are. *)
Theorem generate_lp_problem_ignores_free_area
  (self : BlockOptimizer) (free_area : Dict Z Q) (orig : Dict Z (list ServiceType.t)) :
  generate_lp_problem (with_free_area_and_orig free_area orig self)
  = generate_lp_problem self.
Proof.
  unfold generate_lp_problem. simpl.
  rewrite (mapM_ext (block_section (with_free_area_and_orig free_area orig self))
                    (block_section self)); [reflexivity|].
  intros key _. reflexivity.
Qed.

(** ** The program: density against site area *)

Lemma feasible_block_constraints
  (self : BlockOptimizer) (prob : LpProblem) (x : assignment)
  (key : Z) (lu : LandUse) (bricks_df : list BrickRow.t) (block : Block.t) :
  generate_lp_problem self = Ok prob ->
  feasible prob x ->
  zget key (BLOCKS_LANUSE_DICT self) = Some lu ->
  zget key (BRICKS self) = Some bricks_df ->
  zget key (blocks (city_model self)) = Some block ->
  (built_area x key bricks_df <= Block.site_area block)%Q
  /\ (FSI_min (LAND_USE_INDICATORS lu)
      <= built_area x key bricks_df / Block.site_area block)%Q
  /\ (built_area x key bricks_df / Block.site_area block
      <= FSI_max (LAND_USE_INDICATORS lu))%Q.
Proof.
  intros Hgen [Hcons _] Hlu Hb Hblk.
  destruct (generate_lp_problem_section _ _ _ _ Hgen Hlu) as [sec [Hsec [Hc _]]].
  pose proof Hsec as H0. apply block_section_Ok in H0.
  destruct H0 as [i [_ [Ilu [Inew [_ [Ib [Icm [Iblk _]]]]]]]].
  destruct (block_section_constraints self key sec i Hsec Ilu Inew Ib Icm Iblk)
    as [_ Hiff].
  assert (E1 : in_lu i = lu) by congruence.
  assert (E2 : in_bricks i = bricks_df) by congruence.
  assert (E3 : in_block i = block) by congruence.
  rewrite E1, E2, E3 in Hiff. rewrite Forall_forall in Hcons.
  assert (Hsat : forall c, In c (sec_constraints sec) -> satisfies x c)
    by (intros c Hin; apply Hcons, Hc, Hin).
  assert (Hmax := Hsat _ (proj2 (Hiff _) (or_intror (or_introl eq_refl)))).
  assert (Hmin := Hsat _ (proj2 (Hiff _) (or_intror (or_intror (or_introl eq_refl))))).
  assert (Harea := Hsat _ (proj2 (Hiff _) (or_intror (or_intror (or_intror eq_refl))))).
  unfold satisfies in Hmax, Hmin, Harea. simpl in Hmax, Hmin, Harea.
  rewrite value_fsi_expr in Hmax, Hmin. rewrite value_built_area_expr in Harea.
  auto.
Qed.

(** On a block with positive site area an assignment the program admits
    has a floor-area ratio of at most 1, whatever the FSI maximum of the
    land use (the site-area constraint is the stricter one); for business
    land, whose FSI minimum is 1, the built area equals the site area. *)
Theorem generate_lp_problem_coverage
  (self : BlockOptimizer) (prob : LpProblem) (x : assignment)
  (key : Z) (lu : LandUse) (bricks_df : list BrickRow.t) (block : Block.t) :
  generate_lp_problem self = Ok prob ->
  feasible prob x ->
  zget key (BLOCKS_LANUSE_DICT self) = Some lu ->
  zget key (BRICKS self) = Some bricks_df ->
  zget key (blocks (city_model self)) = Some block ->
  (0 < Block.site_area block)%Q ->
  (built_area x key bricks_df / Block.site_area block <= 1)%Q
  /\ (lu = BUSINESS -> (built_area x key bricks_df == Block.site_area block)%Q).
Proof.
  intros Hgen Hfeas Hlu Hb Hblk Hpos.
  destruct (feasible_block_constraints _ _ _ _ _ _ _ Hgen Hfeas Hlu Hb Hblk)
    as [Harea [Hmin _]].
  split.
  - apply Qle_shift_div_r; [exact Hpos|]. rewrite Qmult_1_l. exact Harea.
  - intro E. subst lu. simpl in Hmin. apply Qle_antisym; [exact Harea|].
    apply (Qmult_le_r _ _ (Block.site_area block) Hpos) in Hmin.
    rewrite Qmult_1_l in Hmin.
    assert (Ediv : (built_area x key bricks_df / Block.site_area block
                    * Block.site_area block == built_area x key bricks_df)%Q).
    { field. intro Ez. rewrite Ez in Hpos. discriminate Hpos. }
    rewrite Ediv in Hmin. exact Hmin.
Qed.

Lemma example_shops_feasible : feasible Example3.prob_shops Example3.four_shops.
Proof.
  split.
  - let l := eval vm_compute in (constraints Example3.prob_shops) in
    change (Forall (satisfies Example3.four_shops) l).
    closed_Forall closed_Qle.
  - let l := eval vm_compute in (variables Example3.prob_shops) in
    change (Forall (within_bounds Example3.four_shops) l).
    closed_Forall closed_bounds.
Defined.

(** Block 1 of the example city turned into business land with four shops. *)
Lemma generate_lp_problem_coverage_witness :
  (built_area Example3.four_shops 1 (get_bricks_df [Example3.shop]) / 10000 <= 1)%Q
  /\ (BUSINESS = BUSINESS ->
      (built_area Example3.four_shops 1 (get_bricks_df [Example3.shop]) == 10000)%Q).
Proof.
  apply (generate_lp_problem_coverage Example3.self_shops Example3.prob_shops
           Example3.four_shops 1 BUSINESS (get_bricks_df [Example3.shop])
           (Block.mk 10000 RECREATION 100 [])).
  - vm_compute. reflexivity.
  - exact example_shops_feasible.
  - reflexivity.
  - reflexivity.
  - reflexivity.
  - reflexivity.
Defined.

(** ** The preparation loop of [calculate] *)

Lemma get_capacity_demand_reads
  (set_union : list ServiceType.t -> list ServiceType.t -> list ServiceType.t)
  (a b : BlockOptimizer) (key : Z) :
  city_model a = city_model b ->
  zget key (NEW_SERVICE_TYPES a) = zget key (NEW_SERVICE_TYPES b) ->
  zget key (ORIG_SERVICE_TYPES a) = zget key (ORIG_SERVICE_TYPES b) ->
  get_capacity_demand set_union a key = get_capacity_demand set_union b key.
Proof.
  intros Hc Hn Ho. unfold get_capacity_demand. rewrite Hc, Hn, Ho. reflexivity.
Qed.

Lemma prepare_block_Ok
  (set_union : list ServiceType.t -> list ServiceType.t -> list ServiceType.t)
  (self self' : BlockOptimizer) (key : Z) :
  prepare_block set_union self key = Ok self' ->
  same_outside [key] self' self /\ prepared_entry set_union self' key.
Proof.
  unfold prepare_block. intro H.
  apply bind_Ok in H. destruct H as [block [Hblock H]]. apply or_raise_Ok in Hblock.
  apply bind_Ok in H. destruct H as [lu [Hlu H]]. apply or_raise_Ok in Hlu.
  apply bind_Ok in H. destruct H as [free_area [Hfree H]].
  apply bind_Ok in H. destruct H as [cd [Hcd H]].
  unfold calculate_free_area in Hfree. simpl in Hfree. rewrite Hblock in Hfree.
  simpl in Hfree. inversion Hfree as [Efree]. clear Hfree.
  inversion H as [E]. clear H. simpl. split.
  - repeat split; simpl; try reflexivity;
      apply dict_get_set_other; intro E'; apply H; left; congruence.
  - exists block, lu, cd. simpl.
    rewrite !dict_get_set_same. repeat split; try assumption.
    rewrite Efree. reflexivity.
Qed.

Lemma prepared_entry_kept
  (set_union : list ServiceType.t -> list ServiceType.t -> list ServiceType.t)
  (keys : list Z) (a b : BlockOptimizer) (key : Z) :
  same_outside keys a b -> ~ In key keys ->
  prepared_entry set_union b key -> prepared_entry set_union a key.
Proof.
  intros [Hc [Hl [_ [_ Hd]]]] Hout [block [lu [cd H]]].
  destruct (Hd key Hout) as [Ho [Hn [Hf [Hb Hk]]]].
  destruct H as [H1 [H2 [H3 [H4 [H5 [H6 [H7 H8]]]]]]].
  exists block, lu, cd. rewrite Hc, Hl, Ho, Hn, Hf, Hb, Hk.
  repeat split; try assumption.
  rewrite <- H8. apply get_capacity_demand_reads; assumption.
Qed.

Lemma prepare_blocks_Ok
  (set_union : list ServiceType.t -> list ServiceType.t -> list ServiceType.t)
  (keys : list Z) :
  forall self self' : BlockOptimizer,
  prepare_blocks set_union self keys = Ok self' ->
  same_outside keys self' self
  /\ forall key, In key keys -> prepared_entry set_union self' key.
Proof.
  induction keys as [|k rest IH]; intros self self' H; simpl in H.
  - inversion H; subst. split; [|intros key []].
    repeat split; reflexivity.
  - apply bind_Ok in H. destruct H as [mid [Hmid H]].
    apply prepare_block_Ok in Hmid. destruct Hmid as [Hsame Hentry].
    apply IH in H. destruct H as [Hsame' Hrest].
    split.
    + destruct Hsame as [A1 [A2 [A3 [A4 A5]]]].
      destruct Hsame' as [B1 [B2 [B3 [B4 B5]]]].
      repeat split; try congruence;
        assert (N1 : ~ In key rest) by (intro; apply H; right; assumption);
        assert (N2 : ~ In key [k]) by (intros [E|[]]; apply H; left; exact E);
        destruct (B5 key N1) as [C1 [C2 [C3 [C4 C5]]]];
        destruct (A5 key N2) as [D1 [D2 [D3 [D4 D5]]]]; congruence.
    + intros key Hin.
      destruct (in_dec Z.eq_dec key rest) as [Hr|Hr]; [apply Hrest, Hr|].
      destruct Hin as [E|Hin]; [subst k | contradiction].
      apply (prepared_entry_kept set_union rest self' mid key Hsame' Hr Hentry).
Qed.

(** When the preparation loop of [calculate] is through, the optimizer
    still has the city model, assignment, scenario and facility cap it was
    given, and every block of the assignment has its records: the service
    types of its current land use and of its target land use, 0.8 of its
    site area as free area, the bricks frame of the target's service types,
    and as constants what the estimator returns for the block on the final
    state.  A block outside the assignment has no record. *)
Theorem prepare_records
  (set_union : list ServiceType.t -> list ServiceType.t -> list ServiceType.t)
  (city : CityModel) (blocks_landuse_dict : Dict Z LandUse)
  (scenario : Dict string Q) (max_facilities : option Z) (self : BlockOptimizer) :
  prepare set_union city blocks_landuse_dict scenario max_facilities = Ok self ->
  city_model self = city
  /\ BLOCKS_LANUSE_DICT self = blocks_landuse_dict
  /\ SCENARIO self = scenario
  /\ MAX_FACILITIES self = max_facilities
  /\ (forall key, In key (zkeys blocks_landuse_dict) ->
        exists block lu cd,
          zget key (blocks city) = Some block
          /\ zget key blocks_landuse_dict = Some lu
          /\ zget key (ORIG_SERVICE_TYPES self)
             = Some (get_land_use_service_types city (Block.land_use block))
          /\ zget key (NEW_SERVICE_TYPES self)
             = Some (get_land_use_service_types city lu)
          /\ zget key (FREE_AREA self) = Some (Block.site_area block * (8 # 10))%Q
          /\ zget key (BRICKS self)
             = Some (get_bricks_df (get_land_use_service_types city lu))
          /\ zget key (CONSTANTS self) = Some cd
          /\ get_capacity_demand set_union self key = Ok cd)
  /\ (forall key, ~ In key (zkeys blocks_landuse_dict) ->
        zget key (ORIG_SERVICE_TYPES self) = None
        /\ zget key (NEW_SERVICE_TYPES self) = None
        /\ zget key (FREE_AREA self) = None
        /\ zget key (BRICKS self) = None
        /\ zget key (CONSTANTS self) = None).
Proof.
  unfold prepare. intro H. apply prepare_blocks_Ok in H.
  destruct H as [[Hc [Hl [Hs [Hm Hd]]]] Hentry]. simpl in Hc, Hl, Hs, Hm.
  repeat (split; [assumption|]). split.
  - intros key Hin. destruct (Hentry key Hin) as [block [lu [cd He]]].
    rewrite Hc, Hl in He. exists block, lu, cd. exact He.
  - intros key Hout. destruct (Hd key Hout) as [H1 [H2 [H3 [H4 H5]]]].
    simpl in H1, H2, H3, H4, H5. repeat split; assumption.
Qed.

(** The example city, block 1 turned into residential land. *)
Lemma prepare_records_witness :
  city_model Example.self = Example.city
  /\ BLOCKS_LANUSE_DICT Example.self = [(1%Z, RESIDENTIAL)]
  /\ zget 1%Z (FREE_AREA Example.self) = Some (10000 * (8 # 10))%Q.
Proof.
  destruct (prepare_records Example.set_union Example.city [(1%Z, RESIDENTIAL)] []
              (Some 15%Z) Example.self) as [Hc [Hl [_ [_ [Hin _]]]]].
  - vm_compute. reflexivity.
  - split; [exact Hc|]. split; [exact Hl|].
    destruct (Hin 1%Z) as [block [lu [cd [Hb [_ [_ [_ [Hf _]]]]]]]].
    + left. reflexivity.
    + vm_compute in Hb. inversion Hb; subst block. exact Hf.
Defined.

(** ** From the preparation loop to the program *)

Lemma get_bricks_df_some (service_types : list ServiceType.t) (serv : ServiceType.t) :
  In serv service_types -> ServiceType.bricks serv <> [] ->
  get_bricks_df service_types <> [].
Proof.
  intros Hin Hne E. destruct (ServiceType.bricks serv) as [|brick r] eqn:Eb; [congruence|].
  assert (Hrow : In (BrickRow.mk (ServiceType.name serv) (Brick.capacity brick)
                                 (Brick.area brick)) (get_bricks_df service_types)).
  { unfold get_bricks_df. apply in_flat_map. exists serv. split; [exact Hin|].
    rewrite Eb. left. reflexivity. }
  rewrite E in Hrow. destruct Hrow.
Qed.

Lemma get_capacity_demand_covers
  (set_union : list ServiceType.t -> list ServiceType.t -> list ServiceType.t)
  (self : BlockOptimizer) (key : Z) (cd : Dict string Constants * Q)
  (new : list ServiceType.t) (serv : ServiceType.t) :
  (forall a b s, In s a -> In s (set_union a b)) ->
  get_capacity_demand set_union self key = Ok cd ->
  zget key (NEW_SERVICE_TYPES self) = Some new ->
  In serv new ->
  sget (ServiceType.name serv) (fst cd) <> None.
Proof.
  intros Hunion H Hnew Hin. destruct cd as [constants ceiling].
  apply get_capacity_demand_Ok in H.
  destruct H as [own [new' [orig [st [m [s [_ [Hn [_ [Hl [Hc _]]]]]]]]]]].
  assert (new' = new) by congruence. subst new' constants. simpl.
  apply (estimator_loop_keys _ _ _ _ _ _ (ServiceType.name serv) Hl).
  right. apply in_map. apply Hunion. exact Hin.
Qed.

(** Once the preparation loop of [calculate] is through, and where the
    blocks of the assignment have a site area other than 0, the program is
    built exactly when every block of the assignment has a target land use
    with a service type that has a brick (the set of service types the
    estimator enumerates holding every candidate, as a Python set does). *)
Theorem prepare_then_built
  (set_union : list ServiceType.t -> list ServiceType.t -> list ServiceType.t)
  (city : CityModel) (blocks_landuse_dict : Dict Z LandUse)
  (scenario : Dict string Q) (max_facilities : option Z) (self : BlockOptimizer) :
  (forall a b s, In s a -> In s (set_union a b)) ->
  prepare set_union city blocks_landuse_dict scenario max_facilities = Ok self ->
  (forall key block,
     In key (zkeys blocks_landuse_dict) ->
     zget key (blocks city) = Some block ->
     ~ (Block.site_area block == 0)%Q) ->
  ((exists prob, generate_lp_problem self = Ok prob)
   <-> forall key lu,
         zget key blocks_landuse_dict = Some lu ->
         exists serv, In serv (get_land_use_service_types city lu)
                      /\ ServiceType.bricks serv <> []).
Proof.
  intros Hunion H Harea. unfold prepare in H. apply prepare_blocks_Ok in H.
  destruct H as [[Hc [Hl _]] Hentry]. simpl in Hc, Hl.
  split.
  - intros [prob Hprob] key lu Hlu.
    assert (Hkey : In key (zkeys (BLOCKS_LANUSE_DICT self))).
    { rewrite Hl. apply dict_get_keys. eauto. }
    apply generate_lp_problem_Ok in Hprob. destruct Hprob as [secs [HF _]].
    destruct (Forall2_In_l _ _ _ _ HF Hkey) as [sec [_ Hsec]].
    apply block_section_ready in Hsec.
    destruct Hsec as [new [bricks_df [cm [block' [_ [_ [Hb [Hbne _]]]]]]]].
    rewrite Hl in Hkey.
    destruct (Hentry key Hkey) as [block0 [lu0 [cd [_ [E2 [_ [_ [_ [E6 _]]]]]]]]].
    rewrite Hc in *. rewrite Hl in E2.
    assert (lu0 = lu) by congruence. subst lu0.
    assert (Eb : bricks_df = get_bricks_df (get_land_use_service_types city lu))
      by congruence.
    destruct bricks_df as [|row r]; [congruence|].
    destruct (get_bricks_df_In (get_land_use_service_types city lu) row)
      as [serv [Hs [_ Hne]]]; [rewrite <- Eb; left; reflexivity | eauto].
  - intro Hall.
    destruct (mapM_total (block_section self) (zkeys (BLOCKS_LANUSE_DICT self)))
      as [secs Hsecs]; [|unfold generate_lp_problem; rewrite Hsecs; simpl; eauto].
    intros key Hkey. apply block_section_total; [exact Hkey|].
    rewrite Hl in Hkey.
    destruct (Hentry key Hkey) as [block [lu [cd [E1 [E2 [_ [E4 [_ [E6 [E7 E8]]]]]]]]]].
    destruct (Hall key lu) as [serv [Hs Hne]]; [rewrite <- Hl; exact E2 |].
    assert (Hz : ~ (Block.site_area block == 0)%Q).
    { apply (Harea key block Hkey). rewrite <- Hc. exact E1. }
    rewrite Hc in E4, E6.
    exists (get_land_use_service_types city lu),
           (get_bricks_df (get_land_use_service_types city lu)), cd, block.
    repeat split; try assumption.
    + intro E. rewrite E in Hs. destruct Hs.
    + apply (get_bricks_df_some _ serv Hs Hne).
    + intros serv' Hs'.
      apply (get_capacity_demand_covers set_union self key cd _ serv' Hunion E8 E4 Hs').
Qed.

(** The example city, block 1 turned into residential land. *)
Lemma prepare_then_built_witness :
  (exists prob, generate_lp_problem Example.self = Ok prob)
  <-> forall key lu,
        zget key [(1%Z, RESIDENTIAL)] = Some lu ->
        exists serv, In serv (get_land_use_service_types Example.city lu)
                     /\ ServiceType.bricks serv <> [].
Proof.
  apply (prepare_then_built Example.set_union Example.city [(1%Z, RESIDENTIAL)] []
           (Some 15%Z) Example.self).
  - intros a b s H. unfold Example.set_union. apply in_or_app. left. exact H.
  - vm_compute. reflexivity.
  - intros key block Hin Hb. vm_compute in Hin. destruct Hin as [E|[]]. subst key.
    vm_compute in Hb. inversion Hb; subst block. vm_compute. discriminate.
Defined.

(** ** Frames built from a dictionary of rows *)

Section DictItems.
Context {K V : Type}.
Variable K_eq_dec : forall x y : K, {x = y} + {x <> y}.

Lemma dict_get_app (k : K) (l1 l2 : Dict K V) :
  dict_get K_eq_dec k (l1 ++ l2)
  = match dict_get K_eq_dec k l1 with
    | Some v => Some v
    | None => dict_get K_eq_dec k l2
    end.
Proof.
  induction l1 as [|[k' v] r IH]; simpl; [reflexivity|].
  destruct (K_eq_dec k k'); [reflexivity | exact IH].
Qed.

Lemma dict_get_items_of (d : Dict K V) (k : K) (ks : list K) :
  dict_get K_eq_dec k
    (flat_map (fun k' => match dict_get K_eq_dec k' d with
                         | Some v => [(k', v)]
                         | None => []
                         end) ks)
  = if in_dec K_eq_dec k ks then dict_get K_eq_dec k d else None.
Proof.
  induction ks as [|k' r IH]; simpl; [reflexivity|].
  rewrite dict_get_app, IH.
  destruct (dict_get K_eq_dec k' d) as [v|] eqn:E; simpl.
  - destruct (K_eq_dec k k') as [Ek|Nk].
    + subst k'. destruct (K_eq_dec k k) as [_|N]; [|congruence].
      destruct (in_dec K_eq_dec k r); symmetry; exact E.
    + destruct (K_eq_dec k' k) as [Ek|Nk']; [congruence|].
      destruct (in_dec K_eq_dec k r); reflexivity.
  - destruct (K_eq_dec k' k) as [Ek|Nk].
    + subst k'. rewrite E. destruct (in_dec K_eq_dec k r); reflexivity.
    + destruct (in_dec K_eq_dec k r); reflexivity.
Qed.

(** Looking a key up in [d.items()] is looking it up in [d]. *)
Lemma dict_get_items (d : Dict K V) (k : K) :
  dict_get K_eq_dec k (dict_items K_eq_dec d) = dict_get K_eq_dec k d.
Proof.
  unfold dict_items. rewrite dict_get_items_of.
  destruct (in_dec K_eq_dec k (dict_keys K_eq_dec d)) as [Hin|Hout]; [reflexivity|].
  destruct (dict_get K_eq_dec k d) as [v|] eqn:E; [|reflexivity].
  exfalso. apply Hout. apply dict_get_keys. eauto.
Qed.

Lemma dict_items_In (d : Dict K V) (k : K) (v : V) :
  dict_get K_eq_dec k d = Some v -> In (k, v) (dict_items K_eq_dec d).
Proof.
  intro H. unfold dict_items. apply in_flat_map. exists k. split.
  - apply dict_get_keys. eauto.
  - rewrite H. left. reflexivity.
Qed.

Lemma dict_items_In_inv (d : Dict K V) (k : K) (v : V) :
  In (k, v) (dict_items K_eq_dec d) -> dict_get K_eq_dec k d = Some v.
Proof.
  unfold dict_items. rewrite in_flat_map. intros [k' [_ H]].
  destruct (dict_get K_eq_dec k' d) as [v'|] eqn:E; [|destruct H].
  destruct H as [H|[]]. inversion H; subst. exact E.
Qed.
End DictItems.

Lemma dict_get_row_items (k r : Z) (c : string) (l : Dict string Q) :
  dict_get cell_eq_dec (r, c) (map (fun cv => ((k, fst cv), snd cv)) l)
  = if Z.eq_dec r k then sget c l else None.
Proof.
  induction l as [|[c' v] rest IH]; simpl.
  - destruct (Z.eq_dec r k); reflexivity.
  - rewrite IH.
    destruct (cell_eq_dec (r, c) (k, c')) as [E|N].
    + inversion E; subst. destruct (Z.eq_dec k k) as [_|N]; [|congruence].
      destruct (string_dec c' c'); [reflexivity | congruence].
    + destruct (Z.eq_dec r k) as [Er|Nr]; [|reflexivity].
      destruct (string_dec c c') as [Ec|Nc]; [subst; congruence | reflexivity].
Qed.

Lemma dict_get_rows_of (update : Dict Z (Dict string Q)) (r : Z) (c : string) (ks : list Z) :
  NoDup ks ->
  dict_get cell_eq_dec (r, c)
    (flat_map (fun row => map (fun cv => ((fst row, fst cv), snd cv))
                              (dict_items string_dec (snd row)))
       (flat_map (fun k => match zget k update with
                           | Some d => [(k, d)]
                           | None => []
                           end) ks))
  = if in_dec Z.eq_dec r ks
    then match zget r update with
         | Some d => sget c d
         | None => None
         end
    else None.
Proof.
  induction 1 as [|k ks Hk Hnd IH]; simpl; [reflexivity|].
  rewrite flat_map_app, dict_get_app_cells, IH.
  destruct (zget k update) as [d|] eqn:E; simpl.
  - rewrite app_nil_r, dict_get_row_items, dict_get_items.
    destruct (Z.eq_dec r k) as [Er|Nr].
    + subst k. rewrite E. destruct (Z.eq_dec r r) as [_|N]; [|congruence].
      destruct (sget c d) as [v|]; [reflexivity|].
      destruct (in_dec Z.eq_dec r ks); [contradiction | reflexivity].
    + destruct (Z.eq_dec k r) as [Er|Nr']; [congruence|].
      destruct (in_dec Z.eq_dec r ks); reflexivity.
  - destruct (Z.eq_dec k r) as [Er|Nr].
    + subst k. rewrite E. destruct (in_dec Z.eq_dec r ks); reflexivity.
    + destruct (in_dec Z.eq_dec r ks); reflexivity.
Qed.

Lemma andb_if_None {A : Type} (b : bool) : (if b then @None A else None) = None.
Proof. destruct b; reflexivity. Qed.

(** A cell of [pd.DataFrame.from_dict(update, orient="index")]: the entry of
    the column in the row's dictionary. *)
Lemma df_at_from_dict_index (update : Dict Z (Dict string Q)) (r : Z) (c : string) :
  df_at (from_dict_index update) r c
  = match zget r update with
    | Some d => sget c d
    | None => None
    end.
Proof.
  assert (Hcell : dict_get cell_eq_dec (r, c) (df_cells (from_dict_index update))
                  = match zget r update with
                    | Some d => sget c d
                    | None => None
                    end).
  { unfold from_dict_index. cbn [df_cells]. unfold dict_items at 2.
    rewrite dict_get_rows_of by apply dedup_NoDup.
    destruct (in_dec Z.eq_dec r (zkeys update)) as [Hin|Hout]; [reflexivity|].
    destruct (zget r update) as [d|] eqn:E; [|reflexivity].
    exfalso. apply Hout. apply dict_get_keys. eauto. }
  unfold df_at. rewrite Hcell.
  destruct (zget r update) as [d|] eqn:Ed; [|apply andb_if_None].
  destruct (sget c d) as [v|] eqn:Ev; [|apply andb_if_None].
  rewrite (mem_true Z.eq_dec r), (mem_true string_dec c); [reflexivity| |].
  - unfold from_dict_index. cbn [df_columns]. apply dedup_In. apply in_flat_map.
    exists (r, d). split; [apply dict_items_In, Ed|]. simpl.
    apply dict_get_keys. eauto.
  - unfold from_dict_index. cbn [df_index].
    apply in_map_iff. exists (r, d). split; [reflexivity|].
    apply filter_In. split; [apply dict_items_In, Ed|]. simpl.
    destruct d; [discriminate | reflexivity].
Qed.

(** ** The demolition row in general *)

Lemma dict_set_not_nil {K V : Type} (K_eq_dec : forall x y : K, {x = y} + {x <> y})
  (k : K) (v : V) (d : Dict K V) : dict_set K_eq_dec k v d <> [].
Proof.
  destruct d as [|[k' v'] r]; simpl; [discriminate|].
  destruct (K_eq_dec k k'); discriminate.
Qed.

Lemma service_capacities_not_nil (services : list Service.t) :
  forall d, d <> [] \/ services <> [] ->
    fold_left (fun d serv => sset (Service.service_type serv) (- Service.capacity serv)%Q d)
              services d <> [].
Proof.
  induction services as [|s r IH]; intros d H; simpl.
  - destruct H as [H|H]; [exact H | congruence].
  - apply IH. left. apply dict_set_not_nil.
Qed.

Lemma deleting_service_capacities_nil (block : Block.t) (delete_population : bool) :
  deleting_service_capacities block delete_population = []
  <-> delete_population = false /\ Block.all_services block = [].
Proof.
  unfold deleting_service_capacities. split.
  - intro H. destruct delete_population.
    + exfalso. exact (dict_set_not_nil _ _ _ _ H).
    + split; [reflexivity|].
      destruct (Block.all_services block) as [|s r] eqn:E; [reflexivity|].
      exfalso. revert H. apply service_capacities_not_nil. right. discriminate.
  - intros [Hd Hs]. rewrite Hd, Hs. reflexivity.
Qed.

Lemma from_dict_index_one_row (key : Z) (d : Dict string Q) :
  df_index (from_dict_index [(key, d)]) = match d with [] => [] | _ => [key] end.
Proof.
  unfold from_dict_index, dict_items, dict_keys. simpl.
  destruct (Z.eq_dec key key) as [_|N]; [|congruence]. simpl.
  destruct d; reflexivity.
Qed.

Lemma get_deleting_update_df_Ok (self : BlockOptimizer) (key : Z)
  (delete_population : bool) (block : Block.t) :
  zget key (blocks (city_model self)) = Some block ->
  get_deleting_update_df self key delete_population
  = Ok (from_dict_index [(key, deleting_service_capacities block delete_population)]).
Proof. intro Hb. unfold get_deleting_update_df. rewrite Hb. reflexivity. Qed.

Lemma sget_deleting_service_capacities (block : Block.t) (delete_population : bool)
  (c : string) :
  sget c (deleting_service_capacities block delete_population)
  = if delete_population && String.eqb c "population"
    then Some (- Block.population block)%Q
    else match last_service (Block.all_services block) c with
         | Some s => Some (- Service.capacity s)%Q
         | None => None
         end.
Proof.
  unfold deleting_service_capacities. destruct delete_population; simpl.
  - destruct (String.eqb_spec c "population") as [Ec|Nc].
    + subst c. apply dict_get_set_same.
    + rewrite dict_get_set_other by exact Nc.
      apply deleting_service_capacities_last.
  - apply deleting_service_capacities_last.
Qed.

Lemma df_at_one_row (key : Z) (d : Dict string Q) (r : Z) (c : string) :
  df_at (from_dict_index [(key, d)]) r c = if Z.eqb r key then sget c d else None.
Proof.
  rewrite df_at_from_dict_index. simpl.
  destruct (Z.eq_dec r key) as [E|N];
    destruct (Z.eqb_spec r key) as [E'|N']; congruence.
Qed.

(** The demolition frame of a block of the city model: its row holds, for a
    service type, minus the capacity of the last installed service of that
    type, and under the population flag minus the block's population in
    the column [population] (also when a service type has that name); no
    other row has a cell.  The frame has the block's row unless the flag
    is off and nothing is installed, when it has no row at all. *)
Theorem get_deleting_update_df_cells
  (self : BlockOptimizer) (selected_block_id : Z) (delete_population : bool)
  (selected_block : Block.t) :
  zget selected_block_id (blocks (city_model self)) = Some selected_block ->
  exists update_df,
    get_deleting_update_df self selected_block_id delete_population = Ok update_df
    /\ (forall r c,
          df_at update_df r c
          = if Z.eqb r selected_block_id
            then if delete_population && String.eqb c "population"
                 then Some (- Block.population selected_block)%Q
                 else match last_service (Block.all_services selected_block) c with
                      | Some s => Some (- Service.capacity s)%Q
                      | None => None
                      end
            else None)
    /\ df_index update_df
       = match delete_population, Block.all_services selected_block with
         | false, [] => []
         | _, _ => [selected_block_id]
         end.
Proof.
  intro Hb. eexists. split; [apply (get_deleting_update_df_Ok _ _ _ _ Hb)|]. split.
  - intros r c. rewrite df_at_one_row, sget_deleting_service_capacities. reflexivity.
  - rewrite from_dict_index_one_row.
    destruct (deleting_service_capacities selected_block delete_population) eqn:E.
    + apply deleting_service_capacities_nil in E. destruct E as [E1 E2].
      rewrite E1, E2. reflexivity.
    + destruct delete_population; [reflexivity|].
      destruct (Block.all_services selected_block) eqn:Es; [|reflexivity].
      unfold deleting_service_capacities in E. rewrite Es in E. discriminate E.
Qed.

(** Block 5 of the example city: services A and B, 100 inhabitants. *)
Lemma get_deleting_update_df_cells_witness :
  exists update_df,
    get_deleting_update_df Example.self 5 true = Ok update_df
    /\ df_at update_df 5 "A" = Some (- (10))%Q
    /\ df_at update_df 5 "population" = Some (- (100))%Q
    /\ df_index update_df = [5%Z].
Proof.
  destruct (get_deleting_update_df_cells Example.self 5 true
              (Block.mk 1000 BUSINESS 100 [Service.mk "A" 10; Service.mk "B" 5]))
    as [update_df [H [Hcells Hindex]]].
  - reflexivity.
  - exists update_df. split; [exact H|]. split; [|split].
    + rewrite Hcells. reflexivity.
    + rewrite Hcells. reflexivity.
    + exact Hindex.
Defined.

(** ** The demolition table of the bundle *)

Lemma calculate_Ok
  (set_union : list ServiceType.t -> list ServiceType.t -> list ServiceType.t)
  (solve : LpProblem -> LpStatusCode * solution)
  (city : CityModel) (blocks_landuse_dict : Dict Z LandUse)
  (scenario : Dict string Q) (max_facilities : option Z)
  (trace : list Event) (bundle : Bundle) :
  calculate set_union solve city blocks_landuse_dict scenario max_facilities
  = (trace, Ok bundle) ->
  exists self prob decoded dfs combined_df,
    prepare set_union city blocks_landuse_dict scenario max_facilities = Ok self
    /\ generate_lp_problem self = Ok prob
    /\ get_optimal_update_df self prob (snd (solve prob)) = Ok decoded
    /\ mapM (fun key => get_deleting_update_df self key true)
            (zkeys (BLOCKS_LANUSE_DICT self)) = Ok dfs
    /\ concat_ignore_index dfs = Ok combined_df
    /\ bundle = mkBundle (fillna0 (fst (fst decoded))) (snd (fst decoded))
                         (fillna0 combined_df) (snd decoded).
Proof.
  unfold calculate.
  destruct (prepare set_union city blocks_landuse_dict scenario max_facilities)
    as [self|e] eqn:E1; simpl; [|discriminate].
  destruct (generate_lp_problem self) as [prob|e] eqn:E2; simpl; [|discriminate].
  destruct (solve prob) as [status sol] eqn:E3; simpl.
  destruct (get_optimal_update_df self prob sol) as [decoded|e] eqn:E4; simpl;
    [|discriminate].
  destruct (mapM (fun key => get_deleting_update_df self key true)
                 (zkeys (BLOCKS_LANUSE_DICT self))) as [dfs|e] eqn:E5; simpl;
    [|discriminate].
  destruct (concat_ignore_index dfs) as [combined_df|e] eqn:E6; simpl; [|discriminate].
  intro H. inversion H. exists self, prob, decoded, dfs, combined_df.
  rewrite E3. repeat split; assumption.
Qed.

(** A cell of [df.fillna(0)]. *)
Lemma df_at_fillna0 (df : DataFrame) (r : Z) (c : string) :
  df_at (fillna0 df) r c
  = if mem Z.eq_dec r (df_index df) && mem string_dec c (df_columns df)
    then Some (delta_at df r c) else None.
Proof.
  unfold df_at at 1. unfold fillna0. cbn [df_index df_columns df_cells].
  rewrite dict_get_table_cells. unfold delta_at.
  destruct (mem Z.eq_dec r (df_index df) && mem string_dec c (df_columns df)); reflexivity.
Qed.

Lemma numbered_from_fst (rows : list (DataFrame * Z)) :
  forall s, map fst (numbered_from s rows) = map Z.of_nat (seq s (List.length rows)).
Proof.
  unfold numbered_from. induction rows as [|row rest IH]; intro s; simpl; [reflexivity|].
  rewrite IH. reflexivity.
Qed.

Lemma numbered_from_before (columns : list string) (rows : list (DataFrame * Z))
  (z : Z) (c : string) :
  forall s, (z < Z.of_nat s)%Z ->
    dict_get cell_eq_dec (z, c)
      (flat_map (fun ir =>
         flat_map (fun c => match df_at (fst (snd ir)) (snd (snd ir)) c with
                            | Some v => [((fst ir, c), v)]
                            | None => []
                            end) columns) (numbered_from s rows))
    = None.
Proof.
  unfold numbered_from. induction rows as [|[df r] rest IH]; intros s Hz; simpl;
    [reflexivity|].
  rewrite dict_get_app_cells, (dict_get_row_cells (df_at df r)).
  destruct (Z.eq_dec z (Z.of_nat s)) as [E|N]; [lia|].
  apply IH. lia.
Qed.

(** A cell of the concatenation, before labels are checked: the cell of the
    frame the row comes from. *)
Lemma numbered_from_cell (columns : list string) (rows : list (DataFrame * Z))
  (c : string) :
  forall s n,
    dict_get cell_eq_dec (Z.of_nat (s + n), c)
      (flat_map (fun ir =>
         flat_map (fun c => match df_at (fst (snd ir)) (snd (snd ir)) c with
                            | Some v => [((fst ir, c), v)]
                            | None => []
                            end) columns) (numbered_from s rows))
    = match nth_error rows n with
      | Some (df, r) => if mem string_dec c columns then df_at df r c else None
      | None => None
      end.
Proof.
  induction rows as [|[df r] rest IH]; intros s n.
  - destruct n; reflexivity.
  - unfold numbered_from. simpl.
    rewrite dict_get_app_cells, (dict_get_row_cells (df_at df r)).
    destruct n as [|m].
    + replace (s + 0)%nat with s by lia.
      destruct (Z.eq_dec (Z.of_nat s) (Z.of_nat s)) as [_|N]; [|congruence]. simpl.
      destruct (mem string_dec c columns); [destruct (df_at df r c); [reflexivity|]|];
        apply (numbered_from_before columns rest (Z.of_nat s) c (S s)); lia.
    + destruct (Z.eq_dec (Z.of_nat (s + S m)) (Z.of_nat s)) as [E|N]; [lia|].
      replace (s + S m)%nat with (S s + m)%nat by lia.
      apply (IH (S s) m).
Qed.

(** A cell of [pd.concat(dfs, ignore_index=True)] in its row number [n]. *)
Lemma df_at_concat_ignore_index (dfs : list DataFrame) (combined_df : DataFrame)
  (n : nat) (df : DataFrame) (r : Z) (c : string) :
  concat_ignore_index dfs = Ok combined_df ->
  nth_error (concat_rows dfs) n = Some (df, r) ->
  df_index combined_df = map Z.of_nat (seq 0 (List.length (concat_rows dfs)))
  /\ df_columns combined_df = dedup string_dec (flat_map df_columns dfs)
  /\ df_at combined_df (Z.of_nat n) c
     = if mem string_dec c (df_columns combined_df) then df_at df r c else None.
Proof.
  intros H Hn. unfold concat_ignore_index in H.
  destruct dfs as [|df0 dfs0] eqn:Ed; [discriminate|]. rewrite <- Ed in *.
  inversion H as [E]. clear H.
  fold (concat_rows dfs). fold (numbered_from 0 (concat_rows dfs)).
  cbn [df_index df_columns]. rewrite numbered_from_fst.
  split; [reflexivity|]. split; [reflexivity|].
  unfold df_at at 1. cbn [df_index df_columns df_cells].
  rewrite (numbered_from_cell _ _ c 0 n), Hn.
  rewrite (mem_true Z.eq_dec (Z.of_nat n)).
  - simpl. destruct (mem string_dec c (dedup string_dec (flat_map df_columns dfs)));
      reflexivity.
  - apply in_map. apply in_seq. split; [lia|]. simpl.
    apply nth_error_Some. congruence.
Qed.

Lemma demolition_rows (self : BlockOptimizer) (keys : list Z) (dfs : list DataFrame) :
  Forall2 (fun key df => get_deleting_update_df self key true = Ok df) keys dfs ->
  List.length (concat_rows dfs) = List.length keys
  /\ forall i key, nth_error keys i = Some key ->
       exists block,
         zget key (blocks (city_model self)) = Some block
         /\ nth_error (concat_rows dfs) i
            = Some (from_dict_index [(key, deleting_service_capacities block true)], key).
Proof.
  induction 1 as [|key df keys dfs Hdf HF [IHl IHn]].
  - split; [reflexivity|]. intros [|i] key H; discriminate H.
  - assert (Hblock : exists block, zget key (blocks (city_model self)) = Some block).
    { unfold get_deleting_update_df in Hdf.
      destruct (zget key (blocks (city_model self))) as [block|]; [eauto | discriminate]. }
    destruct Hblock as [block Hblock].
    rewrite (get_deleting_update_df_Ok self key true block Hblock) in Hdf.
    assert (Edf : df = from_dict_index [(key, deleting_service_capacities block true)])
      by congruence.
    subst df. clear Hdf.
    assert (Hindex : df_index (from_dict_index
                                 [(key, deleting_service_capacities block true)]) = [key]).
    { rewrite from_dict_index_one_row.
      destruct (deleting_service_capacities block true) eqn:E; [|reflexivity].
      apply deleting_service_capacities_nil in E. destruct E as [E _]. discriminate E. }
    unfold concat_rows in *. cbn [flat_map]. rewrite Hindex. cbn [map app]. split.
    + cbn [List.length]. rewrite IHl. reflexivity.
    + intros [|i] key' Hk; simpl in Hk.
      * inversion Hk; subst key'. exists block. split; [exact Hblock | reflexivity].
      * apply (IHn i key' Hk).
Qed.

(** The demolition table of the bundle has one row for each block of the
    assignment, labelled by the block's position in the assignment and not
    by its id, and a column [population]; in every column of the table the
    row of a block holds what its demolition takes: minus its population,
    minus the capacity of its last installed service of the column's type,
    or 0 when it has no service of that type. *)
Theorem calculate_deleting_df
  (set_union : list ServiceType.t -> list ServiceType.t -> list ServiceType.t)
  (solve : LpProblem -> LpStatusCode * solution)
  (city : CityModel) (blocks_landuse_dict : Dict Z LandUse)
  (scenario : Dict string Q) (max_facilities : option Z)
  (trace : list Event) (bundle : Bundle) :
  calculate set_union solve city blocks_landuse_dict scenario max_facilities
  = (trace, Ok bundle) ->
  df_index (deleting_df bundle)
  = map Z.of_nat (seq 0 (List.length (zkeys blocks_landuse_dict)))
  /\ In "population"%string (df_columns (deleting_df bundle))
  /\ forall i key c,
       nth_error (zkeys blocks_landuse_dict) i = Some key ->
       In c (df_columns (deleting_df bundle)) ->
       exists block,
         zget key (blocks city) = Some block
         /\ df_at (deleting_df bundle) (Z.of_nat i) c = Some (demolition_delta block c).
Proof.
  intro H. apply calculate_Ok in H.
  destruct H as [self [prob [decoded [dfs [combined_df [Hp [_ [_ [Hm [Hc Hb]]]]]]]]]].
  unfold prepare in Hp. apply prepare_blocks_Ok in Hp.
  destruct Hp as [[Hcity [Hl _]] _]. simpl in Hcity, Hl. rewrite Hl in Hm.
  apply mapM_Ok_Forall2 in Hm. pose proof Hm as HF.
  apply demolition_rows in Hm. destruct Hm as [Hlen Hrows].
  rewrite Hcity in Hrows. subst bundle. cbn [deleting_df].
  assert (Hcell : forall i key c,
            nth_error (zkeys blocks_landuse_dict) i = Some key ->
            exists block,
              zget key (blocks city) = Some block
              /\ df_index combined_df
                 = map Z.of_nat (seq 0 (List.length (zkeys blocks_landuse_dict)))
              /\ df_at combined_df (Z.of_nat i) c
                 = if mem string_dec c (df_columns combined_df)
                   then sget c (deleting_service_capacities block true) else None).
  { intros i key c Hk. destruct (Hrows i key Hk) as [block [Hblock Hrow]].
    exists block. split; [exact Hblock|].
    destruct (df_at_concat_ignore_index dfs combined_df i _ key c Hc Hrow)
      as [Hi [_ Hat]].
    rewrite Hi, Hlen, Hat, df_at_one_row, Z.eqb_refl. split; reflexivity. }
  assert (Hfirst : exists key, nth_error (zkeys blocks_landuse_dict) 0 = Some key).
  { destruct (zkeys blocks_landuse_dict) as [|key keys] eqn:Ek; [|simpl; eauto].
    inversion HF; subst. discriminate Hc. }
  destruct Hfirst as [key0 Hkey0].
  split; [|split].
  - destruct (Hcell 0%nat key0 "population"%string Hkey0) as [_ [_ [Hi _]]]. exact Hi.
  - destruct (Hrows 0%nat key0 Hkey0) as [block [_ Hrow]].
    destruct (df_at_concat_ignore_index dfs combined_df 0 _ key0 "population"%string
                Hc Hrow) as [_ [Hcols _]].
    cbn [fillna0 df_columns]. rewrite Hcols. apply dedup_In. apply in_flat_map.
    exists (from_dict_index [(key0, deleting_service_capacities block true)]). split.
    + apply nth_error_In in Hrow. unfold concat_rows in Hrow.
      apply in_flat_map in Hrow. destruct Hrow as [df [Hdf Hin]].
      apply in_map_iff in Hin. destruct Hin as [r [E _]]. inversion E; subst. exact Hdf.
    + apply (df_at_labels _ key0 _ (- Block.population block)%Q).
      rewrite df_at_one_row, Z.eqb_refl, sget_deleting_service_capacities. reflexivity.
  - intros i key c Hk Hcol. destruct (Hcell i key c Hk) as [block [Hblock [Hi Hat]]].
    exists block. split; [exact Hblock|].
    cbn [fillna0 df_columns] in Hcol.
    rewrite df_at_fillna0, (mem_true string_dec c _ Hcol), (mem_true Z.eq_dec).
    + simpl. f_equal. unfold delta_at. rewrite Hat, (mem_true string_dec c _ Hcol).
      rewrite sget_deleting_service_capacities. unfold demolition_delta. simpl.
      destruct (String.eqb c "population"); [reflexivity|].
      destruct (last_service (Block.all_services block) c); reflexivity.
    + rewrite Hi. apply in_map. apply in_seq. split; [lia|]. simpl.
      apply nth_error_Some. congruence.
Qed.

(** The example city, block 1 turned into residential land: one row,
    numbered 0, with minus the 100 inhabitants of block 1. *)
Lemma calculate_deleting_df_witness :
  exists trace bundle,
    calculate Example.set_union (Example.constant_engine LpStatusOptimal 1)
      Example.city [(1%Z, RESIDENTIAL)] [] (Some 1%Z) = (trace, Ok bundle)
    /\ df_index (deleting_df bundle) = [0%Z]
    /\ df_at (deleting_df bundle) 0 "population" = Some (- (100))%Q.
Proof.
  assert (E : exists trace bundle,
             calculate Example.set_union (Example.constant_engine LpStatusOptimal 1)
               Example.city [(1%Z, RESIDENTIAL)] [] (Some 1%Z) = (trace, Ok bundle)).
  { eexists. eexists. vm_compute. reflexivity. }
  destruct E as [trace [bundle E]]. exists trace, bundle. split; [exact E|].
  destruct (calculate_deleting_df _ _ _ _ _ _ _ _ E) as [Hi [Hp Hcell]].
  split; [exact Hi|].
  destruct (Hcell 0%nat 1%Z "population"%string eq_refl Hp) as [block [Hb Hat]].
  vm_compute in Hb. inversion Hb; subst block. exact Hat.
Defined.

(** ** The solution decoder *)

Lemma mem_cons {K : Type} (K_eq_dec : forall x y : K, {x = y} + {x <> y})
  (a b : K) (l : list K) :
  mem K_eq_dec a (b :: l) = if K_eq_dec b a then true else mem K_eq_dec a l.
Proof.
  unfold mem. simpl. destruct (K_eq_dec b a); [reflexivity|].
  destruct (in_dec K_eq_dec a l); reflexivity.
Qed.

Lemma list_set_nth_error {A : Type} (a : A) (l : list A) :
  forall i l', list_set i a l = Some l' ->
    (exists old, nth_error l i = Some old)
    /\ forall n, nth_error l' n = if Nat.eqb n i then Some a else nth_error l n.
Proof.
  induction l as [|b r IH]; intros i l' H.
  - destruct i; discriminate H.
  - destruct i as [|j]; simpl in H.
    + inversion H; subst. split; [simpl; eauto|]. intros [|n]; reflexivity.
    + destruct (list_set j a r) as [r'|] eqn:E; simpl in H; [|discriminate H].
      inversion H; subst. destruct (IH j r' E) as [Hold Hn].
      split; [exact Hold|]. intros [|n]; [reflexivity | apply Hn].
Qed.

(** The counts after the loop over the variables: the value of a row's
    variable where the loop met it, the count before elsewhere. *)
Lemma decode_variables_counts (sol : solution) (vars : list LpVar) :
  forall st st', decode_variables sol st vars = Ok st' ->
  forall key,
    match zget key (counts st) with
    | None => zget key (counts st') = None
    | Some row =>
        exists row', zget key (counts st') = Some row'
          /\ forall n, nth_error row' n
                       = match nth_error row n with
                         | None => None
                         | Some old =>
                             Some (if mem LpVar_eq_dec (BrickVar key n) vars
                                   then match sol (BrickVar key n) with
                                        | Some v => v
                                        | None => 0%Q
                                        end
                                   else old)
                         end
    end.
Proof.
  induction vars as [|var rest IH]; intros st st' H key; simpl in H.
  - inversion H; subst. destruct (zget key (counts st')) as [row|]; [|reflexivity].
    exists row. split; [reflexivity|]. intro n. destruct (nth_error row n); reflexivity.
  - apply bind_Ok in H. destruct H as [st1 [H1 H]].
    specialize (IH st1 st' H key). destruct var as [b idx|b]; simpl in H1.
    + apply bind_Ok in H1. destruct H1 as [row0 [Hrow0 H1]]. apply or_raise_Ok in Hrow0.
      apply bind_Ok in H1. destruct H1 as [v [Hv H1]]. apply or_raise_Ok in Hv.
      apply bind_Ok in H1. destruct H1 as [row1 [Hrow1 H1]]. apply or_raise_Ok in Hrow1.
      inversion H1; subst st1. clear H1. simpl in IH.
      destruct (list_set_nth_error v row0 idx row1 Hrow1) as [[old Hold] Hnth].
      destruct (Z.eq_dec key b) as [E|N].
      * subst b. rewrite dict_get_set_same in IH. rewrite Hrow0.
        destruct IH as [row' [Hrow' Hn]]. exists row'. split; [exact Hrow'|].
        intro n. rewrite Hn, Hnth, mem_cons.
        destruct (Nat.eqb_spec n idx) as [En|Nn].
        -- subst n. rewrite Hold, Hv.
           destruct (LpVar_eq_dec (BrickVar key idx) (BrickVar key idx)) as [_|C];
             [|congruence].
           destruct (mem LpVar_eq_dec (BrickVar key idx) rest); reflexivity.
        -- destruct (LpVar_eq_dec (BrickVar key idx) (BrickVar key n)) as [C|_];
             [congruence | reflexivity].
      * rewrite dict_get_set_other in IH by exact N.
        destruct (zget key (counts st)) as [row|]; [|exact IH].
        destruct IH as [row' [Hrow' Hn]]. exists row'. split; [exact Hrow'|].
        intro n. rewrite Hn, mem_cons.
        destruct (LpVar_eq_dec (BrickVar b idx) (BrickVar key n)) as [C|_];
          [congruence | reflexivity].
    + inversion H1; subst st1. clear H1. simpl in IH.
      destruct (zget key (counts st)) as [row|]; [|exact IH].
      destruct IH as [row' [Hrow' Hn]]. exists row'. split; [exact Hrow'|].
      intro n. rewrite Hn, mem_cons.
      destruct (LpVar_eq_dec (PopulationVar b) (BrickVar key n)) as [C|_];
        [discriminate C | reflexivity].
Qed.

(** The populations after the loop over the variables. *)
Lemma decode_variables_populations (sol : solution) (vars : list LpVar) :
  forall st st', decode_variables sol st vars = Ok st' ->
  forall key,
    zget key (populations st')
    = if mem LpVar_eq_dec (PopulationVar key) vars
      then Some (sol (PopulationVar key))
      else zget key (populations st).
Proof.
  induction vars as [|var rest IH]; intros st st' H key; simpl in H.
  - inversion H; subst. reflexivity.
  - apply bind_Ok in H. destruct H as [st1 [H1 H]].
    rewrite (IH st1 st' H key), mem_cons. destruct var as [b idx|b]; simpl in H1.
    + apply bind_Ok in H1. destruct H1 as [row0 [_ H1]].
      apply bind_Ok in H1. destruct H1 as [v [_ H1]].
      apply bind_Ok in H1. destruct H1 as [row1 [_ H1]].
      inversion H1; subst st1. cbn [populations].
      destruct (LpVar_eq_dec (BrickVar b idx) (PopulationVar key)) as [C|_];
        [discriminate C | reflexivity].
    + inversion H1; subst st1. cbn [populations].
      destruct (LpVar_eq_dec (PopulationVar b) (PopulationVar key)) as [C|C].
      * inversion C; subst b. rewrite dict_get_set_same.
        destruct (mem LpVar_eq_dec (PopulationVar key) rest); reflexivity.
      * rewrite dict_get_set_other by congruence. reflexivity.
Qed.

Lemma zget_zero_counts (bricks : Dict Z (list BrickRow.t)) (key : Z) :
  zget key (map (fun kv => (fst kv, map (fun _ : BrickRow.t => 0%Q) (snd kv)))
                (dict_items Z.eq_dec bricks))
  = option_map (map (fun _ => 0%Q)) (zget key bricks).
Proof.
  rewrite <- (dict_get_items Z.eq_dec bricks key).
  induction (dict_items Z.eq_dec bricks) as [|[k v] r IH]; simpl; [reflexivity|].
  destruct (Z.eq_dec key k); [reflexivity | exact IH].
Qed.

(** The counts of a block once every variable of the program is read. *)
Lemma decoded_counts (self : BlockOptimizer) (prob : LpProblem) (sol : solution)
  (st : DecoderState) (key : Z) (bricks_df : list BrickRow.t) :
  decode_variables sol
    (mkDecoderState
       (map (fun kv => (fst kv, map (fun _ : BrickRow.t => 0%Q) (snd kv)))
            (dict_items Z.eq_dec (BRICKS self))) [])
    (prob_variables prob) = Ok st ->
  zget key (BRICKS self) = Some bricks_df ->
  zget key (counts st)
  = Some (map (fun n => decoded_assignment prob sol (BrickVar key n))
              (seq 0 (List.length bricks_df))).
Proof.
  intros H Hb. pose proof (decode_variables_counts _ _ _ _ H key) as Hc.
  cbn [counts] in Hc. rewrite zget_zero_counts, Hb in Hc. simpl in Hc.
  destruct Hc as [row' [Hrow' Hn]]. rewrite Hrow'. f_equal.
  apply nth_error_ext. intro n.
  rewrite Hn, !nth_error_map, nth_error_seq. unfold decoded_assignment.
  destruct (Nat.ltb_spec n (List.length bricks_df)) as [L|L].
  - destruct (nth_error bricks_df n) eqn:E; [reflexivity|].
    apply nth_error_None in E. lia.
  - apply nth_error_None in L. rewrite L. reflexivity.
Qed.

Lemma indexed_with_counts (g : nat -> Q) (l : list BrickRow.t) :
  forall s,
    combine (seq s (List.length (combine l (map g (seq s (List.length l))))))
            (combine l (map g (seq s (List.length l))))
    = map (fun ib => (fst ib, (snd ib, g (fst ib)))) (combine (seq s (List.length l)) l).
Proof.
  induction l as [|b r IH]; intro s; simpl; [reflexivity|].
  rewrite (IH (S s)). reflexivity.
Qed.

(** The entry of a service type in the sums of [capacity_agg], read as a
    delta: the capacities times counts of the rows of that type. *)
Lemma sum_capacity_agg_fold (name : string) (rows : list (nat * (BrickRow.t * Q))) :
  forall d,
    (match sget name
             (fold_left (fun d r =>
                let name := BrickRow.service_type (fst (snd r)) in
                let agg := (BrickRow.capacity (fst (snd r)) * snd (snd r))%Q in
                sset name (match sget name d with
                           | Some s => (s + agg)%Q
                           | None => agg
                           end) d) rows d) with
     | Some s => s
     | None => 0
     end
     == match sget name d with
        | Some s => s
        | None => 0
        end
        + Qsum (map (fun r => BrickRow.capacity (fst (snd r)) * snd (snd r))
                    (filter (fun r => String.eqb (BrickRow.service_type (fst (snd r))) name)
                            rows)))%Q.
Proof.
  induction rows as [|r rest IH]; intro d; simpl.
  - ring.
  - rewrite IH.
    destruct (String.eqb_spec (BrickRow.service_type (fst (snd r))) name) as [E|N].
    + rewrite <- E, dict_get_set_same. simpl.
      destruct (sget (BrickRow.service_type (fst (snd r))) d); ring.
    + rewrite dict_get_set_other by congruence. reflexivity.
Qed.

(** Leaving out the rows with count 0 does not change the sums. *)
Lemma Qsum_bricks_to_build (name : string) (rows : list (nat * (BrickRow.t * Q))) :
  (Qsum (map (fun r => BrickRow.capacity (fst (snd r)) * snd (snd r))
             (filter (fun r => String.eqb (BrickRow.service_type (fst (snd r))) name)
                     (filter (fun r => negb (Qzerob (snd (snd r)))) rows)))
   == Qsum (map (fun r => BrickRow.capacity (fst (snd r)) * snd (snd r))
                (filter (fun r => String.eqb (BrickRow.service_type (fst (snd r))) name)
                        rows)))%Q.
Proof.
  induction rows as [|r rest IH]; simpl; [reflexivity|].
  destruct (Qzerob (snd (snd r))) eqn:Ez; simpl.
  - apply Qzerob_true in Ez.
    destruct (String.eqb (BrickRow.service_type (fst (snd r))) name); simpl;
      rewrite IH; [rewrite Ez; ring | reflexivity].
  - destruct (String.eqb (BrickRow.service_type (fst (snd r))) name); simpl;
      rewrite IH; reflexivity.
Qed.

Lemma Qsum_rows_with_counts (x : assignment) (key : Z) (name : string)
  (l : list (nat * BrickRow.t)) :
  Qsum (map (fun r => BrickRow.capacity (fst (snd r)) * snd (snd r))%Q
            (filter (fun r : nat * (BrickRow.t * Q) =>
                       String.eqb (BrickRow.service_type (fst (snd r))) name)
                    (map (fun ib => (fst ib, (snd ib, x (BrickVar key (fst ib))))) l)))
  = Qsum (map (fun ib => BrickRow.capacity (snd ib) * x (BrickVar key (fst ib)))%Q
              (filter (fun ib => String.eqb (BrickRow.service_type (snd ib)) name) l)).
Proof.
  induction l as [|ib r IH]; simpl; [reflexivity|].
  destruct (String.eqb (BrickRow.service_type (snd ib)) name); simpl; rewrite IH;
    reflexivity.
Qed.

Lemma decode_block_Ok (self : BlockOptimizer) (vars : list LpVar) (st : DecoderState)
  (key : Z) (d : Dict string Q) (rows : list BuildRow) :
  decode_block self vars st key = Ok (d, rows) ->
  exists count bricks_df population,
    zget key (counts st) = Some count
    /\ zget key (BRICKS self) = Some bricks_df
    /\ match zget key (populations st) with
       | None => Ok 0%Q
       | Some p => or_raise TypeError p
       end = Ok population
    /\ d = let service_capacities :=
             sum_capacity_agg
               (filter (fun r => negb (Qzerob (snd (snd r))))
                       (indexed (combine bricks_df count))) in
           if Qltb 0 population
           then sset "population"%string population service_capacities
           else service_capacities.
Proof.
  unfold decode_block. intro H.
  apply bind_Ok in H. destruct H as [count [Hcount H]]. apply or_raise_Ok in Hcount.
  apply bind_Ok in H. destruct H as [bricks_df [Hb H]]. apply or_raise_Ok in Hb.
  apply bind_Ok in H. destruct H as [cm [_ H]].
  apply bind_Ok in H. destruct H as [rows' [_ H]].
  apply bind_Ok in H. destruct H as [u [_ H]].
  apply bind_Ok in H. destruct H as [population [Hp H]].
  exists count, bricks_df, population.
  repeat split; try assumption. inversion H. reflexivity.
Qed.

Lemma decode_blocks_get (self : BlockOptimizer) (vars : list LpVar) (st : DecoderState)
  (keys : list Z) :
  forall ub, decode_blocks self vars st keys = Ok ub ->
  forall key, In key keys ->
    exists d rows, decode_block self vars st key = Ok (d, rows)
                   /\ zget key (fst ub) = Some d.
Proof.
  induction keys as [|key0 rest IH]; intros ub H key Hin; [destruct Hin|].
  simpl in H. apply bind_Ok in H. destruct H as [[d0 rows0] [H0 H]].
  apply bind_Ok in H. destruct H as [r [Hr H]]. inversion H; subst ub. clear H.
  simpl. destruct (Z.eq_dec key key0) as [E|N].
  - subst key0. exists d0, rows0. split; [exact H0 | reflexivity].
  - apply (IH r Hr key). destruct Hin as [E|Hin]; [congruence | exact Hin].
Qed.

(** The row of a block in the update table: the sums of [capacity_agg]
    by service type and, above 0, the population. *)
Lemma update_cells (self : BlockOptimizer) (prob : LpProblem) (sol : solution)
  (update_df : DataFrame) (bricks_to_build : Dict Z (list BuildRow))
  (objective_value : option Q) (key : Z) (bricks_df : list BrickRow.t) :
  get_optimal_update_df self prob sol = Ok (update_df, bricks_to_build, objective_value) ->
  In key (zkeys (BLOCKS_LANUSE_DICT self)) ->
  zget key (BRICKS self) = Some bricks_df ->
  (forall name, name <> "population"%string ->
     (delta_at update_df key name
      == built_capacity (decoded_assignment prob sol) key bricks_df name)%Q)
  /\ ((0 < decoded_assignment prob sol (PopulationVar key))%Q ->
      df_at update_df key "population"
      = Some (decoded_assignment prob sol (PopulationVar key))).
Proof.
  intros H Hkey Hb. unfold get_optimal_update_df in H.
  apply bind_Ok in H. destruct H as [st [Hst H]].
  apply bind_Ok in H. destruct H as [ub [Hub H]].
  inversion H; subst update_df. clear H.
  destruct (decode_blocks_get _ _ _ _ _ Hub key Hkey) as [d [rows [Hd Hget]]].
  apply decode_block_Ok in Hd.
  destruct Hd as [count [bricks_df' [population [Hcount [Hb' [Hp Hd]]]]]].
  assert (bricks_df' = bricks_df) by congruence. subst bricks_df'.
  rewrite (decoded_counts self prob sol st key bricks_df Hst Hb) in Hcount.
  inversion Hcount as [Ecount]. clear Hcount.
  assert (Epop : population = decoded_assignment prob sol (PopulationVar key)).
  { rewrite (decode_variables_populations _ _ _ _ Hst key) in Hp.
    unfold decoded_assignment.
    destruct (mem LpVar_eq_dec (PopulationVar key) (prob_variables prob)).
    - destruct (sol (PopulationVar key)); simpl in Hp; congruence.
    - simpl in Hp. congruence. }
  unfold delta_at. split.
  - intros name Hname. rewrite df_at_from_dict_index, Hget, Hd. cbv zeta.
    assert (E : sget name
                  (if Qltb 0 population
                   then sset "population"%string population
                          (sum_capacity_agg
                             (filter (fun r => negb (Qzerob (snd (snd r))))
                                     (indexed (combine bricks_df count))))
                   else sum_capacity_agg
                          (filter (fun r => negb (Qzerob (snd (snd r))))
                                  (indexed (combine bricks_df count))))
                = sget name (sum_capacity_agg
                               (filter (fun r => negb (Qzerob (snd (snd r))))
                                       (indexed (combine bricks_df count))))).
    { destruct (Qltb 0 population); [|reflexivity].
      apply dict_get_set_other. exact Hname. }
    rewrite E. unfold sum_capacity_agg. rewrite sum_capacity_agg_fold. simpl sget.
    rewrite Qplus_0_l, Qsum_bricks_to_build. subst count. unfold indexed.
    rewrite indexed_with_counts, Qsum_rows_with_counts. reflexivity.
  - intro Hpos. rewrite df_at_from_dict_index, Hget, Hd. cbv zeta.
    rewrite <- Epop in Hpos. apply Qltb_lt in Hpos. rewrite Hpos, <- Epop.
    apply dict_get_set_same.
Qed.

(** What the decoder writes into the update table, for a program whose
    objective has a variable (pulp gives a program without one a dummy
    variable): read as a delta, the cell of a block of the assignment and a
    service type is the capacity built of that type under the solution,
    the capacities of the type's bricks times their solved counts; and a
    solved population above 0 is the cell of the column [population]. *)
Theorem get_optimal_update_df_capacity
  (self : BlockOptimizer) (prob : LpProblem) (sol : solution)
  (update_df : DataFrame) (bricks_to_build : Dict Z (list BuildRow))
  (objective_value : option Q) (key : Z) (bricks_df : list BrickRow.t) :
  get_optimal_update_df self prob sol = Ok (update_df, bricks_to_build, objective_value) ->
  terms (objective prob) <> [] ->
  In key (zkeys (BLOCKS_LANUSE_DICT self)) ->
  zget key (BRICKS self) = Some bricks_df ->
  (forall name, name <> "population"%string ->
     (delta_at update_df key name
      == built_capacity (decoded_assignment prob sol) key bricks_df name)%Q)
  /\ ((0 < decoded_assignment prob sol (PopulationVar key))%Q ->
      df_at update_df key "population"
      = Some (decoded_assignment prob sol (PopulationVar key))).
Proof.
  intros H _ Hkey Hb.
  apply (update_cells self prob sol update_df bricks_to_build objective_value key
           bricks_df H Hkey Hb).
Qed.

(** Block 1 of the example city turned into residential land, every
    variable solved to 1: one school brick of each kind is 150 places. *)
Lemma get_optimal_update_df_capacity_witness :
  exists update_df bricks_to_build objective_value,
    get_optimal_update_df Example.self_capped Example.prob_capped (fun _ => Some 1%Q)
    = Ok (update_df, bricks_to_build, objective_value)
    /\ (delta_at update_df 1 "school"
        == built_capacity (decoded_assignment Example.prob_capped (fun _ => Some 1%Q)) 1
             (get_bricks_df [Example.school; Example.kindergarten]) "school")%Q
    /\ (delta_at update_df 1 "school" == 150)%Q.
Proof.
  assert (E : exists update_df bricks_to_build objective_value,
             get_optimal_update_df Example.self_capped Example.prob_capped
               (fun _ => Some 1%Q)
             = Ok (update_df, bricks_to_build, objective_value)).
  { eexists. eexists. eexists. vm_compute. reflexivity. }
  destruct E as [update_df [bricks_to_build [objective_value E]]].
  exists update_df, bricks_to_build, objective_value. split; [exact E|].
  destruct (get_optimal_update_df_capacity Example.self_capped Example.prob_capped
              (fun _ => Some 1%Q) update_df bricks_to_build objective_value 1
              (get_bricks_df [Example.school; Example.kindergarten]) E) as [Hcap _].
  - vm_compute. discriminate.
  - left. reflexivity.
  - reflexivity.
  - assert (Hschool : "school"%string <> "population"%string) by discriminate.
    split; [exact (Hcap "school"%string Hschool)|].
    rewrite (Hcap "school"%string Hschool). vm_compute. reflexivity.
Defined.

(** ** The objective value the decoder returns *)

Lemma terms_value_spec (sol : solution) (ts : list (LpVar * Q)) :
  forall s,
    match terms_value sol s ts with
    | Some q =>
        (q == s + Qsum (map (fun t => snd t * match sol (fst t) with
                                                | Some v => v
                                                | None => 0
                                                end) ts))%Q
        /\ forall t, In t ts -> sol (fst t) <> None
    | None => exists t, In t ts /\ sol (fst t) = None
    end.
Proof.
  induction ts as [|[v x] rest IH]; intro s; simpl.
  - split; [ring | intros t []].
  - destruct (sol v) as [varValue|] eqn:E.
    + specialize (IH (s + varValue * x)%Q).
      destruct (terms_value sol (s + varValue * x) rest) as [q|].
      * destruct IH as [IH Hall]. split; [rewrite IH; ring|].
        intros t [Et|Ht]; [subst t; simpl; congruence | apply Hall, Ht].
      * destruct IH as [t [Hin Ht]]. exists t. split; [right; exact Hin | exact Ht].
    + exists (v, x). split; [left; reflexivity | exact E].
Qed.

Lemma objective_value_over_deficit (self : BlockOptimizer) (prob : LpProblem) (x : assignment) :
  generate_lp_problem self = Ok prob ->
  (value x (objective prob)
   == objective_over_deficit self x)%Q.
Proof.
  intro H. apply generate_lp_problem_Ok in H. destruct H as [secs [HF [Eo _]]].
  rewrite Eo, value_lpSum. unfold objective_over_deficit, candidate_pairs. clear Eo.
  induction HF as [|key sec keys secs Hsec _ IH]; [reflexivity|].
  simpl flat_map. rewrite filter_app, !map_app, !Qsum_app, IH.
  destruct (block_section_components self x key sec Hsec) as [new [Hnew E]].
  rewrite Hnew, E. reflexivity.
Qed.




(** ** The rows of the update table *)

Lemma from_dict_index_In (update : Dict Z (Dict string Q)) (r : Z) :
  In r (df_index (from_dict_index update))
  <-> exists d, zget r update = Some d /\ d <> [].
Proof.
  unfold from_dict_index. cbn [df_index]. rewrite in_map_iff. split.
  - intros [[r' d] [E H]]. simpl in E. subst r'. apply filter_In in H.
    destruct H as [H Hd]. apply dict_items_In_inv in H. exists d. split; [exact H|].
    simpl in Hd. destruct d; [discriminate Hd | discriminate].
  - intros [d [H Hd]]. exists (r, d). split; [reflexivity|]. apply filter_In.
    split; [apply dict_items_In, H|]. simpl. destruct d; [congruence | reflexivity].
Qed.

Lemma decode_blocks_keys (self : BlockOptimizer) (vars : list LpVar) (st : DecoderState)
  (keys : list Z) :
  forall ub, decode_blocks self vars st keys = Ok ub -> map fst (fst ub) = keys.
Proof.
  induction keys as [|key0 rest IH]; intros ub H; simpl in H.
  - inversion H. reflexivity.
  - apply bind_Ok in H. destruct H as [ub0 [_ H]].
    apply bind_Ok in H. destruct H as [r [Hr H]]. inversion H. simpl.
    rewrite (IH r Hr). reflexivity.
Qed.

Lemma capacity_agg_not_nil (rows : list (nat * (BrickRow.t * Q))) :
  forall d : Dict string Q, d <> [] ->
    fold_left (fun d r =>
                 let name := BrickRow.service_type (fst (snd r)) in
                 let agg := (BrickRow.capacity (fst (snd r)) * snd (snd r))%Q in
                 sset name (match sget name d with
                            | Some s => (s + agg)%Q
                            | None => agg
                            end) d) rows d <> [].
Proof.
  induction rows as [|r rest IH]; intros d Hd; simpl; [exact Hd|].
  apply IH. apply dict_set_not_nil.
Qed.

Lemma sum_capacity_agg_nil (rows : list (nat * (BrickRow.t * Q))) :
  sum_capacity_agg rows = [] <-> rows = [].
Proof.
  unfold sum_capacity_agg. split; [|intro E; rewrite E; reflexivity].
  destruct rows as [|r rest]; [reflexivity|]. cbn [fold_left]. intro H. exfalso.
  revert H. apply capacity_agg_not_nil. apply dict_set_not_nil.
Qed.

(** The dictionary the decoder builds for a block of the assignment, in
    terms of the decoded assignment. *)
Lemma decoded_row (self : BlockOptimizer) (prob : LpProblem) (sol : solution)
  (update_df : DataFrame) (bricks_to_build : Dict Z (list BuildRow))
  (objective_value : option Q) (key : Z) :
  get_optimal_update_df self prob sol = Ok (update_df, bricks_to_build, objective_value) ->
  In key (zkeys (BLOCKS_LANUSE_DICT self)) ->
  exists bricks_df,
    zget key (BRICKS self) = Some bricks_df
    /\ (In key (df_index update_df)
        <-> (let service_capacities :=
               sum_capacity_agg
                 (filter (fun r => negb (Qzerob (snd (snd r))))
                    (map (fun ib => (fst ib,
                                     (snd ib,
                                      decoded_assignment prob sol (BrickVar key (fst ib)))))
                         (indexed bricks_df))) in
             if Qltb 0 (decoded_assignment prob sol (PopulationVar key))
             then sset "population"%string
                       (decoded_assignment prob sol (PopulationVar key))
                       service_capacities
             else service_capacities) <> []).
Proof.
  intros H Hkey. unfold get_optimal_update_df in H.
  apply bind_Ok in H. destruct H as [st [Hst H]].
  apply bind_Ok in H. destruct H as [ub [Hub H]].
  inversion H; subst update_df. clear H.
  destruct (decode_blocks_get _ _ _ _ _ Hub key Hkey) as [d [rows [Hd Hget]]].
  apply decode_block_Ok in Hd.
  destruct Hd as [count [bricks_df [population [Hcount [Hb [Hp Hd]]]]]].
  rewrite (decoded_counts self prob sol st key bricks_df Hst Hb) in Hcount.
  inversion Hcount as [Ecount]. clear Hcount.
  assert (Epop : population = decoded_assignment prob sol (PopulationVar key)).
  { rewrite (decode_variables_populations _ _ _ _ Hst key) in Hp.
    unfold decoded_assignment.
    destruct (mem LpVar_eq_dec (PopulationVar key) (prob_variables prob)).
    - destruct (sol (PopulationVar key)); simpl in Hp; congruence.
    - simpl in Hp. congruence. }
  exists bricks_df. split; [exact Hb|].
  rewrite from_dict_index_In, Hget.
  subst count. unfold indexed in Hd. rewrite indexed_with_counts in Hd.
  fold (indexed bricks_df) in Hd. rewrite Epop in Hd. cbv zeta in Hd |- *.
  rewrite <- Hd. split.
  - intros [d' [E Hne]]. congruence.
  - intro Hne. exists d. split; [reflexivity | exact Hne].
Qed.

(** Which blocks have a row in the update table, for a program whose
    objective has a variable: the blocks of the assignment for which the
    solution adds population or builds a brick.  A block the solution
    leaves as it is has no row. *)
Theorem get_optimal_update_df_rows
  (self : BlockOptimizer) (prob : LpProblem) (sol : solution)
  (update_df : DataFrame) (bricks_to_build : Dict Z (list BuildRow))
  (objective_value : option Q) (key : Z) :
  get_optimal_update_df self prob sol = Ok (update_df, bricks_to_build, objective_value) ->
  terms (objective prob) <> [] ->
  In key (zkeys (BLOCKS_LANUSE_DICT self)) ->
  (In key (df_index update_df)
   <-> (0 < decoded_assignment prob sol (PopulationVar key))%Q
       \/ exists bricks_df n,
            zget key (BRICKS self) = Some bricks_df
            /\ (n < List.length bricks_df)%nat
            /\ ~ (decoded_assignment prob sol (BrickVar key n) == 0)%Q).
Proof.
  intros H _ Hkey.
  destruct (decoded_row _ _ _ _ _ _ key H Hkey) as [bricks_df [Hb Hrow]].
  rewrite Hrow. clear Hrow. cbv zeta. split.
  - intro Hne.
    destruct (Qltb 0 (decoded_assignment prob sol (PopulationVar key))) eqn:Ep;
      [left; apply Qltb_lt; exact Ep|].
    right. exists bricks_df.
    destruct (filter (fun r : nat * (BrickRow.t * Q) => negb (Qzerob (snd (snd r))))
                (map (fun ib => (fst ib,
                                 (snd ib,
                                  decoded_assignment prob sol (BrickVar key (fst ib)))))
                     (indexed bricks_df))) as [|r rest] eqn:Ef.
    + exfalso. apply Hne. reflexivity.
    + assert (Hr : In r (r :: rest)) by (left; reflexivity).
      rewrite <- Ef in Hr. apply filter_In in Hr. destruct Hr as [Hin Hnz].
      apply in_map_iff in Hin. destruct Hin as [ib [E Hib]]. subst r. simpl in Hnz.
      exists (fst ib). split; [exact Hb|]. split; [apply (indexed_In_range _ _ Hib)|].
      apply Qzerob_false. apply negb_true_iff. exact Hnz.
  - intros [Hpos | [bricks_df' [n [Hb' [Hn Hnz]]]]].
    + apply Qltb_lt in Hpos. rewrite Hpos. apply dict_set_not_nil.
    + assert (bricks_df' = bricks_df) by congruence. subst bricks_df'.
      assert (Hsc : sum_capacity_agg
                      (filter (fun r : nat * (BrickRow.t * Q) =>
                                 negb (Qzerob (snd (snd r))))
                         (map (fun ib => (fst ib,
                                          (snd ib,
                                           decoded_assignment prob sol
                                             (BrickVar key (fst ib)))))
                              (indexed bricks_df))) <> []).
      { rewrite sum_capacity_agg_nil. intro E.
        destruct (indexed_In bricks_df n Hn) as [row Hrow].
        assert (Hin : In (n, (row, decoded_assignment prob sol (BrickVar key n)))
                         (filter (fun r : nat * (BrickRow.t * Q) =>
                                    negb (Qzerob (snd (snd r))))
                            (map (fun ib => (fst ib,
                                             (snd ib,
                                              decoded_assignment prob sol
                                                (BrickVar key (fst ib)))))
                                 (indexed bricks_df)))).
        { apply filter_In. split.
          - apply in_map_iff. exists (n, row). split; [reflexivity | exact Hrow].
          - simpl. apply negb_true_iff. apply Qzerob_false. exact Hnz. }
        rewrite E in Hin. destruct Hin. }
      destruct (Qltb 0 (decoded_assignment prob sol (PopulationVar key)));
        [apply dict_set_not_nil | exact Hsc].
Qed.

(** Block 1 of the example city under the capped program, every variable
    solved to 1: bricks are built, so the block has its row. *)
Lemma get_optimal_update_df_rows_witness :
  exists update_df bricks_to_build objective_value,
    get_optimal_update_df Example.self_capped Example.prob_capped (fun _ => Some 1%Q)
    = Ok (update_df, bricks_to_build, objective_value)
    /\ In 1%Z (df_index update_df).
Proof.
  assert (E : exists update_df bricks_to_build objective_value,
             get_optimal_update_df Example.self_capped Example.prob_capped
               (fun _ => Some 1%Q)
             = Ok (update_df, bricks_to_build, objective_value)).
  { eexists. eexists. eexists. vm_compute. reflexivity. }
  destruct E as [update_df [bricks_to_build [objective_value E]]].
  exists update_df, bricks_to_build, objective_value. split; [exact E|].
  apply (get_optimal_update_df_rows Example.self_capped Example.prob_capped
           (fun _ => Some 1%Q) update_df bricks_to_build objective_value 1 E).
  - vm_compute. discriminate.
  - left. reflexivity.
  - right. exists (get_bricks_df [Example.school; Example.kindergarten]), 0%nat.
    split; [reflexivity|]. split; [simpl; lia|].
    vm_compute. discriminate.
Defined.

(** ** Variables without a value *)

Lemma prob_variables_section (self : BlockOptimizer) (prob : LpProblem) (v : LpVar) :
  generate_lp_problem self = Ok prob ->
  In v (prob_variables prob) ->
  exists key sec,
    block_section self key = Ok sec /\ In v (map fst (sec_variables sec)).
Proof.
  intros H Hv. apply generate_lp_problem_Ok in H.
  destruct H as [secs [HF [Eo [Ec _]]]].
  unfold prob_variables in Hv. apply dedup_In in Hv. apply in_app_or in Hv.
  destruct Hv as [Hv|Hv].
  - rewrite Eo, terms_lpSum, flat_map_concat_map, concat_map, map_map in Hv.
    apply in_concat in Hv. destruct Hv as [ts [Hts Hv]].
    apply in_map_iff in Hts. destruct Hts as [e [E He]]. subst ts.
    apply in_flat_map in He. destruct He as [sec [Hsec He]].
    destruct (Forall2_In_r _ _ _ _ HF Hsec) as [key [_ Hok]].
    exists key, sec. split; [exact Hok|].
    eapply block_section_scope; [exact Hok|]. right. exists e. split; assumption.
  - apply in_flat_map in Hv. destruct Hv as [c [Hc Hv]].
    rewrite Ec in Hc. apply in_flat_map in Hc. destruct Hc as [sec [Hsec Hc]].
    destruct (Forall2_In_r _ _ _ _ HF Hsec) as [key [_ Hok]].
    exists key, sec. split; [exact Hok|].
    eapply block_section_scope; [exact Hok|]. left. exists c. split; assumption.
Qed.

(** A count variable of a built program belongs to a row of the bricks
    frame of its block. *)
Lemma prob_variables_range (self : BlockOptimizer) (prob : LpProblem) (key : Z) (n : nat) :
  generate_lp_problem self = Ok prob ->
  In (BrickVar key n) (prob_variables prob) ->
  exists bricks_df,
    zget key (BRICKS self) = Some bricks_df /\ (n < List.length bricks_df)%nat.
Proof.
  intros H Hv. destruct (prob_variables_section self prob _ H Hv) as [key' [sec [Hok Hin]]].
  destruct (block_section_variable_names _ _ _ Hok) as [bricks_df [Hb E]].
  rewrite E in Hin. apply in_app_or in Hin. destruct Hin as [Hin | [C | []]];
    [|discriminate C].
  apply in_map_iff in Hin. destruct Hin as [m [E' Hm]]. inversion E'; subst.
  apply in_seq in Hm. exists bricks_df. split; [exact Hb | lia].
Qed.

Lemma list_set_total {A : Type} (a : A) (l : list A) :
  forall i, (i < List.length l)%nat ->
    exists l', list_set i a l = Some l' /\ List.length l' = List.length l.
Proof.
  induction l as [|b r IH]; intros i Hi; simpl in Hi; [lia|].
  destruct i as [|j]; simpl.
  - exists (a :: r). split; reflexivity.
  - destruct (IH j) as [r' [E L]]; [lia|]. rewrite E. simpl.
    exists (b :: r'). split; [reflexivity | simpl; rewrite L; reflexivity].
Qed.

(** The loop over the variables stops with [TypeError] at the first count
    variable without a value, the counts being long enough. *)
Lemma decode_variables_unvalued (sol : solution) (vars : list LpVar) :
  forall st,
    (forall b i, In (BrickVar b i) vars ->
                 exists row, zget b (counts st) = Some row /\ (i < List.length row)%nat) ->
    (exists b i, In (BrickVar b i) vars /\ sol (BrickVar b i) = None) ->
    decode_variables sol st vars = Raise TypeError.
Proof.
  induction vars as [|var rest IH]; intros st Hrange [b0 [i0 [Hin Hnone]]];
    [destruct Hin|].
  simpl. destruct var as [b i|b]; simpl.
  - destruct (Hrange b i (or_introl eq_refl)) as [row [Hrow Hi]]. rewrite Hrow. simpl.
    destruct (sol (BrickVar b i)) as [v|] eqn:Ev; simpl; [|reflexivity].
    destruct (list_set_total v row i Hi) as [row1 [Hset Hlen]]. rewrite Hset. simpl.
    apply IH.
    + intros b' i' Hin'. cbn [counts].
      destruct (Z.eq_dec b' b) as [E|N].
      * subst b'. rewrite dict_get_set_same. exists row1. split; [reflexivity|].
        destruct (Hrange b i' (or_intror Hin')) as [row' [Hrow' Hi']].
        assert (row' = row) by congruence. subst row'. lia.
      * rewrite dict_get_set_other by exact N. apply Hrange. right. exact Hin'.
    + exists b0, i0. split; [|exact Hnone].
      destruct Hin as [E|Hin]; [|exact Hin]. inversion E; subst. congruence.
  - apply IH.
    + intros b' i' Hin'. cbn [counts]. apply Hrange. right. exact Hin'.
    + exists b0, i0. split; [|exact Hnone].
      destruct Hin as [E|Hin]; [discriminate E | exact Hin].
Qed.

(** When the engine leaves a count variable of the built program without a
    value, the decoder raises [TypeError] (for a program whose objective
    has a variable, and block ids of the assignment that are not negative,
    so that the name of every variable splits at its one underscore into a
    block id and an index): no update table is returned. *)
Theorem get_optimal_update_df_unvalued
  (self : BlockOptimizer) (prob : LpProblem) (sol : solution) (key : Z) (n : nat) :
  generate_lp_problem self = Ok prob ->
  terms (objective prob) <> [] ->
  (forall k, In k (zkeys (BLOCKS_LANUSE_DICT self)) -> (0 <= k)%Z) ->
  In (BrickVar key n) (prob_variables prob) ->
  sol (BrickVar key n) = None ->
  get_optimal_update_df self prob sol = Raise TypeError.
Proof.
  intros Hgen _ _ Hin Hnone. unfold get_optimal_update_df.
  rewrite (decode_variables_unvalued sol (prob_variables prob)); [reflexivity| |].
  - intros b i Hbi. cbn [counts].
    destruct (prob_variables_range self prob b i Hgen Hbi) as [bricks_df [Hb Hi]].
    rewrite zget_zero_counts, Hb. simpl. eexists. split; [reflexivity|].
    rewrite length_map. exact Hi.
  - exists key, n. split; assumption.
Qed.

(** The capped program of the example city with no variable solved. *)
Lemma get_optimal_update_df_unvalued_witness :
  get_optimal_update_df Example.self_capped Example.prob_capped (fun _ => None)
  = Raise TypeError.
Proof.
  apply (get_optimal_update_df_unvalued Example.self_capped Example.prob_capped
           (fun _ => None) 1 0).
  - vm_compute. reflexivity.
  - vm_compute. discriminate.
  - intros k Hk. vm_compute in Hk. destruct Hk as [E|[]]. subst k. lia.
  - vm_compute. left. reflexivity.
  - reflexivity.
Defined.

(** ** When [calculate] returns a bundle *)

Lemma decode_variables_total (sol : solution) (vars : list LpVar) :
  forall st,
    (forall b i, In (BrickVar b i) vars ->
                 exists row, zget b (counts st) = Some row /\ (i < List.length row)%nat) ->
    (forall b i, In (BrickVar b i) vars -> sol (BrickVar b i) <> None) ->
    exists st', decode_variables sol st vars = Ok st'.
Proof.
  induction vars as [|var rest IH]; intros st Hrange Hval; simpl; [eauto|].
  destruct var as [b i|b]; simpl.
  - destruct (Hrange b i (or_introl eq_refl)) as [row [Hrow Hi]]. rewrite Hrow. simpl.
    destruct (sol (BrickVar b i)) as [v|] eqn:Ev;
      [|exfalso; apply (Hval b i (or_introl eq_refl)); exact Ev].
    simpl. destruct (list_set_total v row i Hi) as [row1 [Hset Hlen]].
    rewrite Hset. simpl. apply IH.
    + intros b' i' Hin'. cbn [counts].
      destruct (Z.eq_dec b' b) as [E|N].
      * subst b'. rewrite dict_get_set_same. exists row1. split; [reflexivity|].
        destruct (Hrange b i' (or_intror Hin')) as [row' [Hrow' Hi']].
        assert (row' = row) by congruence. subst row'. lia.
      * rewrite dict_get_set_other by exact N. apply Hrange. right. exact Hin'.
    + intros b' i' Hin'. apply Hval. right. exact Hin'.
  - apply IH.
    + intros b' i' Hin'. cbn [counts]. apply Hrange. right. exact Hin'.
    + intros b' i' Hin'. apply Hval. right. exact Hin'.
Qed.

Lemma decode_block_total (self : BlockOptimizer) (vars : list LpVar) (st : DecoderState)
  (key : Z) (count : list Q) (bricks_df : list BrickRow.t)
  (cm : Dict string Constants * Q) (n : nat) :
  zget key (counts st) = Some count ->
  zget key (BRICKS self) = Some bricks_df ->
  zget key (CONSTANTS self) = Some cm ->
  (forall row, In row bricks_df -> sget (BrickRow.service_type row) (fst cm) <> None) ->
  In (BrickVar key n) vars ->
  zget key (populations st) <> Some None ->
  exists r, decode_block self vars st key = Ok r.
Proof.
  intros Hcount Hb Hcm Hcover Hvar Hpop. unfold decode_block.
  rewrite Hcount, Hb, Hcm. simpl.
  destruct (mapM_total
              (fun r : nat * (BrickRow.t * Q) =>
                 c <- or_raise KeyError
                        (sget (BrickRow.service_type (fst (snd r))) (fst cm)) ;;
                 Ok (mkBuildRow (fst r) (fst (snd r)) (snd (snd r))
                                (demand_local c - capacity_local c)))
              (filter (fun r => negb (Qzerob (snd (snd r))))
                      (indexed (combine bricks_df count)))) as [rows Hrows].
  { intros r Hr. apply filter_In in Hr. destruct Hr as [Hr _].
    apply indexed_In_snd in Hr. destruct (snd r) as [row q] eqn:E.
    apply in_combine_l in Hr. simpl.
    destruct (sget (BrickRow.service_type row) (fst cm)) as [c|] eqn:Ec;
      [simpl; eauto | exfalso; apply (Hcover row Hr); exact Ec]. }
  rewrite Hrows. simpl.
  assert (Hex : existsb (fun var => match var with
                                    | BrickVar b _ => Z.eqb b key
                                    | PopulationVar _ => false
                                    end) vars = true).
  { apply existsb_exists. exists (BrickVar key n). split; [exact Hvar | apply Z.eqb_refl]. }
  rewrite Hex. simpl.
  destruct (zget key (populations st)) as [[p|]|]; simpl; [eauto | congruence | eauto].
Qed.

Lemma decode_blocks_total (self : BlockOptimizer) (vars : list LpVar) (st : DecoderState)
  (keys : list Z) :
  (forall key, In key keys -> exists r, decode_block self vars st key = Ok r) ->
  exists ub, decode_blocks self vars st keys = Ok ub.
Proof.
  induction keys as [|key rest IH]; intro H; simpl; [eauto|].
  destruct (H key (or_introl eq_refl)) as [r Hr]. rewrite Hr. simpl.
  destruct IH as [ub Hub]; [intros k Hk; apply H; right; exact Hk|].
  rewrite Hub. simpl. eauto.
Qed.

Lemma indexed_of_In (l : list BrickRow.t) (row : BrickRow.t) :
  In row l -> exists n, In (n, row) (indexed l).
Proof.
  unfold indexed. generalize 0%nat.
  induction l as [|b r IH]; intros s Hin; [destruct Hin|]. simpl.
  destruct Hin as [E|Hin].
  - subst b. exists s. left. reflexivity.
  - destruct (IH (S s) Hin) as [n Hn]. exists n. right. exact Hn.
Qed.

(** A brick of area other than 0 has its variable in the site-area
    constraint. *)
Lemma built_area_expr_mentions (key : Z) (bricks_df : list BrickRow.t) (n : nat)
  (row : BrickRow.t) :
  In (n, row) (indexed bricks_df) -> ~ (BrickRow.area row == 0)%Q ->
  mentions (BrickVar key n) (built_area_expr key bricks_df).
Proof.
  intros Hin Hnz. unfold mentions, built_area_expr.
  rewrite terms_lpSum. apply in_map_iff. exists (BrickVar key n, (BrickRow.area row * 1)%Q).
  split; [reflexivity|]. apply in_flat_map.
  exists (expr_scale (BrickRow.area row) (expr_var (BrickVar key n))). split.
  - apply in_map_iff. exists (n, row). split; [reflexivity | exact Hin].
  - unfold expr_scale. apply Qzerob_false in Hnz. rewrite Hnz. left. reflexivity.
Qed.

Lemma expr_value_total (sol : solution) (e : LpAffineExpression) :
  (forall v, mentions v e -> sol v <> None) -> exists q, expr_value sol e = Some q.
Proof.
  intro H. unfold expr_value.
  pose proof (terms_value_spec sol (terms e) (constant e)) as Hv.
  destruct (terms_value sol (constant e) (terms e)) as [q|]; [eauto|].
  destruct Hv as [t [Hin Ht]]. exfalso. apply (H (fst t)); [|exact Ht].
  apply in_map. exact Hin.
Qed.

Lemma prob_variables_site_area (self : BlockOptimizer) (prob : LpProblem) (key : Z)
  (bricks_df : list BrickRow.t) (n : nat) (row : BrickRow.t) :
  generate_lp_problem self = Ok prob ->
  In key (zkeys (BLOCKS_LANUSE_DICT self)) ->
  zget key (BRICKS self) = Some bricks_df ->
  In (n, row) (indexed bricks_df) -> ~ (BrickRow.area row == 0)%Q ->
  In (BrickVar key n) (prob_variables prob).
Proof.
  intros H Hkey Hb Hin Hnz. apply dict_get_keys in Hkey. destruct Hkey as [lu Hlu].
  destruct (generate_lp_problem_section self prob key lu H Hlu) as [sec [Hsec [Hc _]]].
  pose proof Hsec as Hok. apply block_section_Ok in Hok.
  destruct Hok as [i [per [_ [_ [_ [Hb' [_ [_ [_ [_ [_ [Ec _]]]]]]]]]]]].
  assert (E : in_bricks i = bricks_df) by congruence.
  unfold prob_variables. apply dedup_In. apply in_or_app. right.
  apply in_flat_map.
  exists (mkLpConstraint (SiteAreaConstraint key) (built_area_expr key (in_bricks i))
            LpConstraintLE (Block.site_area (in_block i))).
  split.
  - apply Hc. rewrite Ec. apply in_or_app. right. right. right. left. reflexivity.
  - cbn [lhs]. rewrite E. apply (built_area_expr_mentions key bricks_df n row Hin Hnz).
Qed.

(** The decoder returns a result when every variable of the program has a
    value and every block has a brick of area other than 0 and constants
    for the service types of its bricks. *)
Lemma get_optimal_update_df_total (self : BlockOptimizer) (prob : LpProblem)
  (sol : solution) :
  generate_lp_problem self = Ok prob ->
  (forall v, In v (prob_variables prob) -> sol v <> None) ->
  (forall key, In key (zkeys (BLOCKS_LANUSE_DICT self)) ->
     exists bricks_df cm row,
       zget key (BRICKS self) = Some bricks_df
       /\ zget key (CONSTANTS self) = Some cm
       /\ In row bricks_df /\ ~ (BrickRow.area row == 0)%Q
       /\ forall row', In row' bricks_df ->
            sget (BrickRow.service_type row') (fst cm) <> None) ->
  exists r, get_optimal_update_df self prob sol = Ok r.
Proof.
  intros Hgen Hval Hblocks. unfold get_optimal_update_df.
  destruct (decode_variables_total sol (prob_variables prob)
              (mkDecoderState
                 (map (fun kv => (fst kv, map (fun _ : BrickRow.t => 0%Q) (snd kv)))
                      (dict_items Z.eq_dec (BRICKS self))) [])) as [st Hst].
  { intros b i Hbi. cbn [counts].
    destruct (prob_variables_range self prob b i Hgen Hbi) as [bricks_df [Hb Hi]].
    rewrite zget_zero_counts, Hb. simpl. eexists. split; [reflexivity|].
    rewrite length_map. exact Hi. }
  { intros b i Hbi. apply Hval. exact Hbi. }
  rewrite Hst. simpl.
  destruct (decode_blocks_total self (prob_variables prob) st
              (zkeys (BLOCKS_LANUSE_DICT self))) as [ub Hub].
  { intros key Hkey.
    destruct (Hblocks key Hkey) as [bricks_df [cm [row [Hb [Hcm [Hrow [Hnz Hcover]]]]]]].
    destruct (indexed_of_In bricks_df row Hrow) as [n Hn].
    apply (decode_block_total self (prob_variables prob) st key _ bricks_df cm n
             (decoded_counts self prob sol st key bricks_df Hst Hb) Hb Hcm Hcover).
    - apply (prob_variables_site_area self prob key bricks_df n row Hgen Hkey Hb Hn Hnz).
    - rewrite (decode_variables_populations _ _ _ _ Hst key). cbn [populations].
      destruct (mem LpVar_eq_dec (PopulationVar key) (prob_variables prob)) eqn:Em;
        [|discriminate].
      apply mem_In in Em. intro E. inversion E as [E']. exact (Hval _ Em E'). }
  rewrite Hub. simpl. eauto.
Qed.

(** [calculate] returns a bundle, after printing the status, whenever the
    block ids of the assignment are not negative, the preparation loop
    completes, the program is built with an objective that has a variable,
    the engine gives every variable of the program a value, and the target
    land use of every block of the assignment has a service type with a
    brick of area other than 0 (the set of service types the estimator
    enumerates holding every candidate). *)
Theorem calculate_returns
  (set_union : list ServiceType.t -> list ServiceType.t -> list ServiceType.t)
  (solve : LpProblem -> LpStatusCode * solution)
  (city : CityModel) (blocks_landuse_dict : Dict Z LandUse)
  (scenario : Dict string Q) (max_facilities : option Z)
  (self : BlockOptimizer) (prob : LpProblem) :
  (forall a b s, In s a -> In s (set_union a b)) ->
  (forall key, In key (zkeys blocks_landuse_dict) -> (0 <= key)%Z) ->
  prepare set_union city blocks_landuse_dict scenario max_facilities = Ok self ->
  generate_lp_problem self = Ok prob ->
  terms (objective prob) <> [] ->
  (forall v, In v (prob_variables prob) -> snd (solve prob) v <> None) ->
  (forall key lu, zget key blocks_landuse_dict = Some lu ->
     exists serv brick,
       In serv (get_land_use_service_types city lu)
       /\ In brick (ServiceType.bricks serv)
       /\ ~ (Brick.area brick == 0)%Q) ->
  exists bundle,
    calculate set_union solve city blocks_landuse_dict scenario max_facilities
    = ([Entered StageBuild; Entered StageSolve; Printed (LpStatus (fst (solve prob)));
        Entered StageDecode; Entered StageDemolition], Ok bundle).
Proof.
  intros Hunion _ Hprep Hgen Hobj Hval Hbricks.
  pose proof Hprep as Hp. unfold prepare in Hp. apply prepare_blocks_Ok in Hp.
  destruct Hp as [[Hcity [Hl _]] Hentry]. simpl in Hcity, Hl.
  destruct (get_optimal_update_df_total self prob (snd (solve prob)) Hgen Hval)
    as [decoded Hdec].
  { intros key Hkey. rewrite Hl in Hkey.
    destruct (Hentry key Hkey) as [block [lu [cd [_ [E2 [_ [E4 [_ [E6 [E7 E8]]]]]]]]]].
    rewrite Hl in E2. rewrite Hcity in E4, E6.
    destruct (Hbricks key lu E2) as [serv [brick [Hserv [Hbrick Hnz]]]].
    exists (get_bricks_df (get_land_use_service_types city lu)), cd,
           (BrickRow.mk (ServiceType.name serv) (Brick.capacity brick) (Brick.area brick)).
    split; [exact E6|]. split; [exact E7|]. split; [|split; [exact Hnz|]].
    - unfold get_bricks_df. apply in_flat_map. exists serv. split; [exact Hserv|].
      apply in_map_iff. exists brick. split; [reflexivity | exact Hbrick].
    - intros row' Hrow'. apply get_bricks_df_In in Hrow'.
      destruct Hrow' as [serv' [Hs' [En _]]]. rewrite En.
      apply (get_capacity_demand_covers set_union self key cd _ serv' Hunion E8 E4 Hs'). }
  destruct (mapM_total (fun key => get_deleting_update_df self key true)
              (zkeys (BLOCKS_LANUSE_DICT self))) as [dfs Hdfs].
  { intros key Hkey. rewrite Hl in Hkey.
    destruct (Hentry key Hkey) as [block [lu [cd [E1 _]]]].
    rewrite (get_deleting_update_df_Ok self key true block E1). eauto. }
  assert (Hne : dfs <> []).
  { intro E. subst dfs. apply mapM_Ok_Forall2 in Hdfs. inversion Hdfs as [Ek|].
    apply generate_lp_problem_Ok in Hgen. destruct Hgen as [secs [HF [Eo _]]].
    rewrite <- Ek in HF. inversion HF; subst secs.
    apply Hobj. rewrite Eo. reflexivity. }
  unfold calculate. rewrite Hprep. simpl. rewrite Hgen. simpl.
  destruct (solve prob) as [status sol] eqn:Es. simpl in Hdec |- *.
  rewrite Hdec. simpl. rewrite Hdfs. simpl.
  destruct dfs as [|df dfs']; [congruence|]. simpl. eexists. reflexivity.
Qed.

(** The example city, block 1 turned into residential land, an engine that
    solves every variable to 1. *)
Lemma calculate_returns_witness :
  exists bundle,
    calculate Example.set_union (Example.constant_engine LpStatusOptimal 1)
      Example.city [(1%Z, RESIDENTIAL)] [] (Some 1%Z)
    = ([Entered StageBuild; Entered StageSolve; Printed "Optimal";
        Entered StageDecode; Entered StageDemolition], Ok bundle).
Proof.
  apply (calculate_returns Example.set_union (Example.constant_engine LpStatusOptimal 1)
           Example.city [(1%Z, RESIDENTIAL)] [] (Some 1%Z)
           Example.self_capped Example.prob_capped).
  - intros a b s H. unfold Example.set_union. apply in_or_app. left. exact H.
  - intros k Hk. vm_compute in Hk. destruct Hk as [E|[]]. subst k. lia.
  - vm_compute. reflexivity.
  - vm_compute. reflexivity.
  - vm_compute. discriminate.
  - intros v _. discriminate.
  - intros key lu H. simpl in H.
    destruct (Z.eq_dec key 1) as [E|N]; [|discriminate H]. inversion H; subst lu.
    exists Example.school, (Brick.mk 50 500). split; [left; reflexivity|].
    split; [left; reflexivity|]. vm_compute. discriminate.
Defined.

(** ** The estimator and the order of the set of service types *)

Lemma local_constants_unique (gdf : list GdfRow.t) (k : Z) (own : GdfRow.t)
  (catchment : list Z) (serv : ServiceType.t) (c1 c2 : Constants) :
  local_constants gdf k own catchment serv c1 ->
  local_constants gdf k own catchment serv c2 -> c1 = c2.
Proof.
  intros [rows1 [F1 [D1 C1]]] [rows2 [F2 [D2 C2]]].
  assert (E : rows1 = rows2).
  { clear D1 C1 D2 C2. revert rows2 F2.
    induction F1 as [|i r ids rows Hr _ IH]; intros rows2 F2; inversion F2; subst;
      [reflexivity|].
    f_equal; [congruence | apply IH; assumption]. }
  subst rows2. destruct c1, c2. simpl in *. congruence.
Qed.

Lemma py_max_Qeq (x y : Q) : (x == y)%Q -> (py_max x 0 == py_max y 0)%Q.
Proof. intro E. rewrite !py_max_spec, E. reflexivity. Qed.

(** The estimator's result does not depend on the order in which the set of
    service types is enumerated, as long as names identify the service
    types and service types with the same global margin have the same
    demand rate: two enumerations of the same set give the same constants
    and the same ceiling. *)
Theorem get_capacity_demand_any_order
  (set_union set_union' : list ServiceType.t -> list ServiceType.t -> list ServiceType.t)
  (self : BlockOptimizer) (selected_block_id : Z) (own : GdfRow.t)
  (new orig : list ServiceType.t)
  (constants constants' : Dict string Constants) (ceiling ceiling' : Q) :
  let margin := global_margin (get_blocks_gdf (city_model self)) selected_block_id own in
  get_capacity_demand set_union self selected_block_id = Ok (constants, ceiling) ->
  get_capacity_demand set_union' self selected_block_id = Ok (constants', ceiling') ->
  gdf_loc (get_blocks_gdf (city_model self)) selected_block_id = Some own ->
  zget selected_block_id (NEW_SERVICE_TYPES self) = Some new ->
  zget selected_block_id (ORIG_SERVICE_TYPES self) = Some orig ->
  (forall s, In s (set_union new orig) <-> In s (set_union' new orig)) ->
  (forall s s', In s (set_union new orig) -> In s' (set_union new orig) ->
                ServiceType.name s = ServiceType.name s' -> s = s') ->
  (forall s s', In s (set_union new orig) -> In s' (set_union new orig) ->
                (margin s == margin s')%Q ->
                (ServiceType.demand s == ServiceType.demand s')%Q) ->
  (forall n, sget n constants = sget n constants') /\ (ceiling == ceiling')%Q.
Proof.
  intros margin H H' Hown Hnew Horig Hset Hnames Hties. split.
  - intro n.
    pose proof H as H0. pose proof H' as H0'.
    apply get_capacity_demand_Ok in H0.
    destruct H0 as [own1 [new1 [orig1 [st [m [s [Ho [Hn [Hor [Hl [Hc _]]]]]]]]]]].
    apply get_capacity_demand_Ok in H0'.
    destruct H0' as [own2 [new2 [orig2 [st' [m' [s' [Ho' [Hn' [Hor' [Hl' [Hc' _]]]]]]]]]]].
    assert (own1 = own) by congruence. assert (new1 = new) by congruence.
    assert (orig1 = orig) by congruence. assert (own2 = own) by congruence.
    assert (new2 = new) by congruence. assert (orig2 = orig) by congruence.
    subst own1 new1 orig1 own2 new2 orig2 constants constants'.
    destruct (in_dec string_dec n (map ServiceType.name (set_union new orig))) as [Hin|Hout].
    + apply in_map_iff in Hin. destruct Hin as [serv [En Hserv]]. subst n.
      destruct (@estimator_loop_local _ _ _ _ _ Hnames _ _ _ Hl Hserv) as [c [Ec Lc]].
      assert (Hnames' : forall a b, In a (set_union' new orig) ->
                In b (set_union' new orig) ->
                ServiceType.name a = ServiceType.name b -> a = b).
      { intros a b Ha Hb. apply Hnames; apply Hset; assumption. }
      destruct (@estimator_loop_local _ _ _ _ _ Hnames' _ _ _ Hl' (proj1 (Hset serv) Hserv))
        as [c' [Ec' Lc']].
      rewrite Ec, Ec'. f_equal. eapply local_constants_unique; eassumption.
    + rewrite (estimator_loop_preserves _ _ _ _ _ _ n Hl Hout).
      rewrite (estimator_loop_preserves _ _ _ _ _ _ n Hl'); [reflexivity|].
      intro Hin. apply Hout. apply in_map_iff in Hin. destruct Hin as [serv [En Hserv]].
      apply in_map_iff. exists serv. split; [exact En | apply Hset, Hserv].
  - destruct (get_capacity_demand_minimum set_union self selected_block_id constants
                ceiling own new orig H Hown Hnew Horig) as [s [Hs [Hmin Ec]]].
    destruct (get_capacity_demand_minimum set_union' self selected_block_id constants'
                ceiling' own new orig H' Hown Hnew Horig) as [s' [Hs' [Hmin' Ec']]].
    fold margin in Hmin, Hmin', Ec, Ec'.
    assert (Em : (margin s == margin s')%Q).
    { apply Qle_antisym; [apply Hmin; apply Hset; exact Hs' | apply Hmin'; apply Hset; exact Hs]. }
    assert (Ed : (ServiceType.demand s == ServiceType.demand s')%Q).
    { apply Hties; [exact Hs | apply Hset; exact Hs' | exact Em]. }
    rewrite Ec, Ec'. apply py_max_Qeq. rewrite Em, Ed. reflexivity.
Qed.

(** Block 1 of the example city, the set of service types enumerated
    forwards and backwards. *)
Lemma get_capacity_demand_any_order_witness :
  exists constants ceiling constants' ceiling',
    get_capacity_demand Example.set_union Example.self 1 = Ok (constants, ceiling)
    /\ get_capacity_demand Example3.set_union_rev Example.self 1 = Ok (constants', ceiling')
    /\ (forall n, sget n constants = sget n constants')
    /\ (ceiling == ceiling')%Q.
Proof.
  assert (E : exists constants ceiling,
             get_capacity_demand Example.set_union Example.self 1 = Ok (constants, ceiling)).
  { eexists. eexists. vm_compute. reflexivity. }
  destruct E as [constants [ceiling E]].
  assert (E' : exists constants' ceiling',
             get_capacity_demand Example3.set_union_rev Example.self 1
             = Ok (constants', ceiling')).
  { eexists. eexists. vm_compute. reflexivity. }
  destruct E' as [constants' [ceiling' E']].
  exists constants, ceiling, constants', ceiling'.
  split; [exact E|]. split; [exact E'|].
  apply (get_capacity_demand_any_order Example.set_union Example3.set_union_rev
           Example.self 1 (GdfRow.mk 1 100 (Example.capacities 0 0))
           [Example.school; Example.kindergarten] [Example.park]
           constants constants' ceiling ceiling' E E').
  - reflexivity.
  - reflexivity.
  - reflexivity.
  - intro s. unfold Example3.set_union_rev. apply in_rev.
  - exact example_names_unique.
  - simpl. intros s s' [H|[H|[H|[]]]] [H'|[H'|[H'|[]]]] Em; subst; try reflexivity;
      vm_compute in Em; discriminate Em.
Defined.

(** ** New population never pays *)

Lemma value_without_population (x : assignment) (e : LpAffineExpression) :
  (forall v, mentions v e -> exists n, exists key, v = BrickVar key n) ->
  value (without_population x) e = value x e.
Proof.
  intro H. unfold value. f_equal. f_equal. apply map_ext_in. intros t Ht.
  destruct (H (fst t)) as [n [key E]]; [apply in_map; exact Ht|].
  rewrite E. reflexivity.
Qed.

Lemma built_capacity_without_population (x : assignment) (key : Z)
  (bricks_df : list BrickRow.t) (serv : string) :
  built_capacity (without_population x) key bricks_df serv
  = built_capacity x key bricks_df serv.
Proof. reflexivity. Qed.

Lemma Qsum_map_le {A : Type} (f g : A -> Q) (l : list A) :
  (forall a, In a l -> (f a <= g a)%Q) -> (Qsum (map f l) <= Qsum (map g l))%Q.
Proof.
  induction l as [|a r IH]; simpl; intro H; [apply Qle_refl|].
  apply Qplus_le_compat; [apply H; left; reflexivity|].
  apply IH. intros b Hb. apply H. right. exact Hb.
Qed.

Lemma population_variable_declared (self : BlockOptimizer) (prob : LpProblem) (key : Z) :
  generate_lp_problem self = Ok prob ->
  In key (zkeys (BLOCKS_LANUSE_DICT self)) ->
  In (PopulationVar key, mkLpVariable (Some 0%Q) None LpInteger) (variables prob).
Proof.
  intros H Hkey. apply dict_get_keys in Hkey. destruct Hkey as [lu Hlu].
  destruct (generate_lp_problem_section self prob key lu H Hlu) as [sec [Hsec [_ Hv]]].
  apply block_section_Ok in Hsec.
  destruct Hsec as [i [per [_ [_ [_ [_ [_ [_ [_ [_ [_ [_ Ev]]]]]]]]]]]].
  apply Hv. rewrite Ev. apply in_or_app. right. left. reflexivity.
Qed.

(** Under weights and demand rates that are not negative, planning new
    population never pays: putting every population variable to 0 keeps an
    assignment within the program and does not lower the objective (new
    population only adds demand, and nothing bounds it from below but 0). *)
Theorem generate_lp_problem_population_idle
  (self : BlockOptimizer) (prob : LpProblem) (x : assignment) :
  generate_lp_problem self = Ok prob ->
  feasible prob x ->
  (forall key new serv,
     zget key (NEW_SERVICE_TYPES self) = Some new -> In serv new ->
     (0 <= service_weight_of self new serv)%Q /\ (0 <= ServiceType.demand serv)%Q) ->
  feasible prob (without_population x)
  /\ (value x (objective prob) <= value (without_population x) (objective prob))%Q.
Proof.
  intros Hgen [Hcons Hbounds] Hsign. split; [split|].
  - apply Forall_forall. intros k Hk.
    pose proof (proj1 (Forall_forall _ _) Hcons k Hk) as Hsat.
    pose proof Hgen as G. apply generate_lp_problem_Ok in G.
    destruct G as [secs [HF [_ [Hc _]]]]. rewrite Hc in Hk.
    apply in_flat_map in Hk. destruct Hk as [sec [Hin Hk]].
    destruct (Forall2_In_r _ _ _ _ HF Hin) as [key [_ Hsec]].
    pose proof Hsec as H1. apply block_section_Ok in H1.
    destruct H1 as [j [_ [Jlu [Jnew [_ [Jb [Jcm [Jblk _]]]]]]]].
    destruct (block_section_constraints self key sec j Hsec Jlu Jnew Jb Jcm Jblk)
      as [_ Jiff].
    apply Jiff in Hk.
    destruct Hk as [[serv [c [Hserv [Hc' [[_ E] | [Hs [_ E]]]]]]] | [E | [E | E]]];
      subst k; unfold satisfies in *; cbn [sense lhs rhs gap_constraint slack_constraint]
      in *.
    + rewrite value_without_population; [exact Hsat|].
      intros v Hv. apply mentions_fit_function in Hv. destruct Hv as [n Hn]. eauto.
    + rewrite value_demand_from_new_population. unfold added_demand, without_population.
      unfold in_surplus in Hs. unfold Qdiv. rewrite !Qmult_0_l. lra.
    + rewrite value_without_population; [exact Hsat|].
      intros v Hv. apply mentions_fsi_expr in Hv. destruct Hv as [n Hn]. eauto.
    + rewrite value_without_population; [exact Hsat|].
      intros v Hv. apply mentions_fsi_expr in Hv. destruct Hv as [n Hn]. eauto.
    + rewrite value_without_population; [exact Hsat|].
      intros v Hv. apply mentions_built_area_expr in Hv. destruct Hv as [n Hn]. eauto.
  - apply Forall_forall. intros d Hd.
    pose proof (proj1 (Forall_forall _ _) Hbounds d Hd) as Hb.
    destruct d as [[key n|key] var]; [exact Hb|].
    pose proof Hgen as G. apply generate_lp_problem_Ok in G.
    destruct G as [secs [HF [_ [_ Hv]]]]. rewrite Hv in Hd.
    apply in_flat_map in Hd. destruct Hd as [sec [Hin Hd]].
    destruct (Forall2_In_r _ _ _ _ HF Hin) as [key' [_ Hsec]].
    rewrite (block_section_variables_population self key key' sec var Hsec Hd).
    unfold within_bounds. cbn [fst snd lowBound upBound cat without_population].
    split; [|split].
    + intros l E. inversion E. apply Qle_refl.
    + intros u E. discriminate E.
    + intros _. exists 0%Z. reflexivity.
  - rewrite !(objective_value_over_deficit self prob _ Hgen).
    unfold objective_over_deficit. apply Qsum_map_le.
    intros [key serv] Hp. apply filter_In in Hp. destruct Hp as [Hp _].
    unfold candidate_pairs in Hp. apply in_flat_map in Hp.
    destruct Hp as [key' [Hkey Hp]].
    destruct (zget key' (NEW_SERVICE_TYPES self)) as [new|] eqn:Enew; [|destruct Hp].
    apply in_map_iff in Hp. destruct Hp as [serv' [E Hserv]].
    inversion E; subst key' serv'. clear E.
    unfold pair_term. cbn [fst snd]. rewrite Enew.
    destruct (zget key (BRICKS self)) as [bricks_df|]; [|apply Qle_refl].
    destruct (zget key (CONSTANTS self)) as [cm|]; [|apply Qle_refl].
    destruct (sget (ServiceType.name serv) (fst cm)) as [c|]; [|apply Qle_refl].
    destruct (Hsign key new serv Enew Hserv) as [Hw Hd].
    rewrite built_capacity_without_population.
    assert (Hpop : (0 <= x (PopulationVar key))%Q).
    { pose proof (population_variable_declared self prob key Hgen Hkey) as Hdecl.
      pose proof (proj1 (Forall_forall _ _) Hbounds _ Hdecl) as [Hlow _].
      apply (Hlow 0%Q). reflexivity. }
    assert (Hadd : (0 <= added_demand x key serv)%Q).
    { unfold added_demand, Qdiv. apply Qmult_le_0_compat; [|discriminate].
      apply Qmult_le_0_compat; assumption. }
    assert (Hzero : (added_demand (without_population x) key serv == 0)%Q).
    { unfold added_demand, without_population, Qdiv. ring. }
    rewrite !(Qmult_comm (service_weight_of self new serv)).
    apply Qmult_le_compat_r; [|exact Hw]. rewrite Hzero. lra.
Qed.

Lemma example_newcomers_feasible : feasible Example.prob Example3.seven_newcomers.
Proof.
  split.
  - let l := eval vm_compute in (constraints Example.prob) in
    change (Forall (satisfies Example3.seven_newcomers) l).
    closed_Forall closed_Qle.
  - let l := eval vm_compute in (variables Example.prob) in
    change (Forall (within_bounds Example3.seven_newcomers) l).
    closed_Forall closed_bounds.
Defined.

(** The program of the example city under thirteen kindergarten bricks and
    a new population of 7: the objective is -7573/25 with the population
    and -605/2 without it. *)
Lemma generate_lp_problem_population_idle_witness :
  (0 < Example3.seven_newcomers (PopulationVar 1))%Q
  /\ (value Example3.seven_newcomers (objective Example.prob) == - (7573 # 25))%Q
  /\ (value (without_population Example3.seven_newcomers) (objective Example.prob)
      == - (605 # 2))%Q
  /\ feasible Example.prob (without_population Example3.seven_newcomers)
  /\ (value Example3.seven_newcomers (objective Example.prob)
      <= value (without_population Example3.seven_newcomers)
               (objective Example.prob))%Q.
Proof.
  split; [reflexivity|]. split; [vm_compute; reflexivity|].
  split; [vm_compute; reflexivity|].
  apply (generate_lp_problem_population_idle Example.self Example.prob
           Example3.seven_newcomers).
  - vm_compute. reflexivity.
  - exact example_newcomers_feasible.
  - intros key new serv Hnew Hserv. simpl in Hnew.
    destruct (Z.eq_dec key 1) as [E|N]; [|discriminate Hnew].
    inversion Hnew; subst new. clear Hnew.
    destruct Hserv as [E'|[E'|[]]]; subst serv; split; vm_compute; discriminate.
Defined.

(** ** The weights of a block's candidates *)

Lemma Qsum_Permutation (l l' : list Q) : Permutation l l' -> (Qsum l == Qsum l')%Q.
Proof.
  induction 1 as [|a l l' _ IH|a b l|l l' l'' _ IH1 _ IH2]; simpl.
  - reflexivity.
  - rewrite IH. reflexivity.
  - ring.
  - rewrite IH1. exact IH2.
Qed.

Lemma NoDup_names_filter (p : ServiceType.t -> bool) (l : list ServiceType.t) :
  NoDup (map ServiceType.name l) -> NoDup (map ServiceType.name (filter p l)).
Proof.
  induction l as [|s r IH]; simpl; intro H; [constructor|].
  inversion H as [|n ns Hn Hr]; subst.
  destruct (p s); simpl; [|apply IH, Hr].
  constructor; [|apply IH, Hr].
  intro Hin. apply Hn. apply in_map_iff in Hin. destruct Hin as [s' [E Hs']].
  apply filter_In in Hs'. apply in_map_iff. exists s'. tauto.
Qed.

(** The weights of the candidates the scenario names add up to the sum the
    builder takes off 1 before dividing. *)
Lemma scenario_coef_sum_candidates (self : BlockOptimizer) (new : list ServiceType.t) :
  NoDup (map ServiceType.name new) ->
  (Qsum (map (service_weight_of self new) (filter (in_scenario self) new))
   == scenario_coef_sum self new)%Q.
Proof.
  intro Hnd. unfold scenario_coef_sum.
  destruct (Nat.eqb_spec (List.length (SCENARIO self)) 0) as [E|N].
  - assert (Es : SCENARIO self = []) by (destruct (SCENARIO self); [reflexivity | discriminate E]).
    assert (Ef : filter (in_scenario self) new = []).
    { induction new as [|s r IH]; [reflexivity|]. simpl. unfold in_scenario at 1.
      rewrite Es. simpl. apply IH. inversion Hnd. assumption. }
    rewrite Ef. reflexivity.
  - set (g := fun k => match sget k (SCENARIO self) with
                       | Some w => w
                       | None => 0%Q
                       end).
    assert (E1 : map (service_weight_of self new) (filter (in_scenario self) new)
                 = map g (map ServiceType.name (filter (in_scenario self) new))).
    { rewrite map_map. apply map_ext_in. intros s Hs. apply filter_In in Hs.
      destruct Hs as [_ Hs]. unfold in_scenario in Hs. unfold service_weight_of, g.
      destruct (sget (ServiceType.name s) (SCENARIO self)); [reflexivity | discriminate Hs]. }
    rewrite E1. apply Qsum_Permutation. apply Permutation_map.
    apply NoDup_Permutation.
    + apply NoDup_names_filter. exact Hnd.
    + apply NoDup_filter. apply dedup_NoDup.
    + intro k. rewrite in_map_iff, filter_In. split.
      * intros [s [Ek Hs]]. apply filter_In in Hs. destruct Hs as [Hs Hin]. subst k.
        split.
        -- apply dict_get_keys. unfold in_scenario in Hin.
           destruct (sget (ServiceType.name s) (SCENARIO self)) as [w|]; [eauto | discriminate].
        -- apply existsb_exists. exists (ServiceType.name s).
           split; [apply in_map; exact Hs | apply String.eqb_refl].
      * intros [Hk Hex]. apply existsb_exists in Hex. destruct Hex as [n [Hn En]].
        apply String.eqb_eq in En. subst n. apply in_map_iff in Hn.
        destruct Hn as [s [Es Hs]]. exists s. split; [exact Es|].
        apply filter_In. split; [exact Hs|]. unfold in_scenario. rewrite Es.
        apply dict_get_keys in Hk. destruct Hk as [w Hw]. rewrite Hw. reflexivity.
Qed.

Lemma weights_split (self : BlockOptimizer) (new l : list ServiceType.t) :
  (Qsum (map (service_weight_of self new) l)
   == Qsum (map (service_weight_of self new) (filter (in_scenario self) l))
      + inject_Z (Z.of_nat (List.length (filter (fun s => negb (in_scenario self s)) l)))
        * default_weight_of self new)%Q.
Proof.
  induction l as [|s r IH]; [simpl; ring|].
  assert (Ew : service_weight_of self new s
               = if in_scenario self s then service_weight_of self new s
                 else default_weight_of self new).
  { unfold service_weight_of, in_scenario.
    destruct (sget (ServiceType.name s) (SCENARIO self)); reflexivity. }
  cbn [map filter]. destruct (in_scenario self s); cbn [negb map List.length].
  - change (Qsum (?a :: ?l)) with (a + Qsum l)%Q. rewrite IH. ring.
  - change (Qsum (?a :: ?l)) with (a + Qsum l)%Q.
    rewrite IH, Ew, Nat2Z.inj_succ, <- Z.add_1_r, inject_Z_plus. ring.
Qed.

(** The weights the objective gives the candidates of a block with
    distinct names add up to 1 - (1 - s) * k / n, for n candidates of
    which the scenario names k with weights adding up to s: to 1 only when
    the scenario names no candidate or its weights for the candidates
    already add up to 1 (the rest is divided by n, not by n - k). *)
Theorem generate_lp_problem_weights (self : BlockOptimizer) (new : list ServiceType.t) :
  new <> [] ->
  NoDup (map ServiceType.name new) ->
  (Qsum (map (service_weight_of self new) new)
   == 1 - (1 - scenario_coef_sum self new)
          * inject_Z (Z.of_nat (List.length (filter (in_scenario self) new)))
          / inject_Z (Z.of_nat (List.length new)))%Q.
Proof.
  intros Hne Hnd. rewrite (weights_split self new new).
  rewrite (scenario_coef_sum_candidates self new Hnd). unfold default_weight_of.
  assert (Hlen : (inject_Z (Z.of_nat (List.length (filter (fun s => negb (in_scenario self s))
                                                         new)))
                  == inject_Z (Z.of_nat (List.length new))
                     - inject_Z (Z.of_nat (List.length (filter (in_scenario self) new))))%Q).
  { rewrite <- (filter_length (in_scenario self) new) at 1.
    rewrite Nat2Z.inj_add, inject_Z_plus. ring. }
  rewrite Hlen.
  assert (Hn : ~ (inject_Z (Z.of_nat (List.length new)) == 0)%Q).
  { destruct new as [|s r]; [congruence|]. simpl List.length.
    rewrite Nat2Z.inj_succ. unfold Qeq. simpl. lia. }
  field. exact Hn.
Qed.

(** The candidates of block 1 of the example city under a scenario that
    gives schools 1/2: the kindergartens get (1 - 1/2) / 2, and the two
    weights add up to 3/4. *)
Lemma generate_lp_problem_weights_witness :
  (Qsum (map (service_weight_of Example3.self_scenario
                [Example.school; Example.kindergarten])
             [Example.school; Example.kindergarten])
   == 3 # 4)%Q.
Proof.
  rewrite (generate_lp_problem_weights Example3.self_scenario
             [Example.school; Example.kindergarten]).
  - vm_compute. reflexivity.
  - discriminate.
  - simpl. repeat constructor; simpl; intuition discriminate.
Defined.

(** ** Blocks the city does not know *)

(** When the first block of the assignment is missing from the city model
    or from the blocks table, [calculate] stops with [KeyError] in the
    preparation loop, before the program is built and before anything is
    printed. *)
Theorem calculate_unknown_block
  (set_union : list ServiceType.t -> list ServiceType.t -> list ServiceType.t)
  (solve : LpProblem -> LpStatusCode * solution)
  (city : CityModel) (key : Z) (lu : LandUse) (rest : Dict Z LandUse)
  (scenario : Dict string Q) (max_facilities : option Z) :
  zget key (blocks city) = None \/ gdf_loc (get_blocks_gdf city) key = None ->
  calculate set_union solve city ((key, lu) :: rest) scenario max_facilities
  = ([], Raise KeyError).
Proof.
  intro H.
  assert (Hprep : prepare set_union city ((key, lu) :: rest) scenario max_facilities
                  = Raise KeyError).
  { unfold prepare, dict_keys. cbn [map fst dedup prepare_blocks].
    unfold prepare_block. cbn [city_model BLOCKS_LANUSE_DICT].
    destruct (zget key (blocks city)) as [block|] eqn:Eb; [|reflexivity].
    destruct H as [H|H]; [discriminate H|].
    cbn [or_raise bind dict_get]. destruct (Z.eq_dec key key) as [_|N]; [|congruence].
    cbn [or_raise bind]. unfold calculate_free_area. cbn [city_model]. rewrite Eb.
    cbn [or_raise bind]. unfold get_capacity_demand. cbn [city_model]. rewrite H.
    reflexivity. }
  unfold calculate. rewrite Hprep. reflexivity.
Qed.

(** Block 9 is not a block of the example city. *)
Lemma calculate_unknown_block_witness :
  calculate Example.set_union (Example.constant_engine LpStatusOptimal 0)
    Example.city [(9%Z, RESIDENTIAL)] [] None
  = ([], Raise KeyError).
Proof.
  apply (calculate_unknown_block Example.set_union
           (Example.constant_engine LpStatusOptimal 0) Example.city 9 RESIDENTIAL
           [] [] None).
  left. reflexivity.
Defined.

(** ** The update against the local deficit *)

Lemma gap_constraint_present (self : BlockOptimizer) (prob : LpProblem) (key : Z)
  (lu : LandUse) (new : list ServiceType.t) (bricks_df : list BrickRow.t)
  (cm : Dict string Constants * Q) (serv : ServiceType.t) (c : Constants) :
  generate_lp_problem self = Ok prob ->
  zget key (BLOCKS_LANUSE_DICT self) = Some lu ->
  zget key (NEW_SERVICE_TYPES self) = Some new ->
  zget key (BRICKS self) = Some bricks_df ->
  zget key (CONSTANTS self) = Some cm ->
  In serv new ->
  sget (ServiceType.name serv) (fst cm) = Some c ->
  in_deficit c ->
  In (gap_constraint key bricks_df (ServiceType.name serv) c) (constraints prob).
Proof.
  intros Hgen Hlu Hnew Hb Hcm Hserv Hc Hdef.
  destruct (generate_lp_problem_section self prob key lu Hgen Hlu) as [sec [Hsec [Hsub _]]].
  pose proof Hsec as H0. apply block_section_Ok in H0.
  destruct H0 as [i [_ [Ilu [Inew [_ [Ib [Icm [Iblk _]]]]]]]].
  destruct (block_section_constraints self key sec i Hsec Ilu Inew Ib Icm Iblk)
    as [_ Hiff].
  assert (E2 : in_new i = new) by congruence.
  assert (E3 : in_bricks i = bricks_df) by congruence.
  assert (E4 : in_constants i = cm) by congruence.
  rewrite E2, E3, E4 in Hiff.
  apply Hsub. apply Hiff. left. exists serv, c.
  split; [exact Hserv|]. split; [exact Hc|]. left. split; [exact Hdef | reflexivity].
Qed.

(** When the solution the decoder reads satisfies the program (whose
    objective has a variable), the update never adds more capacity of a
    service type in deficit than the deficit: the cell of a block and a
    candidate service type whose local demand is positive and above local
    capacity is at most local demand minus local capacity. *)
Theorem get_optimal_update_df_within_gap
  (self : BlockOptimizer) (prob : LpProblem) (sol : solution)
  (update_df : DataFrame) (bricks_to_build : Dict Z (list BuildRow))
  (objective_value : option Q) (key : Z) (lu : LandUse)
  (new : list ServiceType.t) (bricks_df : list BrickRow.t)
  (cm : Dict string Constants * Q) (serv : ServiceType.t) (c : Constants) :
  generate_lp_problem self = Ok prob ->
  get_optimal_update_df self prob sol = Ok (update_df, bricks_to_build, objective_value) ->
  terms (objective prob) <> [] ->
  feasible prob (decoded_assignment prob sol) ->
  zget key (BLOCKS_LANUSE_DICT self) = Some lu ->
  zget key (NEW_SERVICE_TYPES self) = Some new ->
  zget key (BRICKS self) = Some bricks_df ->
  zget key (CONSTANTS self) = Some cm ->
  In serv new ->
  sget (ServiceType.name serv) (fst cm) = Some c ->
  in_deficit c ->
  ServiceType.name serv <> "population"%string ->
  (delta_at update_df key (ServiceType.name serv) <= demand_local c - capacity_local c)%Q.
Proof.
  intros Hgen Hdec _ [Hcons _] Hlu Hnew Hb Hcm Hserv Hc Hdef Hname.
  assert (Hkey : In key (zkeys (BLOCKS_LANUSE_DICT self))).
  { apply dict_get_keys. eauto. }
  destruct (update_cells self prob sol update_df bricks_to_build objective_value key
              bricks_df Hdec Hkey Hb) as [Hcell _].
  rewrite (Hcell _ Hname), <- value_fit_function.
  pose proof (gap_constraint_present self prob key lu new bricks_df cm serv c
                Hgen Hlu Hnew Hb Hcm Hserv Hc Hdef) as Hin.
  apply (proj1 (Forall_forall _ _) Hcons) in Hin. exact Hin.
Qed.

Lemma example_schools_feasible :
  feasible Example.prob (decoded_assignment Example.prob Example3.schools_solution).
Proof.
  split.
  - let l := eval vm_compute in (constraints Example.prob) in
    change (Forall (satisfies (decoded_assignment Example.prob Example3.schools_solution))
                   l).
    closed_Forall closed_Qle.
  - let l := eval vm_compute in (variables Example.prob) in
    change (Forall (within_bounds
                      (decoded_assignment Example.prob Example3.schools_solution)) l).
    closed_Forall closed_bounds.
Defined.

(** Block 1 of the example city: 720 school places in demand, 115 at hand,
    and a solution with two school bricks of 50 places. *)
Lemma get_optimal_update_df_within_gap_witness :
  exists update_df bricks_to_build objective_value,
    get_optimal_update_df Example.self Example.prob Example3.schools_solution
    = Ok (update_df, bricks_to_build, objective_value)
    /\ (delta_at update_df 1 "school" <= 720 - 115)%Q.
Proof.
  assert (E : exists update_df bricks_to_build objective_value,
             get_optimal_update_df Example.self Example.prob Example3.schools_solution
             = Ok (update_df, bricks_to_build, objective_value)).
  { eexists. eexists. eexists. vm_compute. reflexivity. }
  destruct E as [update_df [bricks_to_build [objective_value E]]].
  exists update_df, bricks_to_build, objective_value. split; [exact E|].
  apply (get_optimal_update_df_within_gap Example.self Example.prob
           Example3.schools_solution update_df bricks_to_build objective_value 1
           RESIDENTIAL [Example.school; Example.kindergarten]
           (get_bricks_df (Example.service_types RESIDENTIAL))
           Example.constants1 Example.school (mkConstants 720 115)).
  - vm_compute. reflexivity.
  - exact E.
  - vm_compute. discriminate.
  - exact example_schools_feasible.
  - reflexivity.
  - reflexivity.
  - reflexivity.
  - vm_compute. reflexivity.
  - left. reflexivity.
  - vm_compute. reflexivity.
  - split; vm_compute; reflexivity.
  - discriminate.
Defined.

(** ** The itemized breakdown against the update table *)

Lemma decode_block_rows (self : BlockOptimizer) (vars : list LpVar) (st : DecoderState)
  (key : Z) (d : Dict string Q) (rows : list BuildRow) :
  decode_block self vars st key = Ok (d, rows) ->
  exists bricks_to_build population,
    map (fun row => (build_idx row, (build_brick row, service_counts row))) rows
    = bricks_to_build
    /\ Forall (fun r => Qzerob (snd (snd r)) = false) bricks_to_build
    /\ d = if Qltb 0 population
           then sset "population"%string population (sum_capacity_agg bricks_to_build)
           else sum_capacity_agg bricks_to_build.
Proof.
  unfold decode_block. intro H.
  apply bind_Ok in H. destruct H as [count [_ H]].
  apply bind_Ok in H. destruct H as [bricks_df [_ H]].
  apply bind_Ok in H. destruct H as [cm [_ H]].
  apply bind_Ok in H. destruct H as [rows' [Hrows H]].
  apply bind_Ok in H. destruct H as [u [_ H]].
  apply bind_Ok in H. destruct H as [population [_ H]].
  inversion H; subst d rows'. clear H.
  exists (filter (fun r => negb (Qzerob (snd (snd r)))) (indexed (combine bricks_df count))),
         population.
  split; [|split; [|reflexivity]].
  - apply mapM_Ok_Forall2 in Hrows.
    induction Hrows as [|r row rs rows0 Hr _ IH]; [reflexivity|].
    simpl. rewrite IH. f_equal.
    apply bind_Ok in Hr. destruct Hr as [c [_ Hr]]. inversion Hr.
    destruct r as [n [b q]]. reflexivity.
  - apply Forall_forall. intros r Hr. apply filter_In in Hr. destruct Hr as [_ Hr].
    apply negb_true_iff. exact Hr.
Qed.

Lemma decode_blocks_get_rows (self : BlockOptimizer) (vars : list LpVar)
  (st : DecoderState) (keys : list Z) :
  forall ub, decode_blocks self vars st keys = Ok ub ->
  forall key, In key keys ->
    exists d rows, decode_block self vars st key = Ok (d, rows)
                   /\ zget key (fst ub) = Some d
                   /\ zget key (snd ub) = Some rows.
Proof.
  induction keys as [|key0 rest IH]; intros ub H key Hin; [destruct Hin|].
  simpl in H. apply bind_Ok in H. destruct H as [[d0 rows0] [H0 H]].
  apply bind_Ok in H. destruct H as [r [Hr H]]. inversion H; subst ub. clear H.
  simpl. destruct (Z.eq_dec key key0) as [E|N].
  - subst key0. exists d0, rows0. split; [exact H0|]. split; reflexivity.
  - apply (IH r Hr key). destruct Hin as [E|Hin]; [congruence | exact Hin].
Qed.

Lemma Qsum_build_rows (name : string) (rows : list BuildRow) :
  Qsum (map (fun r : nat * (BrickRow.t * Q) =>
               BrickRow.capacity (fst (snd r)) * snd (snd r))%Q
            (filter (fun r => String.eqb (BrickRow.service_type (fst (snd r))) name)
                    (map (fun row => (build_idx row, (build_brick row, service_counts row)))
                         rows)))
  = Qsum (map (fun row => BrickRow.capacity (build_brick row) * service_counts row)%Q
              (filter (fun row => String.eqb (BrickRow.service_type (build_brick row)) name)
                      rows)).
Proof.
  induction rows as [|row r IH]; simpl; [reflexivity|].
  destruct (String.eqb (BrickRow.service_type (build_brick row)) name); simpl;
    rewrite IH; reflexivity.
Qed.

(** The two tables the decoder returns agree: every block of the assignment
    has its itemized breakdown, every row of which has a count other than
    0, and for every service type the capacities times counts of the
    breakdown's rows of that type add up to the block's cell in the update
    table (for a program whose objective has a variable). *)
Theorem get_optimal_update_df_breakdown
  (self : BlockOptimizer) (prob : LpProblem) (sol : solution)
  (update_df : DataFrame) (bricks_to_build : Dict Z (list BuildRow))
  (objective_value : option Q) (key : Z) :
  get_optimal_update_df self prob sol = Ok (update_df, bricks_to_build, objective_value) ->
  terms (objective prob) <> [] ->
  In key (zkeys (BLOCKS_LANUSE_DICT self)) ->
  exists rows,
    zget key bricks_to_build = Some rows
    /\ (forall row, In row rows -> ~ (service_counts row == 0)%Q)
    /\ forall name, name <> "population"%string ->
         (delta_at update_df key name
          == Qsum (map (fun row => BrickRow.capacity (build_brick row) * service_counts row)
                       (filter (fun row => String.eqb (BrickRow.service_type (build_brick row))
                                                      name) rows)))%Q.
Proof.
  intros H _ Hkey. unfold get_optimal_update_df in H.
  apply bind_Ok in H. destruct H as [st [_ H]].
  apply bind_Ok in H. destruct H as [ub [Hub H]].
  inversion H; subst update_df bricks_to_build. clear H.
  destruct (decode_blocks_get_rows _ _ _ _ _ Hub key Hkey) as [d [rows [Hd [Hget Hrows]]]].
  apply decode_block_rows in Hd.
  destruct Hd as [btb [population [Emap [Hnz Ed]]]].
  exists rows. split; [exact Hrows|]. split.
  - intros row Hrow. apply Qzerob_false.
    apply (proj1 (Forall_forall _ _) Hnz
             (build_idx row, (build_brick row, service_counts row))).
    rewrite <- Emap.
    apply (in_map (fun row => (build_idx row, (build_brick row, service_counts row)))
                  rows row Hrow).
  - intros name Hname. unfold delta_at. rewrite df_at_from_dict_index, Hget, Ed.
    assert (E : sget name
                  (if Qltb 0 population
                   then sset "population"%string population (sum_capacity_agg btb)
                   else sum_capacity_agg btb)
                = sget name (sum_capacity_agg btb)).
    { destruct (Qltb 0 population); [|reflexivity].
      apply dict_get_set_other. exact Hname. }
    rewrite E. unfold sum_capacity_agg. rewrite sum_capacity_agg_fold. simpl sget.
    rewrite Qplus_0_l, <- Emap, Qsum_build_rows. reflexivity.
Qed.

(** Block 1 of the example city under the capped program, every variable
    solved to 1. *)
Lemma get_optimal_update_df_breakdown_witness :
  exists update_df bricks_to_build objective_value rows,
    get_optimal_update_df Example.self_capped Example.prob_capped (fun _ => Some 1%Q)
    = Ok (update_df, bricks_to_build, objective_value)
    /\ zget 1%Z bricks_to_build = Some rows
    /\ (delta_at update_df 1 "school"
        == Qsum (map (fun row => BrickRow.capacity (build_brick row) * service_counts row)
                     (filter (fun row => String.eqb (BrickRow.service_type (build_brick row))
                                                    "school") rows)))%Q.
Proof.
  assert (E : exists update_df bricks_to_build objective_value,
             get_optimal_update_df Example.self_capped Example.prob_capped
               (fun _ => Some 1%Q)
             = Ok (update_df, bricks_to_build, objective_value)).
  { eexists. eexists. eexists. vm_compute. reflexivity. }
  destruct E as [update_df [bricks_to_build [objective_value E]]].
  destruct (get_optimal_update_df_breakdown Example.self_capped Example.prob_capped
              (fun _ => Some 1%Q) update_df bricks_to_build objective_value 1 E)
    as [rows [Hrows [_ Hsum]]].
  - vm_compute. discriminate.
  - left. reflexivity.
  - exists update_df, bricks_to_build, objective_value, rows.
    split; [exact E|]. split; [exact Hrows|].
    apply Hsum. discriminate.
Defined.
